(** * Premier League spending and success: the scripts' helper logic

    A shallow embedding of the string, table and control logic of

    - [01_data_preparation.py]  (season labels, column reconciliation),
    - [02_analysis.py]          (numeric coercion of the key columns),
    - [03_regression.py]        (row filtering before the four models),
    - [data/scripts/get_fbref_wages.py] (season range, currency parser,
      wage-table locator, the per-season scraping loop),

    followed by the properties established about them. *)

From Stdlib Require Import ZArith NArith List Ascii String Bool Lia.
From Stdlib Require Import Floats.SpecFloat.
From stdpp Require Import base option list gmap.

Import ListNotations.
Open Scope Z_scope.

(** ** Python text

    A Python [str] is a sequence of Unicode code points.  Code points are
    numbers of type [N]; literals of the source that are plain ASCII are
    written with [str "..."]. *)

Module PyStr.

Definition pystr : Type := list N.

Definition str (s : string) : pystr :=
  List.map N_of_ascii (list_ascii_of_string s).

Definition hyphen : N := 45%N.       (* "-" *)
Definition en_dash : N := 8211%N.    (* U+2013 *)
Definition pound : N := 163%N.       (* U+00A3 *)
Definition comma : N := 44%N.
Definition point : N := 46%N.
Definition newline : N := 10%N.

Fixpoint eqb (a b : pystr) : bool :=
  match a, b with
  | [], [] => true
  | x :: a', y :: b' => (x =? y)%N && eqb a' b'
  | _, _ => false
  end.

(** [str.isspace] on one character, which is also the class [\s] of
    [re] on text patterns and what [str.strip()] removes. *)
Definition is_space (c : N) : bool :=
  ((9 <=? c) && (c <=? 13) || (28 <=? c) && (c <=? 32)
   || (c =? 133) || (c =? 160) || (c =? 5760)
   || (8192 <=? c) && (c <=? 8202)
   || (c =? 8232) || (c =? 8233) || (c =? 8239) || (c =? 8287)
   || (c =? 12288))%N.

(** The decimal digits of Unicode (category Nd, Unicode 14) come in runs
    of ten consecutive code points, zero first.  These are the first
    code points of the runs. *)
Definition digit_zeros : list N :=
  [48; 1632; 1776; 1984; 2406; 2534; 2662; 2790; 2918; 3046; 3174; 3302;
   3430; 3558; 3664; 3792; 3872; 4160; 4240; 6112; 6160; 6470; 6608; 6784;
   6800; 6992; 7088; 7232; 7248; 42528; 43216; 43264; 43472; 43504; 43600;
   44016; 65296; 66720; 68912; 69734; 69872; 69942; 70096; 70384; 70736;
   70864; 71248; 71360; 71472; 71904; 72016; 72784; 73040; 73120; 92768;
   92864; 93008; 120782; 120792; 120802; 120812; 120822; 123200; 123632;
   125264; 130032]%N.

(** The value of a decimal digit, [None] for any other character. *)
Fixpoint digit_in (zeros : list N) (c : N) : option Z :=
  match zeros with
  | [] => None
  | z :: zs =>
      if ((z <=? c) && (c <? z + 10))%N then Some (Z.of_N (c - z))
      else digit_in zs c
  end.

Definition digit_value (c : N) : option Z := digit_in digit_zeros c.

(** The class [\d] of [re] on text patterns. *)
Definition is_digit (c : N) : bool :=
  match digit_value c with Some _ => true | None => false end.

(** [str.strip()] *)
Fixpoint lstrip (s : pystr) : pystr :=
  match s with
  | c :: s' => if is_space c then lstrip s' else s
  | [] => []
  end.

Definition rstrip (s : pystr) : pystr := rev (lstrip (rev s)).

Definition strip (s : pystr) : pystr := rstrip (lstrip s).

(** [s.replace(old, new)] for a one-character [old]. *)
Definition replace (old : N) (new : pystr) (s : pystr) : pystr :=
  flat_map (fun c => if (c =? old)%N then new else [c]) s.

(** [str.lower()].  Outside ASCII only two characters have a lower-case
    form that contains an ASCII letter (U+0130 and the Kelvin sign
    U+212A); the other non-ASCII characters, whose lower-case forms are
    non-ASCII again, are kept as they are: no test of the scripts, all of
    which look for ASCII words, can tell the difference. *)
Definition lower_char (c : N) : pystr :=
  if ((65 <=? c) && (c <=? 90))%N then [(c + 32)%N]
  else if (c =? 304)%N then [105%N; 775%N]
  else if (c =? 8490)%N then [107%N]
  else [c].

Definition lower (s : pystr) : pystr := flat_map lower_char s.

(** [sub in s] *)
Fixpoint starts_with (sub s : pystr) : bool :=
  match sub, s with
  | [], _ => true
  | a :: sub', b :: s' => (a =? b)%N && starts_with sub' s'
  | _ :: _, [] => false
  end.

Fixpoint contains (sub s : pystr) : bool :=
  starts_with sub s ||
  match s with
  | [] => false
  | _ :: s' => contains sub s'
  end.

(** [int(g)] for a run [g] of decimal digits. *)
Definition digit_or_zero (c : N) : Z :=
  match digit_value c with Some d => d | None => 0 end.

Definition int (g : pystr) : Z :=
  fold_left (fun acc c => 10 * acc + digit_or_zero c) g 0.

(** [str(n)], the decimal numeral of a Python integer. *)
Fixpoint uint_codes (d : Decimal.uint) : pystr :=
  match d with
  | Decimal.Nil => []
  | Decimal.D0 d => 48%N :: uint_codes d
  | Decimal.D1 d => 49%N :: uint_codes d
  | Decimal.D2 d => 50%N :: uint_codes d
  | Decimal.D3 d => 51%N :: uint_codes d
  | Decimal.D4 d => 52%N :: uint_codes d
  | Decimal.D5 d => 53%N :: uint_codes d
  | Decimal.D6 d => 54%N :: uint_codes d
  | Decimal.D7 d => 55%N :: uint_codes d
  | Decimal.D8 d => 56%N :: uint_codes d
  | Decimal.D9 d => 57%N :: uint_codes d
  end.

Definition of_int (n : Z) : pystr :=
  match n with
  | Zneg p => hyphen :: uint_codes (Pos.to_uint p)
  | _ => uint_codes (N.to_uint (Z.to_N n))
  end.

End PyStr.

Import PyStr.

(** ** Exceptions and results *)

Inductive exn : Type :=
  | ValueError (msg : pystr)
  | RuntimeError (msg : pystr)
  | OtherException (class msg : pystr).

(** [str(e)] *)
Definition exn_str (e : exn) : pystr :=
  match e with
  | ValueError msg | RuntimeError msg | OtherException _ msg => msg
  end.

Inductive result (A : Type) : Type :=
  | Ok (a : A)
  | Raise (e : exn).

Arguments Ok {A} a.
Arguments Raise {A} e.

(** ** Regular expressions of the scripts

    Each pattern of the scripts is anchored at both ends and its character
    classes are disjoint, so a match reads the text once from left to
    right.  [$] holds at the end of the text and also just before one
    final line feed. *)

Module Re.

(** [\d{n}]: exactly [n] digits, then the rest of the text. *)
Fixpoint digits (n : nat) (s : pystr) : option (pystr * pystr) :=
  match n with
  | O => Some ([], s)
  | S n' =>
      match s with
      | c :: s' =>
          if is_digit c then
            match digits n' s' with
            | Some (g, r) => Some (c :: g, r)
            | None => None
            end
          else None
      | [] => None
      end
  end.

(** one literal character *)
Definition lit (c : N) (s : pystr) : option pystr :=
  match s with
  | c' :: s' => if (c' =? c)%N then Some s' else None
  | [] => None
  end.

(** [$] *)
Definition at_end (s : pystr) : bool :=
  match s with
  | [] => true
  | [c] => (c =? newline)%N
  | _ => false
  end.

(** a greedy run of a character class: [\d*], [\s*] *)
Fixpoint span (p : N -> bool) (s : pystr) : pystr * pystr :=
  match s with
  | c :: s' =>
      if p c then let '(g, r) := span p s' in (c :: g, r) else ([], s)
  | [] => ([], [])
  end.

(** [^(\d{a})-(\d{b})$], with its two groups *)
Definition two_groups (a b : nat) (s : pystr) : option (pystr * pystr) :=
  match digits a s with
  | Some (g1, r1) =>
      match lit hyphen r1 with
      | Some r2 =>
          match digits b r2 with
          | Some (g2, r3) => if at_end r3 then Some (g1, g2) else None
          | None => None
          end
      | None => None
      end
  | None => None
  end.

(** [\d+(\.\d+)?]: the whole part, the fractional part when there is
    one, and the rest of the text.  A point that no digit follows is not
    part of the numeral. *)
Definition numeral (s : pystr)
  : option (pystr * option pystr * pystr) :=
  let '(w, r) := span is_digit s in
  match w with
  | [] => None
  | _ :: _ =>
      match r with
      | c :: r1 =>
          if (c =? point)%N then
            let '(f, r2) := span is_digit r1 in
            match f with
            | [] => Some (w, None, r)
            | _ :: _ => Some (w, Some f, r2)
            end
          else Some (w, None, r)
      | [] => Some (w, None, [])
      end
  end.

(** [^(\d+(\.\d+)?)\s*[mM]$], with its first group *)
Definition number_m (s : pystr) : option (pystr * option pystr) :=
  match numeral s with
  | Some (w, f, r) =>
      match snd (span is_space r) with
      | c :: r' =>
          if ((c =? 109) || (c =? 77))%N && at_end r' then Some (w, f)
          else None
      | [] => None
      end
  | None => None
  end.

(** [^\d+(\.\d+)?$] *)
Definition plain_number (s : pystr) : option (pystr * option pystr) :=
  match numeral s with
  | Some (w, f, r) => if at_end r then Some (w, f) else None
  | None => None
  end.

End Re.

(** ** Python floats

    A Python [float] is an IEEE 754 binary64 number, here a [spec_float]
    with 53 bits of precision. *)

Module Float64.

Definition prec : Z := 53.
Definition emax : Z := 1024.

Definition float : Type := spec_float.

(** [float(n)] for a Python integer [n] *)
Definition of_int (n : Z) : float := binary_normalize prec emax n 0 false.

Definition mul (x y : float) : float := SFmul prec emax x y.

(** [float(g)] for a numeral [g] made of a whole part and, after a
    point, a fractional part, all decimal digits: the binary64 number
    nearest to its value. *)
Definition of_numeral (whole : pystr) (frac : option pystr) : float :=
  let f := match frac with Some f => f | None => [] end in
  match int (whole ++ f) with
  | Zpos m =>
      SFdiv prec emax
        (S754_finite false m 0)
        (S754_finite false (Z.to_pos (10 ^ Z.of_nat (List.length f))) 0)
  | _ => S754_zero false
  end.

Definition is_nan (x : float) : bool :=
  match x with S754_nan => true | _ => false end.

(** The integer part of a finite number, rounded towards zero. *)
Definition trunc (x : float) : option Z :=
  match x with
  | S754_zero _ => Some 0
  | S754_finite s m e =>
      let a := match e with
               | Zneg k => Z.shiftr (Zpos m) (Zpos k)
               | _ => Z.shiftl (Zpos m) e
               end in
      Some (if s then - a else a)
  | S754_infinity _ | S754_nan => None
  end.

End Float64.

(** ** 01_data_preparation.py *)

Module Prep.

(** The objects found in the list that
    [pd.Series([s]).str.extract(...).iloc[0].tolist()] returns: the text
    of a group, or the float NaN that pandas puts in the row of a text
    the pattern does not match.  [PNone] is Python's [None]. *)
Inductive pyobj : Type :=
  | PStr (s : pystr)
  | PNaN
  | PNone.

(** [Series.str.extract] with a pattern of two groups, one row *)
Definition str_extract (re : pystr -> option (pystr * pystr)) (s : pystr)
  : pyobj * pyobj :=
  match re s with
  | Some (g1, g2) => (PStr g1, PStr g2)
  | None => (PNaN, PNaN)
  end.

(** [Series.str.match], one row *)
Definition str_match (re : pystr -> option (pystr * pystr)) (s : pystr)
  : bool :=
  match re s with Some _ => true | None => false end.

(** [x is not None] *)
Definition is_not_None (x : pyobj) : bool :=
  match x with PNone => false | _ => true end.

(** how an f-string renders the object *)
Definition format (x : pyobj) : pystr :=
  match x with
  | PStr s => s
  | PNaN => str "nan"
  | PNone => str "None"
  end.

Definition normalise_season_value (s : pystr) : pystr :=
  let s := replace en_dash [hyphen] (strip s) in
  let m := str_extract (Re.two_groups 2 2) s in
  if is_not_None (fst m) && is_not_None (snd m) then
    str "20" ++ format (fst m) ++ hyphen :: format (snd m)
  else if str_match (Re.two_groups 4 2) s then s
  else s.

(** *** Column names of one sheet *)

(** [df.rename(columns={old: new})] on the column names *)
Definition rename (old new : pystr) (cols : list pystr) : list pystr :=
  List.map (fun c => if eqb c old then new else c) cols.

(** [name in df.columns] *)
Definition has_column (name : pystr) (cols : list pystr) : bool :=
  existsb (eqb name) cols.

(** [df[name] = value] on the column names: a new column comes last *)
Definition assign_column (name : pystr) (cols : list pystr) : list pystr :=
  if has_column name cols then cols else cols ++ [name].

Definition club_like (c : pystr) : bool := contains (str "club") (lower c).

Definition prom_like (c : pystr) : bool := contains (str "promot") (lower c).

Definition spend_like (c : pystr) : bool :=
  contains (str "transfer") (lower c)
  && (contains (str "spend") (lower c) || contains (str "expend") (lower c)).

Definition standardise_club (cols : list pystr) : list pystr :=
  if negb (has_column (str "club") cols) then
    match List.filter club_like cols with
    | c0 :: _ => rename c0 (str "club") cols
    | [] => cols
    end
  else cols.

Definition standardise_promoted (cols : list pystr) : list pystr :=
  match List.filter prom_like cols with
  | c0 :: _ =>
      if negb (eqb c0 (str "promoted")) then rename c0 (str "promoted") cols
      else cols
  | [] => cols
  end.

Definition spend_name : pystr := str "gross_transfer_spend_gbp_m".

Definition standardise_spend (cols : list pystr) : list pystr :=
  match List.filter spend_like cols with
  | c0 :: _ =>
      if negb (eqb c0 spend_name) then rename c0 spend_name cols else cols
  | [] => cols
  end.

(** The three renames of the sheet loop, in the order of the source, on
    the column names as the loop has them at that point. *)
Definition standardise_columns (cols : list pystr) : list pystr :=
  standardise_spend (standardise_promoted (standardise_club cols)).

(** The column names of a sheet at the end of the loop body, from the
    names read from the workbook. *)
Definition sheet_columns (raw : list pystr) : list pystr :=
  standardise_columns (assign_column (str "season") (List.map strip raw)).

End Prep.

(** ** Numeric columns (02_analysis.py and 03_regression.py)

    A cell of a table read from CSV is empty, holds a number or holds a
    text.  [pd.to_numeric(..., errors="coerce")] keeps numbers, reads a
    text as a number where it can and gives NaN to the rest; how pandas
    reads a text as a number is a parameter of the development. *)

Module Numeric.

Section Coercion.

Variable text_to_number : pystr -> option Float64.float.

Inductive cell : Type :=
  | Missing
  | Num (x : Float64.float)
  | Text (s : pystr).

Definition to_numeric (c : cell) : Float64.float :=
  match c with
  | Missing => S754_nan
  | Num x => x
  | Text s =>
      match text_to_number s with
      | Some x => x
      | None => S754_nan
      end
  end.

(** [.fillna(v)] on one value *)
Definition fillna (v x : Float64.float) : Float64.float :=
  if Float64.is_nan x then v else x.

(** [.astype(int)] on one value: the integer part, which comes out as the
    least 64-bit integer when it does not fit 64 bits (the cast of x86-64);
    pandas refuses NaN and the infinities. *)
Definition int64_min : Z := - 2 ^ 63.
Definition int64_max : Z := 2 ^ 63 - 1.

Definition astype_int (x : Float64.float) : result Z :=
  match Float64.trunc x with
  | Some n =>
      if (int64_min <=? n) && (n <=? int64_max) then Ok n else Ok int64_min
  | None =>
      Raise (ValueError (str "Cannot convert non-finite values (NA or inf) to integer"))
  end.

(** a whole column through a conversion that may raise *)
Fixpoint astype_int_column (xs : list Float64.float) : result (list Z) :=
  match xs with
  | [] => Ok []
  | x :: xs' =>
      match astype_int x with
      | Ok n =>
          match astype_int_column xs' with
          | Ok ns => Ok (n :: ns)
          | Raise e => Raise e
          end
      | Raise e => Raise e
      end
  end.

(** [pd.to_numeric(df["promoted"], errors="coerce").fillna(0).astype(int)],
    the same expression in both scripts (in 02_analysis.py the coercion
    is the last round of the loop over the numeric columns). *)
Definition coerce_promoted (col : list cell) : result (list Z) :=
  astype_int_column
    (List.map (fun c => fillna (Float64.of_int 0) (to_numeric c)) col).

(** *** The key columns of a table *)

Record raw_row : Type := {
  r_points_total : cell;
  r_league_position : cell;
  r_total_wage_bill : cell;
  r_gross_transfer_spend : cell;
  r_promoted : cell
}.

Record row : Type := {
  points_total : Float64.float;
  league_position : Float64.float;
  total_wage_bill : Float64.float;
  gross_transfer_spend : Float64.float;
  promoted : Z
}.

(** *** 02_analysis.py: part 4, the numeric types *)

Definition numeric_row (r : raw_row) (p : Z) : row :=
  {| points_total := to_numeric (r_points_total r);
     league_position := to_numeric (r_league_position r);
     total_wage_bill := to_numeric (r_total_wage_bill r);
     gross_transfer_spend := to_numeric (r_gross_transfer_spend r);
     promoted := p |}.

Definition analysis_ready (df : list raw_row) : result (list row) :=
  match coerce_promoted (List.map r_promoted df) with
  | Ok ps => Ok (zip_with numeric_row df ps)
  | Raise e => Raise e
  end.

(** *** 03_regression.py: the table given to the models *)

(** lines 8 to 15 on one row, given its coerced promotion flag *)
Definition coerce_row (r : raw_row) (p : Z) : row :=
  {| points_total := to_numeric (r_points_total r);
     league_position := to_numeric (r_league_position r);
     total_wage_bill := to_numeric (r_total_wage_bill r);
     gross_transfer_spend :=
       fillna (Float64.of_int 0) (to_numeric (r_gross_transfer_spend r));
     promoted := p |}.

(** [df.dropna(subset=["points_total", "total_wage_bill_gbp_m"])] *)
Definition complete (r : row) : bool :=
  negb (Float64.is_nan (points_total r))
  && negb (Float64.is_nan (total_wage_bill r)).

Definition preprocess (df : list raw_row) : result (list row) :=
  match coerce_promoted (List.map r_promoted df) with
  | Ok ps => Ok (List.filter complete (zip_with coerce_row df ps))
  | Raise e => Raise e
  end.

(** The four models; each is fitted on the table [preprocess] returns. *)
Inductive model : Type := M1 | M2 | M3 | M4.

Definition dependent (m : model) (r : row) : Float64.float :=
  match m with
  | M1 | M2 | M3 => points_total r
  | M4 => league_position r
  end.

End Coercion.

End Numeric.

Import Numeric.

(** ** data/scripts/get_fbref_wages.py *)

Module Wages.

(** *** Currency strings *)

(** The values [parse_money_to_gbp] is applied to: a cell of the wages
    column is missing ([None] or NaN), a text or an integer. *)
Inductive pyvalue : Type :=
  | VNone
  | VNaN
  | VStr (s : pystr)
  | VInt (n : Z).

(** [pd.isna(value)] *)
Definition isna (v : pyvalue) : bool :=
  match v with VNone | VNaN => true | _ => false end.

(** [str(value)] *)
Definition to_str (v : pyvalue) : pystr :=
  match v with
  | VNone => str "None"
  | VNaN => str "nan"
  | VStr s => s
  | VInt n => PyStr.of_int n
  end.

(** The text the two patterns are tried on: without the pound signs and
    the commas, and without white space around. *)
Definition clean (s : pystr) : pystr :=
  strip (replace comma [] (replace pound [] s)).

Definition million : Float64.float := Float64.of_int 1000000.

Definition parse_money_to_gbp (value : pyvalue) : option Float64.float :=
  if isna value then None
  else
    let s := strip (to_str value) in
    if eqb s [] || eqb (lower s) (str "nan") || eqb (lower s) (str "none")
    then None
    else
      let s := clean s in
      match Re.number_m s with
      | Some (w, f) => Some (Float64.mul (Float64.of_numeral w f) million)
      | None =>
          match Re.plain_number s with
          | Some (w, f) => Some (Float64.of_numeral w f)
          | None => None
          end
      end.

(** *** The wages table of a page *)

Section Tables.

(** Column labels are whatever [pd.read_html] produced; the function
    only looks at their [str].  The body of a table is not read. *)
Context {label body : Type}.
Variable label_str : label -> pystr.

Record table : Type := { columns : list label; rows : body }.

(** [str(c).strip().lower()] *)
Definition norm (c : label) : pystr := lower (strip (label_str c)).

Definition is_club_name (cl : pystr) : bool :=
  eqb cl (str "squad") || eqb cl (str "club") || eqb cl (str "team").

Definition club_col_candidates (df : table) : list label :=
  List.filter (fun c => is_club_name (norm c)) (columns df).

Definition wage_col_candidates (df : table) : list label :=
  flat_map
    (fun c =>
       let cl := norm c in
       (if contains (str "annual") cl && contains (str "wage") cl
        then [c] else [])
       ++ (if eqb cl (str "annual wages") || eqb cl (str "annual_wages")
           then [c] else []))
    (columns df).

(** The loop over [df_list]; its state is [(best_df, best_col)]. *)
Fixpoint find_loop (df_list : list table) : option table * option label :=
  match df_list with
  | [] => (None, None)
  | df :: rest =>
      match club_col_candidates df with
      | [] => find_loop rest
      | _ :: _ =>
          match wage_col_candidates df with
          | c :: _ => (Some df, Some c)
          | [] => find_loop rest
          end
      end
  end.

Definition no_wages_table : exn :=
  RuntimeError
    (str "Could not find a wages table with an annual wages column").

Definition find_wages_table (df_list : list table)
  : result (table * label) :=
  match find_loop df_list with
  | (Some best_df, Some best_col) => Ok (best_df, best_col)
  | _ => Raise no_wages_table
  end.

End Tables.

(** *** The list of seasons *)

(** [range(a, b)] *)
Definition range (a b : Z) : list Z :=
  List.map (fun i => a + Z.of_nat i) (seq 0 (Z.to_nat (b - a))).

(** f"{y}-{y+1}" *)
Definition season_of_year (y : Z) : pystr :=
  PyStr.of_int y ++ hyphen :: PyStr.of_int (y + 1).

Definition format_error : exn :=
  ValueError (str "Seasons must be in YYYY-YYYY format").

Definition range_error : exn :=
  ValueError (str "End season must be after start season").

Definition make_season_list (start_season end_season : pystr)
  : result (list pystr) :=
  match Re.two_groups 4 4 start_season, Re.two_groups 4 4 end_season with
  | Some sm, Some em =>
      let start_year := int (fst sm) in
      let end_year := int (fst em) in
      if end_year <? start_year then Raise range_error
      else Ok (List.map season_of_year (range start_year (end_year + 1)))
  | _, _ => Raise format_error
  end.

(** *** The run over the seasons *)

(** A row of a season's output: club, season, wage bill in GBP. *)
Definition wage_row : Type := (pystr * pystr * Float64.float)%type.

(** What a file of the output directory holds. *)
Inductive file : Type :=
  | WagesCsv (rows : list wage_row)
  | RunLog (entries : list (pystr * Z * pystr))
  | Failures (entries : list (pystr * pystr)).

(** [os.path.join(outdir, name)] for a relative [name] *)
Definition path_join (outdir name : pystr) : pystr :=
  match rev outdir with
  | [] => name
  | c :: _ => if (c =? 47)%N then outdir ++ name else outdir ++ 47%N :: name
  end.

Section Run.

(** The site, as far as the run can tell: fetching a season either
    gives its rows or raises an exception, and leaves the site in some
    state. *)
Variable Net : Type.
Variable fetch_fbref_wages_for_season :
  pystr -> Net -> result (list wage_row) * Net.

Record world : Type := {
  net : Net;
  files : gmap pystr file;
  stdout : list pystr
}.

(** The machine the script runs on.  A call of [print], of [to_csv] or of
    [os.makedirs] may raise an exception (a line the console cannot encode,
    a closed console, a file or a directory that cannot be written): the
    machine says which call does, given the state of the world.  With the
    exception of a failed write comes what the write has left at its path:
    nothing new, or a file cut short. *)
Record machine : Type := {
  print_error : pystr -> world -> option exn;
  write_error : pystr -> file -> world -> option (exn * option file);
  makedirs_error : pystr -> world -> option exn
}.

Variable m : machine.

Definition set_net (n : Net) (w : world) : world :=
  {| net := n; files := files w; stdout := stdout w |}.

Definition set_files (fs : gmap pystr file) (w : world) : world :=
  {| net := net w; files := fs; stdout := stdout w |}.

(** [print(line)]: a line that cannot be printed leaves the console as it
    was. *)
Definition print (line : pystr) (w : world) : result unit * world :=
  match print_error m line w with
  | Some e => (Raise e, w)
  | None =>
      (Ok tt, {| net := net w; files := files w; stdout := stdout w ++ [line] |})
  end.

(** [f.to_csv(path, index=False)] *)
Definition to_csv (path : pystr) (f : file) (w : world) : result unit * world :=
  match write_error m path f w with
  | Some (e, Some cut) => (Raise e, set_files (<[path := cut]> (files w)) w)
  | Some (e, None) => (Raise e, w)
  | None => (Ok tt, set_files (<[path := f]> (files w)) w)
  end.

(** [os.makedirs(outdir, exist_ok=True)]; directories are not files of
    the world. *)
Definition makedirs (outdir : pystr) (w : world) : result unit * world :=
  match makedirs_error m outdir w with
  | Some e => (Raise e, w)
  | None => (Ok tt, w)
  end.

(** the lists [results] and [failures] *)
Record logs : Type := {
  results : list (pystr * Z * pystr);
  failures : list (pystr * pystr)
}.

Definition wages_file (outdir s : pystr) : pystr :=
  path_join outdir (str "wages_" ++ replace hyphen [95%N] s ++ str ".csv").

Definition saved_line (s : pystr) (len : Z) (outfile : pystr) : pystr :=
  str "Saved " ++ s ++ str " with " ++ PyStr.of_int len
  ++ str " rows -> " ++ outfile.

Definition failed_line (s : pystr) (e : exn) : pystr :=
  str "FAILED " ++ s ++ str ": " ++ exn_str e.

(** The [try] block of one round, lines 175 to 179: the exception it ends
    with, if any, and the lists as it leaves them ([results] has its new
    entry once line 178 is passed, also when line 179 raises). *)
Definition try_season (outdir s : pystr) (st : logs * world)
  : option exn * logs * world :=
  let '(lg, w) := st in
  let '(r, n) := fetch_fbref_wages_for_season s (net w) in
  let w := set_net n w in
  match r with
  | Raise e => (Some e, lg, w)
  | Ok df =>
      let outfile := wages_file outdir s in
      match to_csv outfile (WagesCsv df) w with
      | (Raise e, w) => (Some e, lg, w)
      | (Ok _, w) =>
          let len := Z.of_nat (List.length df) in
          let lg := {| results := results lg ++ [(s, len, outfile)];
                       failures := failures lg |} in
          match print (saved_line s len outfile) w with
          | (Raise e, w) => (Some e, lg, w)
          | (Ok _, w) => (None, lg, w)
          end
      end
  end.

(** One round of the loop: the [try] block and its handler, which catches
    every exception of the block (every [exn] is an [Exception]; an
    interrupt is not one and is not modelled); an exception of the
    handler's own [print] leaves the loop. *)
Definition scrape_season (outdir s : pystr) (st : logs * world)
  : result logs * world :=
  match try_season outdir s st with
  | (None, lg, w) => (Ok lg, w)
  | (Some e, lg, w) =>
      let lg := {| results := results lg;
                   failures := failures lg ++ [(s, exn_str e)] |} in
      match print (failed_line s e) w with
      | (Raise e', w) => (Raise e', w)
      | (Ok _, w) => (Ok lg, w)
      end
  end.

Fixpoint scrape_all (outdir : pystr) (seasons : list pystr)
  (st : logs * world) : result logs * world :=
  match seasons with
  | [] => (Ok (fst st), snd st)
  | s :: rest =>
      match scrape_season outdir s st with
      | (Ok lg, w) => scrape_all outdir rest (lg, w)
      | (Raise e, w) => (Raise e, w)
      end
  end.

Definition log_path (outdir : pystr) : pystr :=
  path_join outdir (str "run_log.csv").

Definition fail_path (outdir : pystr) : pystr :=
  path_join outdir (str "failures.csv").

Definition done_line (outdir : pystr) : pystr :=
  str "Done. Log: " ++ log_path outdir ++ str ". Failures: "
  ++ fail_path outdir ++ str ".".

(** The two reports and the last line, lines 185 to 191. *)
Definition write_reports (outdir : pystr) (lg : logs) (w : world)
  : result unit * world :=
  match to_csv (log_path outdir) (RunLog (results lg)) w with
  | (Raise e, w) => (Raise e, w)
  | (Ok _, w) =>
      match to_csv (fail_path outdir) (Failures (failures lg)) w with
      | (Raise e, w) => (Raise e, w)
      | (Ok _, w) => print (done_line outdir) w
      end
  end.

(** [main], from the parsed arguments on. *)
Definition main (start_season end_season outdir : pystr) (w : world)
  : result unit * world :=
  match makedirs outdir w with
  | (Raise e, w) => (Raise e, w)
  | (Ok _, w) =>
      match make_season_list start_season end_season with
      | Raise e => (Raise e, w)
      | Ok seasons =>
          match scrape_all outdir seasons
                  ({| results := []; failures := [] |}, w) with
          | (Raise e, w) => (Raise e, w)
          | (Ok lg, w) => write_reports outdir lg w
          end
      end
  end.

End Run.

End Wages.

(** * Properties *)

(** ** Text *)

Lemma eqb_eq (a b : pystr) : eqb a b = true <-> a = b.
Proof.
  revert b. induction a as [|x a IH]; intros [|y b]; simpl; try easy.
  rewrite andb_true_iff, N.eqb_eq, IH. split.
  - intros [-> ->]. reflexivity.
  - intros H. injection H as -> ->. easy.
Qed.

Lemma eqb_refl (a : pystr) : eqb a a = true.
Proof. apply eqb_eq. reflexivity. Qed.

Lemma eqb_neq (a b : pystr) : eqb a b = false <-> a <> b.
Proof.
  rewrite <- eqb_eq. destruct (eqb a b); split; congruence.
Qed.

(** A run of decimal digits. *)
Definition all_digits (g : pystr) : Prop := Forall (fun c => is_digit c = true) g.

(** ** Patterns *)

Lemma digits_sound (n : nat) (s g r : pystr) :
  Re.digits n s = Some (g, r) ->
  s = g ++ r /\ List.length g = n /\ all_digits g.
Proof.
  revert s g r. induction n as [|n IH]; intros s g r; simpl.
  - intros [= <- <-]. repeat split. constructor.
  - destruct s as [|c s]; [discriminate |].
    destruct (is_digit c) eqn:Hc; [|discriminate].
    destruct (Re.digits n s) as [[g' r']|] eqn:Hd; [|discriminate].
    intros [= <- <-]. apply IH in Hd as (-> & Hl & Hg).
    repeat split; simpl; [congruence |]. constructor; assumption.
Qed.

Lemma digits_complete (g r : pystr) :
  all_digits g -> Re.digits (List.length g) (g ++ r) = Some (g, r).
Proof.
  induction 1 as [|c g Hc Hg IH]; simpl; [reflexivity |].
  rewrite Hc, IH. reflexivity.
Qed.

Lemma digits_spec (n : nat) (s g r : pystr) :
  Re.digits n s = Some (g, r)
  <-> s = g ++ r /\ List.length g = n /\ all_digits g.
Proof.
  split; [apply digits_sound |].
  intros (-> & <- & Hg). apply digits_complete, Hg.
Qed.

Lemma at_end_spec (s : pystr) :
  Re.at_end s = true <-> s = [] \/ s = [newline].
Proof.
  destruct s as [|c [|d s]]; simpl.
  - intuition.
  - rewrite N.eqb_eq. split.
    + intros ->. right. reflexivity.
    + intros [H|H]; [discriminate | congruence].
  - split; [discriminate | intros [H|H]; discriminate].
Qed.

(** What it is for a text to match [^(\d{a})-(\d{b})$] with groups [g1]
    and [g2]: the two runs of digits around a hyphen, and nothing else but,
    possibly, one final line feed. *)
Definition two_groups_match (a b : nat) (s g1 g2 : pystr) : Prop :=
  List.length g1 = a /\ all_digits g1 /\ List.length g2 = b /\ all_digits g2
  /\ (s = g1 ++ hyphen :: g2 \/ s = g1 ++ hyphen :: g2 ++ [newline]).

Lemma two_groups_spec (a b : nat) (s g1 g2 : pystr) :
  Re.two_groups a b s = Some (g1, g2) <-> two_groups_match a b s g1 g2.
Proof.
  unfold Re.two_groups, two_groups_match. split.
  - destruct (Re.digits a s) as [[h1 r1]|] eqn:H1; [|discriminate].
    apply digits_spec in H1 as (-> & Hl1 & Hd1).
    destruct r1 as [|c r2]; simpl; [discriminate |].
    destruct (N.eqb_spec c hyphen) as [->|]; [|discriminate].
    destruct (Re.digits b r2) as [[h2 r3]|] eqn:H2; [|discriminate].
    apply digits_spec in H2 as (-> & Hl2 & Hd2).
    destruct (Re.at_end r3) eqn:He; [|discriminate].
    intros [= <- <-]. apply at_end_spec in He as [-> | ->].
    + rewrite app_nil_r. auto 10.
    + auto 10.
  - intros (Hl1 & Hd1 & Hl2 & Hd2 & Hs).
    assert (H1 : forall r, Re.digits a (g1 ++ r) = Some (g1, r))
      by (intros r; apply digits_spec; auto).
    assert (H2 : forall r, Re.digits b (g2 ++ r) = Some (g2, r))
      by (intros r; apply digits_spec; auto).
    destruct Hs as [-> | ->]; rewrite H1; simpl.
    + specialize (H2 []). rewrite app_nil_r in H2. rewrite H2. reflexivity.
    + rewrite H2. reflexivity.
Qed.

(** The groups of a match are determined by the text. *)
Lemma two_groups_match_unique (a b : nat) (s g1 g2 h1 h2 : pystr) :
  two_groups_match a b s g1 g2 -> two_groups_match a b s h1 h2 ->
  g1 = h1 /\ g2 = h2.
Proof.
  intros Hg Hh. apply two_groups_spec in Hg, Hh.
  rewrite Hg in Hh. injection Hh as -> ->. auto.
Qed.

(** ** The list of seasons *)

Lemma range_length (a b : Z) : List.length (Wages.range a b) = Z.to_nat (b - a).
Proof. unfold Wages.range. rewrite length_map, length_seq. reflexivity. Qed.

Lemma range_lookup (a b i : Z) :
  0 <= i < b - a -> Wages.range a b !! Z.to_nat i = Some (a + i).
Proof.
  intros Hi. unfold Wages.range. rewrite list_lookup_fmap.
  rewrite lookup_seq_lt by lia. simpl. f_equal. lia.
Qed.

(** A bound of the season range matches the pattern of [make_season_list],
    [^(\d{4})-(\d{4})$], with first year [y1] and second year [y2]. *)
Definition season_bound (s y1 y2 : pystr) : Prop := two_groups_match 4 4 s y1 y2.

Lemma format_error_not_range_error : Wages.format_error <> Wages.range_error.
Proof. discriminate. Qed.

Lemma make_season_list_matched (s e a a' b b' : pystr) :
  season_bound s a a' -> season_bound e b b' ->
  Wages.make_season_list s e =
    if int b <? int a then Raise Wages.range_error
    else Ok (List.map Wages.season_of_year (Wages.range (int a) (int b + 1))).
Proof.
  intros Hs He. apply two_groups_spec in Hs, He.
  unfold Wages.make_season_list. rewrite Hs, He. reflexivity.
Qed.

Lemma make_season_list_unmatched (s e : pystr) :
  Re.two_groups 4 4 s = None \/ Re.two_groups 4 4 e = None ->
  Wages.make_season_list s e = Raise Wages.format_error.
Proof.
  unfold Wages.make_season_list.
  intros [-> | ->]; [reflexivity |].
  destruct (Re.two_groups 4 4 s); reflexivity.
Qed.

Lemma no_match_iff (s : pystr) :
  Re.two_groups 4 4 s = None <-> ~ (exists y1 y2, season_bound s y1 y2).
Proof.
  split.
  - intros H (y1 & y2 & Hm). apply two_groups_spec in Hm. congruence.
  - intros H. destruct (Re.two_groups 4 4 s) as [[y1 y2]|] eqn:Hm; [|reflexivity].
    exfalso. apply H. exists y1, y2. apply two_groups_spec, Hm.
Qed.

(** C4.  [make_season_list] raises the format error exactly when one of
    the two bounds does not match the pattern of four digits, a hyphen and
    four digits; when both match, it raises the range error exactly when the
    first year of the end bound is below the first year of the start bound,
    and returns a list in every other case. *)
Theorem make_season_list_errors (start_season end_season : pystr) :
  (Wages.make_season_list start_season end_season = Raise Wages.format_error
   <-> ~ (exists y1 y2, season_bound start_season y1 y2)
       \/ ~ (exists y1 y2, season_bound end_season y1 y2))
  /\ (forall a a' b b',
        season_bound start_season a a' -> season_bound end_season b b' ->
        (Wages.make_season_list start_season end_season = Raise Wages.range_error
         <-> int b < int a)
        /\ (~ int b < int a ->
            exists l, Wages.make_season_list start_season end_season = Ok l)).
Proof.
  split.
  - rewrite <- !no_match_iff. split.
    + intros H.
      destruct (Re.two_groups 4 4 start_season) as [[a a']|] eqn:Hs; [|auto].
      destruct (Re.two_groups 4 4 end_season) as [[b b']|] eqn:He; [|auto].
      apply two_groups_spec in Hs, He.
      rewrite (make_season_list_matched _ _ _ _ _ _ Hs He) in H.
      destruct (int b <? int a); discriminate.
    + apply make_season_list_unmatched.
  - intros a a' b b' Hs He.
    rewrite (make_season_list_matched _ _ _ _ _ _ Hs He).
    destruct (Z.ltb_spec (int b) (int a)) as [Hlt | Hge]; split.
    + tauto.
    + intros Hn. contradiction.
    + split; [discriminate | lia].
    + intros _. eexists. reflexivity.
Qed.

Lemma str_2013_2014 : season_bound (str "2013-2014") (str "2013") (str "2014").
Proof. apply two_groups_spec. reflexivity. Qed.

Lemma str_2015_2016 : season_bound (str "2015-2016") (str "2015") (str "2016").
Proof. apply two_groups_spec. reflexivity. Qed.

Lemma make_season_list_errors_witness :
  Wages.make_season_list (str "2015-2016") (str "2013-2014")
    = Raise Wages.range_error
  /\ Wages.make_season_list (str "13-14") (str "2015-2016")
    = Raise Wages.format_error.
Proof.
  split.
  - apply (proj1 (proj2 (make_season_list_errors _ _) _ _ _ _
                    str_2015_2016 str_2013_2014)).
    vm_compute. reflexivity.
  - apply (proj1 (make_season_list_errors _ _)).
    left. apply no_match_iff. reflexivity.
Defined.

(** Every year from 1000 to 9998 gives a season text [y-(y+1)] that the
    pattern reads back as the years [y] and [y + 1]. *)
Definition reads_back (y : Z) : bool :=
  match Re.two_groups 4 4 (Wages.season_of_year y) with
  | Some (g1, g2) => (int g1 =? y) && eqb (Wages.season_of_year y) (g1 ++ hyphen :: g2)
  | None => false
  end.

Lemma reads_back_all : forallb reads_back (Wages.range 1000 9999) = true.
Proof. vm_compute. reflexivity. Qed.

Lemma season_of_year_bound (y : Z) :
  1000 <= y <= 9998 ->
  exists g1 g2, season_bound (Wages.season_of_year y) g1 g2 /\ int g1 = y.
Proof.
  intros Hy. pose proof reads_back_all as H.
  rewrite forallb_forall in H. specialize (H y).
  unfold reads_back in H.
  destruct (Re.two_groups 4 4 (Wages.season_of_year y)) as [[g1 g2]|] eqn:Hm.
  - exists g1, g2. split; [apply two_groups_spec, Hm |].
    assert (Hin : In y (Wages.range 1000 9999)).
    { unfold Wages.range. apply in_map_iff. exists (Z.to_nat (y - 1000)).
      split; [lia |]. apply in_seq. lia. }
    apply H in Hin. apply andb_true_iff in Hin as [Hin _]. lia.
  - assert (Hin : In y (Wages.range 1000 9999)).
    { unfold Wages.range. apply in_map_iff. exists (Z.to_nat (y - 1000)).
      split; [lia |]. apply in_seq. lia. }
    apply H in Hin. discriminate.
Qed.

(** C1.  For bounds that match the pattern, with first years [a] and [b]
    and [a <= b], [make_season_list] returns the seasons ["y-(y+1)"] of
    every year [y] from [a] to [b], in order and without a gap: the list has
    [b - a + 1] entries and entry [i] is the season of year [a + i].  The
    start season is itself the first entry exactly when it is the text
    ["a-(a+1)"] of its own first year, and the end season the last entry
    exactly when it is the text ["b-(b+1)"].  Both hold when the bounds are
    the seasons of two years from 1000 to 9998.  From 2013-2014 to
    2015-2016 the list is 2013-2014, 2014-2015, 2015-2016. *)
Theorem make_season_list_inclusive :
  (forall start_season end_season a a' b b',
     season_bound start_season a a' -> season_bound end_season b b' ->
     int a <= int b ->
     exists l,
       Wages.make_season_list start_season end_season = Ok l
       /\ List.length l = Z.to_nat (int b - int a + 1)
       /\ (forall i, 0 <= i <= int b - int a ->
             l !! Z.to_nat i = Some (Wages.season_of_year (int a + i)))
       /\ (head l = Some start_season
           <-> start_season = Wages.season_of_year (int a))
       /\ (last l = Some end_season
           <-> end_season = Wages.season_of_year (int b)))
  /\ (forall y z, 1000 <= y -> y <= z -> z <= 9998 ->
      exists l,
        Wages.make_season_list (Wages.season_of_year y) (Wages.season_of_year z)
          = Ok l
        /\ head l = Some (Wages.season_of_year y)
        /\ last l = Some (Wages.season_of_year z))
  /\ Wages.make_season_list (str "2013-2014") (str "2015-2016")
     = Ok [str "2013-2014"; str "2014-2015"; str "2015-2016"].
Proof.
  assert (Hgen : forall start_season end_season a a' b b',
     season_bound start_season a a' -> season_bound end_season b b' ->
     int a <= int b ->
     exists l,
       Wages.make_season_list start_season end_season = Ok l
       /\ List.length l = Z.to_nat (int b - int a + 1)
       /\ (forall i, 0 <= i <= int b - int a ->
             l !! Z.to_nat i = Some (Wages.season_of_year (int a + i)))
       /\ (head l = Some start_season
           <-> start_season = Wages.season_of_year (int a))
       /\ (last l = Some end_season
           <-> end_season = Wages.season_of_year (int b))).
  { intros s e a a' b b' Hs He Hab.
    rewrite (make_season_list_matched _ _ _ _ _ _ Hs He).
    destruct (Z.ltb_spec (int b) (int a)) as [Hlt | _]; [lia |].
    set (l := List.map Wages.season_of_year (Wages.range (int a) (int b + 1))).
    assert (Hlen : List.length l = Z.to_nat (int b - int a + 1)).
    { unfold l. rewrite length_map, range_length. f_equal. lia. }
    assert (Hnth : forall i, 0 <= i <= int b - int a ->
              l !! Z.to_nat i = Some (Wages.season_of_year (int a + i))).
    { intros i Hi. unfold l. rewrite list_lookup_fmap, range_lookup by lia.
      reflexivity. }
    assert (Hhead : head l = Some (Wages.season_of_year (int a))).
    { pose proof (Hnth 0) as H0. rewrite Z.add_0_r in H0.
      rewrite <- H0 by lia. destruct l; reflexivity. }
    assert (Hlast : last l = Some (Wages.season_of_year (int b))).
    { pose proof (Hnth (int b - int a)) as H1.
      replace (int a + (int b - int a)) with (int b) in H1 by lia.
      rewrite <- H1 by lia. rewrite last_lookup, Hlen. f_equal. lia. }
    exists l. split; [reflexivity |]. split; [exact Hlen |].
    split; [exact Hnth |]. rewrite Hhead, Hlast.
    split; (split; [intros [= ->]; reflexivity | intros ->; reflexivity]). }
  split; [exact Hgen |]. split; [| reflexivity].
  intros y z Hy Hyz Hz.
  destruct (season_of_year_bound y) as (a & a' & Ha & Hay); [lia |].
  destruct (season_of_year_bound z) as (b & b' & Hb & Hbz); [lia |].
  destruct (Hgen _ _ _ _ _ _ Ha Hb) as (l & Hl & _ & _ & Hh & Ht); [lia |].
  exists l. split; [exact Hl |]. rewrite Hay in Hh. rewrite Hbz in Ht.
  split; [apply Hh | apply Ht]; reflexivity.
Qed.

Lemma make_season_list_inclusive_witness :
  exists l,
    Wages.make_season_list (str "2013-2014") (str "2015-2016") = Ok l
    /\ List.length l = 3%nat
    /\ l !! 2%nat = Some (str "2015-2016")
    /\ head l = Some (str "2013-2014")
    /\ last l = Some (str "2015-2016").
Proof.
  destruct (proj1 make_season_list_inclusive _ _ _ _ _ _
              str_2013_2014 str_2015_2016)
    as (l & Hl & Hlen & Hnth & Hh & Ht).
  - vm_compute. discriminate.
  - exists l. split; [exact Hl |]. split; [exact Hlen |].
    split; [apply (Hnth 2); vm_compute; split; discriminate |].
    split; [apply Hh | apply Ht]; reflexivity.
Defined.

(** The bounds 0998-0999 and 0999-1000 match the pattern, and neither is
    in the list: [int] drops the leading zero of a first year, and the
    seasons come out as 998-999 and 999-1000.  Nor is an end season such
    as 2013-2020, whose second year does not follow the first. *)
Lemma make_season_list_endpoints_counterexample :
  season_bound (str "0998-0999") (str "0998") (str "0999")
  /\ season_bound (str "0999-1000") (str "0999") (str "1000")
  /\ int (str "0998") <= int (str "0999")
  /\ Wages.make_season_list (str "0998-0999") (str "0999-1000")
     = Ok [str "998-999"; str "999-1000"]
  /\ existsb (eqb (str "0998-0999")) [str "998-999"; str "999-1000"] = false
  /\ existsb (eqb (str "0999-1000")) [str "998-999"; str "999-1000"] = false
  /\ Wages.make_season_list (str "2013-2014") (str "2013-2020")
     = Ok [str "2013-2014"].
Proof.
  split; [apply two_groups_spec; reflexivity |].
  split; [apply two_groups_spec; reflexivity |].
  split; [vm_compute; discriminate |].
  repeat split; reflexivity.
Qed.

(** ** Season labels *)

(** The text [normalise_season_value] tries its patterns on. *)
Definition label_text (s : pystr) : pystr := replace en_dash [hyphen] (strip s).

(** Whatever the label, the test on the two extracted values succeeds:
    they are texts or NaN, and neither is [None]. *)
Lemma extraction_is_not_None (re : pystr -> option (pystr * pystr)) (s : pystr) :
  Prep.is_not_None (fst (Prep.str_extract re s))
  && Prep.is_not_None (snd (Prep.str_extract re s)) = true.
Proof.
  unfold Prep.str_extract. destruct (re s) as [[g1 g2]|]; reflexivity.
Qed.

(** A label of two digits, a hyphen and two digits gets its century. *)
Lemma normalise_season_value_two_digit (s g1 g2 : pystr) :
  two_groups_match 2 2 (label_text s) g1 g2 ->
  Prep.normalise_season_value s = str "20" ++ g1 ++ hyphen :: g2.
Proof.
  intros H. apply two_groups_spec in H.
  unfold Prep.normalise_season_value. fold (label_text s).
  rewrite extraction_is_not_None. unfold Prep.str_extract. rewrite H.
  reflexivity.
Qed.

(** Every other label comes back as the rendering of two NaN values. *)
Lemma normalise_season_value_other (s : pystr) :
  ~ (exists g1 g2, two_groups_match 2 2 (label_text s) g1 g2) ->
  Prep.normalise_season_value s = str "20nan-nan".
Proof.
  intros H.
  unfold Prep.normalise_season_value. fold (label_text s).
  rewrite extraction_is_not_None. unfold Prep.str_extract.
  destruct (Re.two_groups 2 2 (label_text s)) as [[g1 g2]|] eqn:Hm.
  - exfalso. apply H. exists g1, g2. apply two_groups_spec, Hm.
  - reflexivity.
Qed.

(** C2.  What [normalise_season_value] returns for the labels the claim
    names: "13-14", also written with an en dash, becomes "2013-14"; the
    label "2013-14", already in four-digit form, is not passed through but
    comes back as "20nan-nan", and so does a label of no known form. *)
Theorem normalise_season_value_labels :
  Prep.normalise_season_value (str "13-14") = str "2013-14"
  /\ Prep.normalise_season_value (str "13" ++ en_dash :: str "14") = str "2013-14"
  /\ Prep.normalise_season_value (str "2013-14") = str "20nan-nan"
  /\ Prep.normalise_season_value (str "Sheet1") = str "20nan-nan".
Proof. repeat split; reflexivity. Qed.

(** C10.  A second application to the result for "13-14" does not give the
    same label again. *)
Theorem normalise_season_value_twice :
  Prep.normalise_season_value (str "13-14") = str "2013-14"
  /\ Prep.normalise_season_value (Prep.normalise_season_value (str "13-14"))
     = str "20nan-nan".
Proof. split; reflexivity. Qed.

(** ** Column names of a sheet *)

(** The position of the first column that passes a test. *)
Fixpoint first_index (p : pystr -> bool) (cols : list pystr) : option nat :=
  match cols with
  | [] => None
  | c :: cs => if p c then Some O else option_map S (first_index p cs)
  end.

(** The column a search settles on, if any: the club search is only made
    when no column is named "club". *)
Definition club_choice (cols : list pystr) : option nat :=
  if Prep.has_column (str "club") cols then None
  else first_index Prep.club_like cols.

Definition prom_choice (cols : list pystr) : option nat :=
  first_index Prep.prom_like cols.

Definition spend_choice (cols : list pystr) : option nat :=
  first_index Prep.spend_like cols.

(** The name the reconciliation is to leave at position [n], where the
    sheet had the name [c]. *)
Definition reconciled_name (cols : list pystr) (n : nat) (c : pystr) : pystr :=
  if decide (club_choice cols = Some n) then str "club"
  else if decide (prom_choice cols = Some n) then str "promoted"
  else if decide (spend_choice cols = Some n) then Prep.spend_name
  else c.

(** No column is settled on by two searches. *)
Definition choices_apart (cols : list pystr) : Prop :=
  forall n,
    (club_choice cols = Some n -> prom_choice cols <> Some n)
    /\ (club_choice cols = Some n -> spend_choice cols <> Some n)
    /\ (prom_choice cols = Some n -> spend_choice cols <> Some n).

Definition insert_opt (io : option nat) (x : pystr) (l : list pystr) : list pystr :=
  match io with
  | Some i => <[i := x]> l
  | None => l
  end.

Lemma first_index_Some (p : pystr -> bool) (l : list pystr) (i : nat) :
  first_index p l = Some i ->
  exists c, l !! i = Some c /\ p c = true.
Proof.
  revert i. induction l as [|c l IH]; intros i; simpl; [discriminate |].
  destruct (p c) eqn:Hc.
  - intros [= <-]. exists c. auto.
  - destruct (first_index p l) as [k|]; [|discriminate].
    intros [= <-]. apply (IH k). reflexivity.
Qed.

Lemma filter_first_index (p : pystr -> bool) (l : list pystr) :
  match first_index p l with
  | Some i => exists c rest, List.filter p l = c :: rest /\ l !! i = Some c
  | None => List.filter p l = []
  end.
Proof.
  induction l as [|c l IH]; simpl; [reflexivity |].
  destruct (p c) eqn:Hc.
  - exists c, (List.filter p l). auto.
  - destruct (first_index p l) as [k|]; simpl; exact IH.
Qed.

Lemma first_index_insert (p : pystr -> bool) (x : pystr) (l : list pystr) (i : nat) :
  p x = false -> first_index p l <> Some i ->
  first_index p (<[i := x]> l) = first_index p l.
Proof.
  intros Hx. revert i. induction l as [|c l IH]; intros i Hi; [reflexivity |].
  destruct i as [|i]; simpl in *.
  - rewrite Hx. destruct (p c); [congruence | reflexivity].
  - destruct (p c); [reflexivity |]. rewrite IH; [reflexivity |].
    intros H. rewrite H in Hi. simpl in Hi. congruence.
Qed.

Lemma first_index_insert_opt (p : pystr -> bool) (x : pystr) (l : list pystr) io :
  p x = false -> (forall i, io = Some i -> first_index p l <> Some i) ->
  first_index p (insert_opt io x l) = first_index p l.
Proof.
  intros Hx Hi. destruct io as [i|]; simpl; [|reflexivity].
  apply first_index_insert; auto.
Qed.

Lemma rename_same (c : pystr) (l : list pystr) : Prep.rename c c l = l.
Proof.
  unfold Prep.rename. induction l as [|d l IH]; simpl; [reflexivity |].
  rewrite IH. destruct (eqb d c) eqn:H; [|reflexivity].
  apply eqb_eq in H. congruence.
Qed.

Lemma rename_absent (c new : pystr) (l : list pystr) :
  ~ In c l -> Prep.rename c new l = l.
Proof.
  unfold Prep.rename. induction l as [|d l IH]; simpl; [reflexivity |].
  intros H. rewrite IH by tauto. destruct (eqb d c) eqn:Hd; [|reflexivity].
  apply eqb_eq in Hd. exfalso. apply H. auto.
Qed.

(** Renaming a name that one column bears changes that column. *)
Lemma rename_once (c new : pystr) (l : list pystr) (i : nat) :
  l !! i = Some c ->
  (forall n d, n <> i -> l !! n = Some d -> d <> c) ->
  Prep.rename c new l = <[i := new]> l.
Proof.
  revert i. induction l as [|d l IH]; intros i Hi Hu; [discriminate |].
  destruct i as [|i]; simpl in *.
  - injection Hi as ->. rewrite eqb_refl. f_equal.
    apply rename_absent. intros Hin.
    apply list_elem_of_In, list_elem_of_lookup in Hin as [n Hn].
    apply (Hu (S n) c); [lia | exact Hn | reflexivity].
  - destruct (eqb d c) eqn:Hd.
    + apply eqb_eq in Hd. exfalso. apply (Hu O d); [lia | reflexivity | exact Hd].
    + f_equal. apply IH; [exact Hi |].
      intros n e Hn He. apply (Hu (S n) e); [lia | exact He].
Qed.

(** One search and its rename, when the name found is borne once. *)
Lemma rename_first (p : pystr -> bool) (new : pystr) (l : list pystr) :
  (forall i c, first_index p l = Some i -> l !! i = Some c ->
     forall n d, n <> i -> l !! n = Some d -> d <> c) ->
  match List.filter p l with
  | c0 :: _ => Prep.rename c0 new l
  | [] => l
  end = insert_opt (first_index p l) new l.
Proof.
  intros Hu. pose proof (filter_first_index p l) as H.
  destruct (first_index p l) as [i|]; simpl.
  - destruct H as (c & rest & -> & Hi). apply rename_once; [exact Hi |].
    apply (Hu i c); auto.
  - rewrite H. reflexivity.
Qed.

Lemma rename_first_guarded (p : pystr -> bool) (new : pystr) (l : list pystr) :
  match List.filter p l with
  | c0 :: _ => if negb (eqb c0 new) then Prep.rename c0 new l else l
  | [] => l
  end
  = match List.filter p l with
    | c0 :: _ => Prep.rename c0 new l
    | [] => l
    end.
Proof.
  destruct (List.filter p l) as [|c0 rest]; [reflexivity |].
  destruct (eqb c0 new) eqn:H; simpl; [|reflexivity].
  apply eqb_eq in H. subst. symmetry. apply rename_same.
Qed.

(** [l] has the names of [cols] except where it holds a name that does not
    pass the test [p]. *)
Definition kept (p : pystr -> bool) (cols l : list pystr) : Prop :=
  forall n d, l !! n = Some d -> cols !! n = Some d \/ p d = false.

Lemma kept_refl (p : pystr -> bool) (cols : list pystr) : kept p cols cols.
Proof. intros n d H. auto. Qed.

Lemma kept_insert_opt (p : pystr -> bool) (cols l : list pystr) io (x : pystr) :
  p x = false -> kept p cols l -> kept p cols (insert_opt io x l).
Proof.
  intros Hx Hk. destruct io as [i|]; simpl; [|exact Hk].
  intros n d Hn. destruct (decide (i = n)) as [->|Hne].
  - apply list_lookup_insert_Some in Hn as [(_ & <- & _) | (Hne & _)];
      [auto | congruence].
  - rewrite list_lookup_insert_ne in Hn by exact Hne. apply Hk, Hn.
Qed.

Lemma kept_once (p : pystr -> bool) (cols l : list pystr) :
  NoDup cols -> kept p cols l ->
  forall i c, first_index p l = Some i -> l !! i = Some c ->
    forall n d, n <> i -> l !! n = Some d -> d <> c.
Proof.
  intros Hnd Hk i c Hi Hc n d Hn Hd ->.
  apply first_index_Some in Hi as (c' & Hc' & Hp).
  rewrite Hc in Hc'. injection Hc' as <-.
  destruct (Hk _ _ Hc) as [Hci | Hf]; [|congruence].
  destruct (Hk _ _ Hd) as [Hdi | Hf]; [|congruence].
  apply Hn. eapply NoDup_lookup; eassumption.
Qed.

Lemma lookup_insert_opt (io : option nat) (x c : pystr) (l : list pystr) (n : nat) :
  l !! n = Some c ->
  insert_opt io x l !! n = Some (if decide (io = Some n) then x else c).
Proof.
  intros Hn. destruct io as [i|]; simpl.
  - destruct (decide (Some i = Some n)) as [[= ->] | Hne].
    + apply list_lookup_insert_eq. eapply lookup_lt_Some, Hn.
    + rewrite list_lookup_insert_ne by congruence. exact Hn.
  - destruct (decide (None = Some n)); [discriminate | exact Hn].
Qed.

Lemma length_insert_opt (io : option nat) (x : pystr) (l : list pystr) :
  List.length (insert_opt io x l) = List.length l.
Proof. destruct io; simpl; [apply length_insert | reflexivity]. Qed.

Lemma has_column_In (name : pystr) (cols : list pystr) :
  Prep.has_column name cols = true <-> In name cols.
Proof.
  unfold Prep.has_column. rewrite existsb_exists. split.
  - intros (c & Hin & Heq). apply eqb_eq in Heq. congruence.
  - intros Hin. exists name. split; [exact Hin | apply eqb_refl].
Qed.

(** The three renames as three replacements by position. *)
Lemma standardise_columns_by_position (cols : list pystr) :
  NoDup cols -> choices_apart cols ->
  Prep.standardise_columns cols
  = insert_opt (spend_choice cols) Prep.spend_name
      (insert_opt (prom_choice cols) (str "promoted")
         (insert_opt (club_choice cols) (str "club") cols)).
Proof.
  intros Hnd Hap. unfold Prep.standardise_columns.
  assert (H1 : Prep.standardise_club cols
               = insert_opt (club_choice cols) (str "club") cols).
  { unfold Prep.standardise_club, club_choice.
    destruct (Prep.has_column (str "club") cols); simpl; [reflexivity |].
    apply rename_first. apply (kept_once _ cols); [exact Hnd | apply kept_refl]. }
  rewrite H1. set (l1 := insert_opt (club_choice cols) (str "club") cols).
  assert (H2 : Prep.standardise_promoted l1
               = insert_opt (prom_choice cols) (str "promoted") l1).
  { unfold Prep.standardise_promoted. rewrite rename_first_guarded.
    rewrite rename_first.
    - f_equal. apply first_index_insert_opt; [reflexivity |].
      intros i Hi. destruct (Hap i) as (H & _ & _). exact (H Hi).
    - apply (kept_once _ cols); [exact Hnd |].
      apply kept_insert_opt; [reflexivity | apply kept_refl]. }
  rewrite H2. set (l2 := insert_opt (prom_choice cols) (str "promoted") l1).
  assert (Hs1 : first_index Prep.spend_like l1 = spend_choice cols).
  { apply first_index_insert_opt; [reflexivity |].
    intros i Hi. destruct (Hap i) as (_ & H & _). exact (H Hi). }
  assert (Hs2 : first_index Prep.spend_like l2 = spend_choice cols).
  { rewrite <- Hs1. apply first_index_insert_opt; [reflexivity |].
    intros i Hi. rewrite Hs1. destruct (Hap i) as (_ & _ & H). exact (H Hi). }
  unfold Prep.standardise_spend. rewrite rename_first_guarded.
  rewrite rename_first.
  - rewrite Hs2. reflexivity.
  - apply (kept_once _ cols); [exact Hnd |].
    apply kept_insert_opt; [reflexivity |].
    apply kept_insert_opt; [reflexivity | apply kept_refl].
Qed.

(** C5, as amended.  On a sheet whose column names are pairwise different
    and on which no column is settled on by two of the searches: the first
    column whose name contains "club" gets the name "club" if no column has
    that name yet, the first that contains "promot" gets the name
    "promoted", the first that contains "transfer" and "spend" or "expend"
    gets the name "gross_transfer_spend_gbp_m", and every other column,
    later candidates included, keeps its name; where a search finds nothing,
    nothing changes. *)
Theorem standardise_columns_first_match (cols : list pystr) :
  NoDup cols -> choices_apart cols ->
  List.length (Prep.standardise_columns cols) = List.length cols
  /\ forall n c, cols !! n = Some c ->
       Prep.standardise_columns cols !! n = Some (reconciled_name cols n c).
Proof.
  intros Hnd Hap. rewrite (standardise_columns_by_position cols Hnd Hap). split.
  - rewrite !length_insert_opt. reflexivity.
  - intros n c Hn.
    rewrite (lookup_insert_opt _ _ _ _ _
               (lookup_insert_opt _ _ _ _ _
                  (lookup_insert_opt (club_choice cols) (str "club") _ _ _ Hn))).
    f_equal. unfold reconciled_name. destruct (Hap n) as (Hcp & Hcs & Hps).
    destruct (decide (club_choice cols = Some n)) as [Hc|Hc].
    + destruct (decide (prom_choice cols = Some n)) as [Hp|Hp];
        [exfalso; exact (Hcp Hc Hp) |].
      destruct (decide (spend_choice cols = Some n)) as [Hs|Hs];
        [exfalso; exact (Hcs Hc Hs) |].
      reflexivity.
    + destruct (decide (prom_choice cols = Some n)) as [Hp|Hp].
      * destruct (decide (spend_choice cols = Some n)) as [Hs|Hs];
          [exfalso; exact (Hps Hp Hs) |].
        reflexivity.
      * reflexivity.
Qed.

Lemma no_dup_example :
  NoDup [str "Club Name"; str "Promoted?"; str "Transfer Spend";
         str "Net transfer spend"; str "season"].
Proof.
  apply NoDup_ListNoDup.
  repeat (constructor;
          [vm_compute; intros H;
           repeat (destruct H as [H|H]; [discriminate H |]); exact H |]).
  constructor.
Defined.

Lemma choices_apart_example :
  choices_apart [str "Club Name"; str "Promoted?"; str "Transfer Spend";
                 str "Net transfer spend"; str "season"].
Proof.
  intros n.
  change (club_choice _) with (Some 0%nat).
  change (prom_choice _) with (Some 1%nat).
  change (spend_choice _) with (Some 2%nat).
  repeat split; intros [= <-]; discriminate.
Defined.

Lemma standardise_columns_first_match_witness :
  Prep.standardise_columns
    [str "Club Name"; str "Promoted?"; str "Transfer Spend";
     str "Net transfer spend"; str "season"] !! 2%nat
  = Some Prep.spend_name
  /\ Prep.standardise_columns
       [str "Club Name"; str "Promoted?"; str "Transfer Spend";
        str "Net transfer spend"; str "season"] !! 3%nat
     = Some (str "Net transfer spend").
Proof.
  split.
  - apply (proj2 (standardise_columns_first_match _
                    no_dup_example choices_apart_example)
             2%nat (str "Transfer Spend")).
    reflexivity.
  - apply (proj2 (standardise_columns_first_match _
                    no_dup_example choices_apart_example)
             3%nat (str "Net transfer spend")).
    reflexivity.
Defined.

(** Two sheets on which the reconciliation is not what C5 says.  On the
    first, the first column whose name contains "promot" is also the one
    the club search settles on: it ends up named "club" and no column is
    named "promoted".  On the second, two columns have the same name once
    the names are stripped: the rename of the first candidate also renames
    the later one. *)
Lemma standardise_columns_counterexample :
  (first_index Prep.prom_like [str "Team"; str "Promoted club"] = Some 1%nat
   /\ Prep.sheet_columns [str "Team"; str "Promoted club"]
      = [str "Team"; str "club"; str "season"])
  /\ Prep.sheet_columns [str "Club"; str "Club "; str "Points"]
     = [str "club"; str "club"; str "Points"; str "season"].
Proof. repeat split; reflexivity. Qed.

(** ** The wages table of a page *)

(** [x] is the first element of [l] that passes the test [p]. *)
Definition first_such {A : Type} (p : A -> bool) (l : list A) (x : A) : Prop :=
  exists before after,
    l = before ++ x :: after
    /\ Forall (fun y => p y = false) before
    /\ p x = true.

Lemma find_first_such {A : Type} (p : A -> bool) (l : list A) (x : A) :
  List.find p l = Some x <-> first_such p l x.
Proof.
  induction l as [|y l IH]; simpl.
  - split; [discriminate |]. intros (b & a & H & _). destruct b; discriminate.
  - destruct (p y) eqn:Hy.
    + split.
      * intros [= ->]. exists [], l. auto.
      * intros ([|z b] & a & H & Hb & Hx).
        -- simpl in H. congruence.
        -- simpl in H. injection H as <- _. inversion Hb; congruence.
    + rewrite IH. split.
      * intros (b & a & -> & Hb & Hx). exists (y :: b), a. auto.
      * intros ([|z b] & a & H & Hb & Hx).
        -- simpl in H. injection H as <- _. congruence.
        -- simpl in H. injection H as <- ->. inversion Hb; subst.
           exists b, a. auto.
Qed.

Lemma find_none_Forall {A : Type} (p : A -> bool) (l : list A) :
  List.find p l = None <-> Forall (fun y => p y = false) l.
Proof.
  induction l as [|y l IH]; simpl.
  - split; [constructor | reflexivity].
  - destruct (p y) eqn:Hy.
    + split; [discriminate |]. intros H. inversion H; congruence.
    + rewrite IH. split.
      * intros H. constructor; assumption.
      * intros H. inversion H; assumption.
Qed.

Section WagesTable.

Context {label body : Type}.
Variable label_str : label -> pystr.

Abbreviation table := (@Wages.table label body).

(** A column for the clubs: named "squad", "club" or "team", whatever the
    case of the letters and the white space around. *)
Definition is_club_col (c : label) : bool :=
  Wages.is_club_name (Wages.norm label_str c).

(** A column for the annual wages: its name contains both "annual" and
    "wage", or is "annual wages". *)
Definition is_wage_col (c : label) : bool :=
  let cl := Wages.norm label_str c in
  contains (str "annual") cl && contains (str "wage") cl
  || eqb cl (str "annual wages").

(** A table qualifies when it has a column of each kind. *)
Definition qualifies (df : table) : bool :=
  existsb is_club_col (Wages.columns df) && existsb is_wage_col (Wages.columns df).

Lemma club_candidates_nil (df : table) :
  Wages.club_col_candidates label_str df = []
  <-> existsb is_club_col (Wages.columns df) = false.
Proof.
  unfold Wages.club_col_candidates. fold is_club_col.
  induction (Wages.columns df) as [|c cs IH]; simpl; [tauto |].
  fold (is_club_col c). destruct (is_club_col c); simpl; [|exact IH].
  split; discriminate.
Qed.

Lemma exact_names_contain (cl : pystr) :
  eqb cl (str "annual wages") || eqb cl (str "annual_wages") = true ->
  contains (str "annual") cl && contains (str "wage") cl = true.
Proof.
  intros H. apply orb_true_iff in H as [H|H]; apply eqb_eq in H; subst;
    reflexivity.
Qed.

Lemma is_wage_col_contains (c : label) :
  is_wage_col c
  = contains (str "annual") (Wages.norm label_str c)
    && contains (str "wage") (Wages.norm label_str c).
Proof.
  unfold is_wage_col. cbv zeta.
  destruct (contains (str "annual") (Wages.norm label_str c)
            && contains (str "wage") (Wages.norm label_str c)) eqn:H;
    [reflexivity |].
  simpl. destruct (eqb (Wages.norm label_str c) (str "annual wages")) eqn:He;
    [|reflexivity].
  rewrite exact_names_contain in H; [discriminate |]. rewrite He. reflexivity.
Qed.

(** The first candidate for the wages column is the first wages column. *)
Lemma wage_candidates_head (df : table) :
  head (Wages.wage_col_candidates label_str df)
  = List.find is_wage_col (Wages.columns df).
Proof.
  unfold Wages.wage_col_candidates.
  induction (Wages.columns df) as [|c cs IH]; simpl; [reflexivity |].
  rewrite is_wage_col_contains.
  destruct (contains (str "annual") (Wages.norm label_str c)
            && contains (str "wage") (Wages.norm label_str c)) eqn:H;
    [reflexivity |].
  destruct (eqb (Wages.norm label_str c) (str "annual wages")
            || eqb (Wages.norm label_str c) (str "annual_wages")) eqn:He.
  - rewrite exact_names_contain in H; [discriminate | exact He].
  - simpl. exact IH.
Qed.

Lemma find_wage_col_existsb (cs : list label) :
  existsb is_wage_col cs = true <-> exists c, List.find is_wage_col cs = Some c.
Proof.
  induction cs as [|c cs IH]; simpl.
  - split; [discriminate | intros [c H]; discriminate].
  - destruct (is_wage_col c); simpl; [|exact IH].
    split; [eauto | reflexivity].
Qed.

(** The loop stops at the first table that qualifies. *)
Lemma find_loop_first (df_list : list table) :
  Wages.find_loop label_str df_list
  = match List.find qualifies df_list with
    | Some df => (Some df, List.find is_wage_col (Wages.columns df))
    | None => (None, None)
    end.
Proof.
  induction df_list as [|df rest IH]; simpl; [reflexivity |].
  unfold qualifies at 1.
  pose proof (club_candidates_nil df) as Hclub.
  pose proof (wage_candidates_head df) as Hwage.
  destruct (Wages.club_col_candidates label_str df) as [|c0 cands].
  - rewrite (proj1 Hclub eq_refl). simpl. exact IH.
  - destruct (existsb is_club_col (Wages.columns df)) eqn:Hc.
    2:{ destruct Hclub as [_ Hclub]. discriminate (Hclub eq_refl). }
    simpl. destruct (Wages.wage_col_candidates label_str df) as [|w ws];
      simpl in Hwage.
    + destruct (existsb is_wage_col (Wages.columns df)) eqn:Hw; [|exact IH].
      apply find_wage_col_existsb in Hw as [c Hw]. congruence.
    + destruct (existsb is_wage_col (Wages.columns df)) eqn:Hw.
      * rewrite <- Hwage. reflexivity.
      * assert (Hex : existsb is_wage_col (Wages.columns df) = true)
          by (apply find_wage_col_existsb; eauto).
        congruence.
Qed.

(** The function returns the first table that passes [qualifies], with the
    first column of it that passes [is_wage_col]. *)
Lemma find_wages_table_first_such (df_list : list table) :
  (forall df c,
     Wages.find_wages_table label_str df_list = Ok (df, c)
     <-> first_such qualifies df_list df
         /\ first_such is_wage_col (Wages.columns df) c)
  /\ ((exists e, Wages.find_wages_table label_str df_list = Raise e)
      <-> Forall (fun df => qualifies df = false) df_list)
  /\ (Wages.find_wages_table label_str df_list = Raise Wages.no_wages_table
      <-> Forall (fun df => qualifies df = false) df_list).
Proof.
  unfold Wages.find_wages_table. rewrite find_loop_first.
  rewrite <- find_none_Forall.
  destruct (List.find qualifies df_list) as [df0|] eqn:Hf.
  - assert (Hq : qualifies df0 = true).
    { apply find_first_such in Hf as (b & a & _ & _ & Hq). exact Hq. }
    apply andb_true_iff in Hq as [_ Hw].
    apply find_wage_col_existsb in Hw as [c0 Hc0]. rewrite Hc0.
    split; [|split].
    + intros df c. rewrite <- !find_first_such. split.
      * intros [= <- <-]. auto.
      * intros [H1 H2]. rewrite Hf in H1. injection H1 as <-.
        rewrite Hc0 in H2. injection H2 as <-. reflexivity.
    + split; [intros [e H]; discriminate | discriminate].
    + split; discriminate.
  - split; [|split].
    + intros df c. rewrite <- !find_first_such. split; [discriminate |].
      intros [H1 _]. rewrite Hf in H1. discriminate.
    + split; [reflexivity | eauto].
    + split; reflexivity.
Qed.

End WagesTable.

(** *** The criteria in words *)

(** [sub] occurs in [s]. *)
Definition substring (sub s : pystr) : Prop :=
  exists before after, s = before ++ sub ++ after.

Lemma starts_with_spec (sub s : pystr) :
  starts_with sub s = true <-> exists after, s = sub ++ after.
Proof.
  revert s. induction sub as [|a sub IH]; intros s; simpl.
  - split; [eauto | reflexivity].
  - destruct s as [|b s]; [split; [discriminate | intros [t H]; discriminate] |].
    rewrite andb_true_iff, N.eqb_eq, IH. split.
    + intros [-> [t ->]]. eauto.
    + intros [t [= -> ->]]. eauto.
Qed.

Lemma contains_spec (sub s : pystr) :
  contains sub s = true <-> substring sub s.
Proof.
  unfold substring. induction s as [|b s IH]; simpl.
  - rewrite orb_false_r, starts_with_spec. split.
    + intros [t H]. exists [], t. exact H.
    + intros ([|x before] & after & H); [eauto | discriminate].
  - rewrite orb_true_iff, starts_with_spec, IH. split.
    + intros [[t H] | (before & after & H)].
      * exists [], t. exact H.
      * exists (b :: before), after. simpl. congruence.
    + intros ([|x before] & after & H).
      * left. eauto.
      * right. injection H as _ H. eauto.
Qed.

Section WagesTableWords.

Context {label body : Type}.
Variable label_str : label -> pystr.

(** The name the search reads off a column: the text of its label,
    without the white space around it and in lower case. *)
Definition column_name (c : label) : pystr := lower (strip (label_str c)).

(** A column named "squad", "club" or "team", in whatever case. *)
Definition club_column (c : label) : Prop :=
  column_name c = str "squad" \/ column_name c = str "club"
  \/ column_name c = str "team".

(** A column whose name contains both "annual" and "wage", or is
    "annual wages". *)
Definition wages_column (c : label) : Prop :=
  (substring (str "annual") (column_name c)
   /\ substring (str "wage") (column_name c))
  \/ column_name c = str "annual wages".

(** A table that has a column of each kind. *)
Definition qualifying (df : @Wages.table label body) : Prop :=
  (exists c, In c (Wages.columns df) /\ club_column c)
  /\ (exists c, In c (Wages.columns df) /\ wages_column c).

(** [x] is the first element of [l] that has the property [P]. *)
Definition first_that {A : Type} (P : A -> Prop) (l : list A) (x : A) : Prop :=
  exists before after,
    l = before ++ x :: after /\ Forall (fun y => ~ P y) before /\ P x.

Lemma club_column_test (c : label) :
  is_club_col label_str c = true <-> club_column c.
Proof.
  unfold is_club_col, Wages.is_club_name, club_column, column_name, Wages.norm.
  rewrite !orb_true_iff, !eqb_eq. tauto.
Qed.

Lemma wages_column_test (c : label) :
  is_wage_col label_str c = true <-> wages_column c.
Proof.
  unfold is_wage_col, wages_column, column_name, Wages.norm. cbv zeta.
  rewrite orb_true_iff, andb_true_iff, !contains_spec, eqb_eq. tauto.
Qed.

Lemma qualifying_test (df : @Wages.table label body) :
  qualifies label_str df = true <-> qualifying df.
Proof.
  unfold qualifies, qualifying.
  rewrite andb_true_iff, !existsb_exists.
  split; intros [(c & Hc & H1) (w & Hw & H2)]; (split; [exists c | exists w]);
    (split; [assumption |]);
    first [apply club_column_test; assumption
          | apply wages_column_test; assumption].
Qed.

Lemma first_that_test {A : Type} (p : A -> bool) (P : A -> Prop)
    (l : list A) (x : A) :
  (forall y, p y = true <-> P y) ->
  first_such p l x <-> first_that P l x.
Proof.
  intros H. unfold first_such, first_that.
  assert (Hn : forall before,
             Forall (fun y => p y = false) before
             <-> Forall (fun y => ~ P y) before).
  { intros before. apply Forall_iff. intros y. rewrite <- H.
    destruct (p y); split; congruence. }
  split; intros (before & after & Hl & Hb & Hx); exists before, after;
    (split; [exact Hl |]); (split; [apply Hn, Hb | apply H, Hx]).
Qed.

Lemma none_that_test {A : Type} (p : A -> bool) (P : A -> Prop) (l : list A) :
  (forall y, p y = true <-> P y) ->
  Forall (fun y => p y = false) l <-> Forall (fun y => ~ P y) l.
Proof.
  intros H. apply Forall_iff. intros y. rewrite <- H.
  destruct (p y); split; congruence.
Qed.

End WagesTableWords.

(** A page of three tables and variations of it.  The first table has
    no club column; the second has one, written in capitals with white
    space around, and three columns for the annual wages, the first in
    mixed case; the third has both columns as well. *)
Definition no_club_table : @Wages.table pystr nat :=
  {| Wages.columns := [str "Rk"; str "Annual Wages"]; Wages.rows := 1%nat |}.

Definition squad_table : @Wages.table pystr nat :=
  {| Wages.columns := [str "Rk"; str "  SQUAD "; str "Weekly Wages";
                       str "ANNUAL Wages"; str "Est. annual wage bill";
                       str "annual_wages"];
     Wages.rows := 2%nat |}.

Definition team_table : @Wages.table pystr nat :=
  {| Wages.columns := [str "Team"; str "annual_wages"]; Wages.rows := 3%nat |}.

Definition weekly_only_table : @Wages.table pystr nat :=
  {| Wages.columns := [str "Club"; str "Weekly Wages"; str "Annual"];
     Wages.rows := 4%nat |}.

(** C6.  [find_wages_table] returns the first table of the list that has a
    column named "squad", "club" or "team" (in whatever case, white space
    around the name aside) and a column whose name contains both "annual"
    and "wage" or is "annual wages", together with the first such wages
    column of that table; it raises an error, the one of its last lines,
    exactly when no table of the list has both.  On the page above the
    second table is returned with its column "ANNUAL Wages". *)
Theorem find_wages_table_first_match :
  (forall (label body : Type) (label_str : label -> pystr)
          (df_list : list (@Wages.table label body)),
     (forall df c,
        Wages.find_wages_table label_str df_list = Ok (df, c)
        <-> first_that (qualifying label_str) df_list df
            /\ first_that (wages_column label_str) (Wages.columns df) c)
     /\ ((exists e, Wages.find_wages_table label_str df_list = Raise e)
         <-> Forall (fun df => ~ qualifying label_str df) df_list)
     /\ (Wages.find_wages_table label_str df_list = Raise Wages.no_wages_table
         <-> Forall (fun df => ~ qualifying label_str df) df_list))
  /\ Wages.find_wages_table id [no_club_table; squad_table; team_table]
     = Ok (squad_table, str "ANNUAL Wages")
  /\ Wages.find_wages_table id [no_club_table; weekly_only_table; team_table]
     = Ok (team_table, str "annual_wages")
  /\ Wages.find_wages_table id [no_club_table; weekly_only_table]
     = Raise Wages.no_wages_table
  /\ Wages.find_wages_table id ([] : list (@Wages.table pystr nat))
     = Raise Wages.no_wages_table.
Proof.
  split; [|repeat split; reflexivity].
  intros label body label_str df_list.
  destruct (find_wages_table_first_such label_str df_list) as (H1 & H2 & H3).
  pose proof (none_that_test (qualifies label_str) (qualifying label_str)
                df_list (qualifying_test label_str)) as Hn.
  split; [|split].
  - intros df c. rewrite H1.
    rewrite (first_that_test (qualifies label_str) (qualifying label_str)
               df_list df (qualifying_test label_str)).
    rewrite (first_that_test (is_wage_col label_str) (wages_column label_str)
               (Wages.columns df) c (wages_column_test label_str)).
    reflexivity.
  - rewrite H2. exact Hn.
  - rewrite H3. exact Hn.
Qed.

(** The second table of the page is the first that qualifies, and its
    fourth column the first for the annual wages. *)
Lemma find_wages_table_first_match_witness :
  Wages.find_wages_table id [no_club_table; squad_table; team_table]
  = Ok (squad_table, str "ANNUAL Wages").
Proof.
  apply (proj1 (proj1 find_wages_table_first_match pystr nat id
                  [no_club_table; squad_table; team_table])
           squad_table (str "ANNUAL Wages")).
  split.
  - exists [no_club_table], [team_table]. split; [reflexivity |].
    split.
    + constructor; [|constructor]. intros Hq.
      apply (qualifying_test id) in Hq. vm_compute in Hq. discriminate.
    + apply (qualifying_test id). reflexivity.
  - exists [str "Rk"; str "  SQUAD "; str "Weekly Wages"],
           [str "Est. annual wage bill"; str "annual_wages"].
    split; [reflexivity |]. split.
    + repeat constructor; intros Hw; apply (wages_column_test id) in Hw;
        vm_compute in Hw; discriminate.
    + apply (wages_column_test id). reflexivity.
Defined.

(** ** Currency strings *)

Lemma digit_in_range (zs : list N) (c : N) (d : Z) :
  digit_in zs c = Some d -> exists z, In z zs /\ (z <= c < z + 10)%N.
Proof.
  induction zs as [|z zs IH]; simpl; [discriminate |].
  destruct ((z <=? c)%N && (c <? z + 10)%N) eqn:H.
  - intros _. exists z. split; [auto |].
    apply andb_true_iff in H as [H1 H2].
    apply N.leb_le in H1. apply N.ltb_lt in H2. lia.
  - intros Hd. destruct (IH Hd) as (z' & Hin & Hz). exists z'. auto.
Qed.

(** A test that holds of the ten characters of every run of digits holds of
    every digit. *)
Definition holds_of_digits (p : N -> bool) : bool :=
  forallb
    (fun z => forallb (fun k => p (z + N.of_nat k)%N) (seq 0 10))
    digit_zeros.

Lemma digit_cases (p : N -> bool) (c : N) :
  holds_of_digits p = true -> is_digit c = true -> p c = true.
Proof.
  unfold holds_of_digits, is_digit, digit_value. intros Hp Hc.
  destruct (digit_in digit_zeros c) as [d|] eqn:Hd; [|discriminate].
  apply digit_in_range in Hd as (z & Hin & Hz).
  rewrite forallb_forall in Hp. specialize (Hp z Hin).
  rewrite forallb_forall in Hp. specialize (Hp (N.to_nat (c - z))).
  replace (z + N.of_nat (N.to_nat (c - z)))%N with c in Hp by lia.
  apply Hp. apply in_seq. lia.
Qed.

Lemma digit_not_space (c : N) : is_digit c = true -> is_space c = false.
Proof.
  intros H. apply negb_true_iff.
  apply (digit_cases (fun c => negb (is_space c))); [reflexivity | exact H].
Qed.

Lemma digit_not_mark (c : N) :
  is_digit c = true ->
  c <> point /\ c <> comma /\ c <> pound /\ c <> 109%N /\ c <> 77%N.
Proof.
  intros H.
  assert (Hp : negb ((c =? point) || (c =? comma) || (c =? pound)
                     || (c =? 109) || (c =? 77))%N = true).
  { apply (digit_cases
             (fun c => negb ((c =? point) || (c =? comma) || (c =? pound)
                             || (c =? 109) || (c =? 77))%N));
      [reflexivity | exact H]. }
  apply negb_true_iff in Hp. rewrite !orb_false_iff in Hp.
  rewrite !N.eqb_neq in Hp. tauto.
Qed.

Lemma digit_lower (c : N) : is_digit c = true -> lower_char c = [c].
Proof.
  intros H.
  assert (Hp : negb ((65 <=? c) && (c <=? 90) || (c =? 304) || (c =? 8490))%N
               = true).
  { apply (digit_cases
             (fun c => negb ((65 <=? c) && (c <=? 90) || (c =? 304)
                             || (c =? 8490))%N));
      [reflexivity | exact H]. }
  apply negb_true_iff in Hp. rewrite !orb_false_iff in Hp.
  destruct Hp as [[H1 H2] H3]. unfold lower_char. rewrite H1, H2, H3.
  reflexivity.
Qed.

(** *** Runs of a character class *)

Definition all_in (p : N -> bool) (g : pystr) : Prop :=
  Forall (fun c => p c = true) g.

(** The text [r] does not go on with a character of the class [p]. *)
Definition stops (p : N -> bool) (r : pystr) : Prop :=
  match r with
  | [] => True
  | c :: _ => p c = false
  end.

Lemma span_sound (p : N -> bool) (s g r : pystr) :
  Re.span p s = (g, r) -> s = g ++ r /\ all_in p g /\ stops p r.
Proof.
  revert g r. induction s as [|c s IH]; intros g r; simpl.
  - intros [= <- <-]. repeat split. constructor.
  - destruct (p c) eqn:Hc.
    + destruct (Re.span p s) as [g' r'] eqn:Hs. intros [= <- <-].
      destruct (IH g' r' eq_refl) as (-> & Hg & Hr).
      repeat split; [constructor; assumption | exact Hr].
    + intros [= <- <-]. repeat split; [constructor | exact Hc].
Qed.

Lemma span_complete (p : N -> bool) (g r : pystr) :
  all_in p g -> stops p r -> Re.span p (g ++ r) = (g, r).
Proof.
  intros Hg Hr. induction Hg as [|c g Hc Hg IH]; simpl.
  - destruct r as [|c r]; simpl in *; [reflexivity |]. rewrite Hr. reflexivity.
  - rewrite Hc, IH. reflexivity.
Qed.

(** *** Decimal numerals *)

(** A whole part and, possibly, a fractional part: runs of digits, neither
    of them empty. *)
Definition decimal_numeral (w : pystr) (f : option pystr) : Prop :=
  w <> [] /\ all_digits w
  /\ match f with
     | Some f => f <> [] /\ all_digits f
     | None => True
     end.

(** The text of the numeral: [w] or [w.f]. *)
Definition numeral_text (w : pystr) (f : option pystr) : pystr :=
  w ++ match f with
       | Some f => point :: f
       | None => []
       end.

(** The text [r] goes on neither with a digit nor with a point. *)
Definition stops_numeral (r : pystr) : Prop :=
  stops (fun c => is_digit c || (c =? point)%N) r.

Lemma numeral_sound (s w r : pystr) (f : option pystr) :
  Re.numeral s = Some (w, f, r) ->
  decimal_numeral w f /\ s = numeral_text w f ++ r.
Proof.
  unfold Re.numeral, decimal_numeral, numeral_text.
  destruct (Re.span is_digit s) as [w0 r0] eqn:Hw.
  apply span_sound in Hw as (-> & Hw & Hr0).
  destruct w0 as [|d w0]; [discriminate |].
  destruct r0 as [|c r1].
  - intros [= <- <- <-]. rewrite !app_nil_r. repeat split; [discriminate | exact Hw].
  - destruct (N.eqb_spec c point) as [-> | Hc].
    + destruct (Re.span is_digit r1) as [f0 r2] eqn:Hf.
      apply span_sound in Hf as (-> & Hf & Hr2).
      destruct f0 as [|e f0].
      * intros [= <- <- <-]. rewrite app_nil_r.
        repeat split; [discriminate | exact Hw].
      * intros [= <- <- <-]. rewrite <- app_assoc.
        repeat split; [discriminate | exact Hw | discriminate | exact Hf].
    + intros [= <- <- <-]. rewrite app_nil_r.
      repeat split; [discriminate | exact Hw].
Qed.

Lemma numeral_complete (w r : pystr) (f : option pystr) :
  decimal_numeral w f -> stops_numeral r ->
  Re.numeral (numeral_text w f ++ r) = Some (w, f, r).
Proof.
  unfold decimal_numeral, numeral_text, stops_numeral, Re.numeral.
  intros (Hne & Hw & Hf) Hr. rewrite <- app_assoc.
  destruct f as [f|].
  - destruct Hf as [Hfne Hf]. simpl.
    rewrite (span_complete is_digit w (point :: f ++ r) Hw) by reflexivity.
    destruct w as [|d w]; [congruence |].
    rewrite N.eqb_refl.
    rewrite (span_complete is_digit f r Hf).
    + destruct f; [congruence | reflexivity].
    + destruct r as [|c r]; [exact I |]. simpl in *.
      apply orb_false_iff in Hr as [Hr _]. exact Hr.
  - simpl. rewrite (span_complete is_digit w r Hw).
    + destruct w as [|d w]; [congruence |].
      destruct r as [|c r]; [reflexivity |]. simpl in Hr.
      apply orb_false_iff in Hr as [_ Hr]. rewrite Hr. reflexivity.
    + destruct r as [|c r]; [exact I |]. simpl in *.
      apply orb_false_iff in Hr as [Hr _]. exact Hr.
Qed.

(** *** The two forms of an amount *)

Definition is_m (c : N) : Prop := c = 109%N \/ c = 77%N.

(** A numeral, white space if any, and a final "m" or "M". *)
Definition million_form (t w : pystr) (f : option pystr) : Prop :=
  decimal_numeral w f
  /\ exists ws c,
       all_in is_space ws /\ is_m c /\ t = numeral_text w f ++ ws ++ [c].

(** A numeral and nothing else. *)
Definition plain_form (t w : pystr) (f : option pystr) : Prop :=
  decimal_numeral w f /\ t = numeral_text w f.

Lemma is_m_test (c : N) : ((c =? 109) || (c =? 77))%N = true <-> is_m c.
Proof. unfold is_m. rewrite orb_true_iff, !N.eqb_eq. tauto. Qed.

Lemma stops_numeral_tail (ws : pystr) (c : N) :
  all_in is_space ws -> is_m c -> stops_numeral (ws ++ [c]).
Proof.
  intros Hws Hc. unfold stops_numeral.
  destruct Hws as [|d ws Hd _]; simpl.
  - destruct Hc as [-> | ->]; reflexivity.
  - apply orb_false_iff. split.
    + destruct (is_digit d) eqn:H; [|reflexivity].
      apply digit_not_space in H. congruence.
    + apply N.eqb_neq. intros ->. discriminate.
Qed.

Lemma number_m_complete (t w : pystr) (f : option pystr) :
  million_form t w f -> Re.number_m t = Some (w, f).
Proof.
  intros (Hn & ws & c & Hws & Hc & ->). unfold Re.number_m.
  rewrite (numeral_complete w (ws ++ [c]) f Hn (stops_numeral_tail ws c Hws Hc)).
  rewrite (span_complete is_space ws [c] Hws).
  - simpl. rewrite (proj2 (is_m_test c) Hc). reflexivity.
  - destruct Hc as [-> | ->]; reflexivity.
Qed.

Lemma number_m_sound (t w : pystr) (f : option pystr) :
  Re.number_m t = Some (w, f) ->
  million_form t w f \/ exists t', t = t' ++ [newline].
Proof.
  unfold Re.number_m.
  destruct (Re.numeral t) as [[[w0 f0] r]|] eqn:Hn; [|discriminate].
  apply numeral_sound in Hn as (Hn & ->).
  destruct (Re.span is_space r) as [ws r'] eqn:Hs. simpl.
  apply span_sound in Hs as (-> & Hws & _).
  destruct r' as [|c tail]; [discriminate |].
  destruct ((c =? 109) || (c =? 77))%N eqn:Hc; [|discriminate].
  apply is_m_test in Hc.
  destruct (Re.at_end tail) eqn:He; [|discriminate].
  intros [= <- <-]. apply at_end_spec in He as [-> | ->].
  - left. split; [exact Hn |]. exists ws, c. auto.
  - right. exists (numeral_text w0 f0 ++ ws ++ [c]).
    rewrite <- !app_assoc. reflexivity.
Qed.

Lemma plain_number_complete (t w : pystr) (f : option pystr) :
  plain_form t w f -> Re.plain_number t = Some (w, f).
Proof.
  intros (Hn & ->). unfold Re.plain_number.
  pose proof (numeral_complete w [] f Hn I) as H.
  rewrite app_nil_r in H. rewrite H. reflexivity.
Qed.

Lemma plain_number_sound (t w : pystr) (f : option pystr) :
  Re.plain_number t = Some (w, f) ->
  plain_form t w f \/ exists t', t = t' ++ [newline].
Proof.
  unfold Re.plain_number.
  destruct (Re.numeral t) as [[[w0 f0] r]|] eqn:Hn; [|discriminate].
  apply numeral_sound in Hn as (Hn & ->).
  destruct (Re.at_end r) eqn:He; [|discriminate].
  intros [= <- <-]. apply at_end_spec in He as [-> | ->].
  - left. rewrite app_nil_r. split; [exact Hn | reflexivity].
  - right. eauto.
Qed.

(** A plain numeral is not read as an amount in millions. *)
Lemma plain_not_million (t w : pystr) (f : option pystr) :
  plain_form t w f -> Re.number_m t = None.
Proof.
  intros (Hn & ->). unfold Re.number_m.
  pose proof (numeral_complete w [] f Hn I) as H.
  rewrite app_nil_r in H. rewrite H. reflexivity.
Qed.

(** *** Stripping *)

Lemma lstrip_stops (s : pystr) : stops is_space (lstrip s).
Proof.
  induction s as [|c s IH]; simpl; [exact I |].
  destruct (is_space c) eqn:Hc; [exact IH | exact Hc].
Qed.

Lemma strip_last (s t : pystr) (c : N) :
  strip s = t ++ [c] -> is_space c = false.
Proof.
  unfold strip, rstrip. intros H.
  pose proof (lstrip_stops (rev (lstrip s))) as Hs.
  apply (f_equal (@rev N)) in H. rewrite rev_involutive, rev_app_distr in H.
  simpl in H. rewrite H in Hs. exact Hs.
Qed.

Lemma strip_no_final_newline (s t : pystr) : strip s <> t ++ [newline].
Proof. intros H. apply strip_last in H. discriminate. Qed.

Lemma In_lstrip (c : N) (s : pystr) : In c (lstrip s) -> In c s.
Proof.
  induction s as [|d s IH]; simpl; [tauto |].
  destruct (is_space d); simpl; tauto.
Qed.

Lemma In_strip (c : N) (s : pystr) : In c (strip s) -> In c s.
Proof.
  unfold strip, rstrip. intros H.
  apply in_rev, In_lstrip, in_rev in H. apply In_lstrip, H.
Qed.

Lemma In_replace_nil (c old : N) (s : pystr) :
  In c (replace old [] s) -> In c s.
Proof.
  unfold replace. induction s as [|d s IH]; simpl; [tauto |].
  destruct (d =? old)%N; simpl; tauto.
Qed.

Lemma In_clean (c : N) (s : pystr) : In c (Wages.clean s) -> In c s.
Proof.
  unfold Wages.clean. intros H.
  apply In_strip, In_replace_nil, In_replace_nil in H. exact H.
Qed.

Lemma In_lower_digit (d : N) (s : pystr) :
  is_digit d = true -> In d s -> In d (lower s).
Proof.
  intros Hd Hin. unfold lower. apply in_flat_map. exists d.
  split; [exact Hin |]. rewrite (digit_lower d Hd). left. reflexivity.
Qed.

(** A text whose cleaned form starts a numeral is none of the texts the
    parser gives up on at once. *)
Lemma numeral_not_given_up (s w : pystr) (f : option pystr) (r : pystr) :
  decimal_numeral w f -> Wages.clean s = numeral_text w f ++ r ->
  eqb s [] || eqb (lower s) (str "nan") || eqb (lower s) (str "none") = false.
Proof.
  intros (Hne & Hw & _) Ht.
  destruct w as [|d w]; [congruence |].
  inversion Hw as [|? ? Hd _]; subst.
  assert (Hin : In d s).
  { apply In_clean. rewrite Ht. left. reflexivity. }
  pose proof (In_lower_digit d s Hd Hin) as Hlow.
  rewrite !orb_false_iff. repeat split; apply eqb_neq; intros Heq.
  - rewrite Heq in Hin. destruct Hin.
  - rewrite Heq in Hlow. simpl in Hlow.
    repeat (destruct Hlow as [<- | Hlow]; [discriminate Hd |]). exact Hlow.
  - rewrite Heq in Hlow. simpl in Hlow.
    repeat (destruct Hlow as [<- | Hlow]; [discriminate Hd |]). exact Hlow.
Qed.

Lemma clean_no_final_newline (s t : pystr) : Wages.clean s <> t ++ [newline].
Proof. unfold Wages.clean. apply strip_no_final_newline. Qed.

(** C3.  [parse_money_to_gbp] works on the text of the value without its
    pound signs, commas and surrounding white space.  A numeral followed by
    "m" or "M" gives the float of the numeral times 1,000,000; a numeral
    alone gives its float; every other text, and a missing value, gives
    [None].  So "£113.9m" and "£113,900,000" both give 113,900,000, and
    "N/A" and the empty text give [None]. *)
Theorem parse_money_to_gbp_forms :
  (forall value w f,
     Wages.isna value = false ->
     million_form (Wages.clean (strip (Wages.to_str value))) w f ->
     Wages.parse_money_to_gbp value
     = Some (Float64.mul (Float64.of_numeral w f) (Float64.of_int 1000000)))
  /\ (forall value w f,
        Wages.isna value = false ->
        plain_form (Wages.clean (strip (Wages.to_str value))) w f ->
        Wages.parse_money_to_gbp value = Some (Float64.of_numeral w f))
  /\ (forall value,
        (forall w f,
           ~ million_form (Wages.clean (strip (Wages.to_str value))) w f) ->
        (forall w f,
           ~ plain_form (Wages.clean (strip (Wages.to_str value))) w f) ->
        Wages.parse_money_to_gbp value = None)
  /\ (forall value, Wages.isna value = true ->
                    Wages.parse_money_to_gbp value = None)
  /\ Wages.parse_money_to_gbp (Wages.VStr (pound :: str "113.9m"))
     = Some (Float64.of_int 113900000)
  /\ Wages.parse_money_to_gbp (Wages.VStr (pound :: str "113,900,000"))
     = Some (Float64.of_int 113900000)
  /\ Wages.parse_money_to_gbp (Wages.VStr (str "N/A")) = None
  /\ Wages.parse_money_to_gbp (Wages.VStr []) = None.
Proof.
  split; [|split; [|split; [|split]]].
  - intros value w f Hna Hm. unfold Wages.parse_money_to_gbp. rewrite Hna.
    destruct Hm as (Hn & ws & c & Hws & Hc & Ht).
    rewrite (numeral_not_given_up _ w f (ws ++ [c]) Hn Ht).
    rewrite (number_m_complete _ w f); [reflexivity |].
    split; [exact Hn |]. exists ws, c. auto.
  - intros value w f Hna Hp. unfold Wages.parse_money_to_gbp. rewrite Hna.
    pose proof Hp as (Hn & Ht).
    rewrite (numeral_not_given_up _ w f [] Hn) by (rewrite app_nil_r; exact Ht).
    rewrite (plain_not_million _ w f Hp), (plain_number_complete _ w f Hp).
    reflexivity.
  - intros value Hm Hp. unfold Wages.parse_money_to_gbp.
    destruct (Wages.isna value); [reflexivity |].
    match goal with |- (if ?b then _ else _) = _ => destruct b end;
      [reflexivity |].
    destruct (Re.number_m _) as [[w f]|] eqn:Hnm.
    + exfalso. apply number_m_sound in Hnm as [Hnm | [t' Ht']].
      * exact (Hm w f Hnm).
      * exact (clean_no_final_newline _ _ Ht').
    + destruct (Re.plain_number _) as [[w f]|] eqn:Hpn; [|reflexivity].
      exfalso. apply plain_number_sound in Hpn as [Hpn | [t' Ht']].
      * exact (Hp w f Hpn).
      * exact (clean_no_final_newline _ _ Ht').
  - intros value Hna. unfold Wages.parse_money_to_gbp. rewrite Hna. reflexivity.
  - repeat split; vm_compute; reflexivity.
Qed.

Lemma parse_money_to_gbp_forms_witness :
  Wages.parse_money_to_gbp (Wages.VStr (pound :: str " 2.5 M"))
  = Some (Float64.of_int 2500000).
Proof.
  rewrite (proj1 parse_money_to_gbp_forms
             (Wages.VStr (pound :: str " 2.5 M")) (str "2") (Some (str "5"))).
  - vm_compute. reflexivity.
  - reflexivity.
  - split.
    + split; [discriminate |]. split; [repeat constructor |].
      split; [discriminate | repeat constructor].
    + exists [32%N], 77%N. split; [repeat constructor |].
      split; [right; reflexivity | reflexivity].
Defined.

(** ** Numeric columns *)

Section CoercionFacts.

Variable text_to_number : pystr -> option Float64.float.

Abbreviation to_numeric := (to_numeric text_to_number).
Abbreviation coerce_promoted := (coerce_promoted text_to_number).
Abbreviation analysis_ready := (analysis_ready text_to_number).
Abbreviation preprocess := (preprocess text_to_number).
Abbreviation coerce_row := (coerce_row text_to_number).
Abbreviation numeric_row := (numeric_row text_to_number).

(** A cell holds no value: it is empty, or its text cannot be read as a
    number. *)
Definition no_value (c : cell) : Prop :=
  c = Missing \/ exists s, c = Text s /\ text_to_number s = None.

(** A cell reads as an infinity. *)
Definition infinite (c : cell) : Prop :=
  exists s, to_numeric c = S754_infinity s.

Lemma no_value_nan (c : cell) : no_value c -> to_numeric c = S754_nan.
Proof.
  intros [-> | (s & -> & H)]; simpl; [reflexivity |]. rewrite H. reflexivity.
Qed.

Lemma astype_int_range (x : Float64.float) (n : Z) :
  astype_int x = Ok n -> int64_min <= n <= int64_max.
Proof.
  unfold astype_int. destruct (Float64.trunc x) as [t|]; [|discriminate].
  destruct ((int64_min <=? t) && (t <=? int64_max)) eqn:H; intros [= <-].
  - apply andb_true_iff in H as [H1 H2]. lia.
  - unfold int64_min, int64_max. lia.
Qed.

Lemma astype_int_finite (x : Float64.float) :
  (forall s, x <> S754_infinity s) -> x <> S754_nan ->
  exists n, astype_int x = Ok n.
Proof.
  intros Hinf Hnan. unfold astype_int.
  destruct x as [s | s | | s m e]; simpl.
  - eexists. reflexivity.
  - exfalso. exact (Hinf s eq_refl).
  - congruence.
  - match goal with |- context [if ?b then _ else _] => destruct b end;
      eexists; reflexivity.
Qed.

Lemma astype_int_column_lookup (xs : list Float64.float) (ns : list Z) :
  astype_int_column xs = Ok ns ->
  List.length ns = List.length xs
  /\ forall i x, xs !! i = Some x ->
       exists n, ns !! i = Some n /\ astype_int x = Ok n.
Proof.
  revert ns. induction xs as [|x xs IH]; intros ns; simpl.
  - intros [= <-]. split; [reflexivity |]. intros i x H. discriminate.
  - destruct (astype_int x) as [n|e] eqn:Hx; [|discriminate].
    destruct (astype_int_column xs) as [ns'|e] eqn:Hxs; [|discriminate].
    intros [= <-]. destruct (IH ns' eq_refl) as [Hlen Hnth].
    split; [simpl; congruence |].
    intros [|i] y Hy; simpl in *.
    + injection Hy as <-. exists n. auto.
    + apply Hnth, Hy.
Qed.

Lemma astype_int_column_total (xs : list Float64.float) :
  Forall (fun x => exists n, astype_int x = Ok n) xs ->
  exists ns, astype_int_column xs = Ok ns.
Proof.
  induction 1 as [|x xs [n Hn] _ [ns Hns]]; simpl.
  - eexists. reflexivity.
  - rewrite Hn, Hns. eexists. reflexivity.
Qed.

Lemma coerce_promoted_lookup (col : list cell) (ps : list Z) :
  coerce_promoted col = Ok ps ->
  List.length ps = List.length col
  /\ forall i c, col !! i = Some c ->
       exists p, ps !! i = Some p
                 /\ astype_int (fillna (Float64.of_int 0) (to_numeric c)) = Ok p.
Proof.
  unfold Numeric.coerce_promoted. intros H.
  apply astype_int_column_lookup in H as [Hlen Hnth].
  rewrite length_map in Hlen. split; [exact Hlen |].
  intros i c Hc. apply Hnth. rewrite list_lookup_fmap, Hc. reflexivity.
Qed.

Lemma coerce_promoted_total (col : list cell) :
  Forall (fun c => ~ infinite c) col -> exists ps, coerce_promoted col = Ok ps.
Proof.
  intros H. apply astype_int_column_total.
  apply Forall_map. eapply Forall_impl; [exact H |].
  intros c Hc. simpl in Hc. unfold fillna.
  destruct (Float64.is_nan (to_numeric c)) eqn:Hn.
  - eexists. reflexivity.
  - apply astype_int_finite.
    + intros s Hs. apply Hc. exists s. exact Hs.
    + intros Hs. rewrite Hs in Hn. discriminate.
Qed.

Lemma coerce_promoted_default (col : list cell) (ps : list Z) :
  coerce_promoted col = Ok ps ->
  forall i c, col !! i = Some c -> no_value c -> ps !! i = Some 0.
Proof.
  intros H i c Hc Hv. apply coerce_promoted_lookup in H as [_ H].
  destruct (H i c Hc) as (p & Hp & Hcast).
  rewrite (no_value_nan c Hv) in Hcast. injection Hcast as <-. exact Hp.
Qed.

Lemma promoted_cells_lookup (df : list raw_row) (ps : list Z) :
  coerce_promoted (List.map r_promoted df) = Ok ps ->
  List.length ps = List.length df
  /\ forall i r, df !! i = Some r ->
       exists p, ps !! i = Some p
                 /\ int64_min <= p <= int64_max
                 /\ (no_value (r_promoted r) -> p = 0).
Proof.
  intros H. pose proof (coerce_promoted_lookup _ _ H) as [Hlen Hnth].
  rewrite length_map in Hlen. split; [exact Hlen |].
  intros i r Hr.
  destruct (Hnth i (r_promoted r)) as (p & Hp & Hcast).
  { rewrite list_lookup_fmap, Hr. reflexivity. }
  exists p. split; [exact Hp |]. split; [eapply astype_int_range, Hcast |].
  intros Hv. rewrite (no_value_nan _ Hv) in Hcast. injection Hcast as <-.
  reflexivity.
Qed.


(** C7, as amended.  Before any model is fitted the regression script
    drops the rows that miss the points total or the wage bill and keeps
    the others, and where the transfer spend of a remaining row was missing
    it is zero.  So no row of the table misses the dependent variable of M1,
    M2 or M3, the wage bill or the transfer spend.  (A row that misses the
    league position, the dependent variable of M4, is not dropped.) *)
Theorem preprocess_rows (df : list raw_row) (rows : list row) :
  preprocess df = Ok rows ->
  (forall row, In row rows ->
     (forall m, m <> M4 -> Float64.is_nan (dependent m row) = false)
     /\ Float64.is_nan (total_wage_bill row) = false
     /\ Float64.is_nan (gross_transfer_spend row) = false
     /\ exists r,
          In r df /\ row = coerce_row r (promoted row)
          /\ (Float64.is_nan (to_numeric (r_gross_transfer_spend r)) = true ->
              gross_transfer_spend row = Float64.of_int 0))
  /\ (forall r, In r df ->
        Float64.is_nan (to_numeric (r_points_total r)) = false ->
        Float64.is_nan (to_numeric (r_total_wage_bill r)) = false ->
        exists p, In (coerce_row r p) rows).
Proof.
  unfold Numeric.preprocess.
  destruct (coerce_promoted (List.map r_promoted df)) as [ps|e] eqn:Hps;
    [|discriminate].
  intros [= <-]. destruct (promoted_cells_lookup df ps Hps) as [Hlen Hnth].
  split.
  - intros row Hin. apply filter_In in Hin as [Hin Hc].
    apply andb_true_iff in Hc as [Hpt Hw]. apply negb_true_iff in Hpt, Hw.
    apply list_elem_of_In, list_elem_of_lookup in Hin as [i Hi].
    apply lookup_zip_with_Some in Hi as (r & p & -> & Hr & Hp).
    split; [|split; [|split]].
    + intros [| | |] Hm; simpl; [exact Hpt .. | congruence].
    + exact Hw.
    + simpl. unfold fillna.
      destruct (Float64.is_nan (to_numeric (r_gross_transfer_spend r))) eqn:H;
        [reflexivity | exact H].
    + exists r. split; [|split].
      * apply list_elem_of_In, list_elem_of_lookup. eauto.
      * reflexivity.
      * simpl. unfold fillna. intros ->. reflexivity.
  - intros r Hin Hpt Hw.
    apply list_elem_of_In, list_elem_of_lookup in Hin as [i Hr].
    destruct (Hnth i r Hr) as (p & Hp & _).
    exists p. apply filter_In. split.
    + apply list_elem_of_In, list_elem_of_lookup. exists i.
      apply lookup_zip_with_Some. exists r, p. auto.
    + unfold complete. simpl. rewrite Hpt, Hw. reflexivity.
Qed.

End CoercionFacts.

(** A table with a row that misses the league position only, and a reading
    of texts that reads none. *)
Definition no_text : pystr -> option Float64.float := fun _ => None.

Definition row_without_position : raw_row :=
  {| r_points_total := Num (Float64.of_int 50);
     r_league_position := Missing;
     r_total_wage_bill := Num (Float64.of_int 100);
     r_gross_transfer_spend := Missing;
     r_promoted := Text (str "yes") |}.

Definition row_without_points : raw_row :=
  {| r_points_total := Missing;
     r_league_position := Num (Float64.of_int 3);
     r_total_wage_bill := Num (Float64.of_int 100);
     r_gross_transfer_spend := Num (Float64.of_int 20);
     r_promoted := Num (Float64.of_int 1) |}.

(** The row that misses the league position is in the table all four
    models are fitted on, M4 included: C7 does not hold of M4. *)
Lemma preprocess_keeps_row_without_position :
  preprocess no_text [row_without_position; row_without_points]
  = Ok [coerce_row no_text row_without_position 0]
  /\ Float64.is_nan
       (dependent M4 (coerce_row no_text row_without_position 0)) = true.
Proof. split; reflexivity. Qed.

Lemma preprocess_rows_witness :
  preprocess no_text [row_without_position; row_without_points]
  = Ok [coerce_row no_text row_without_position 0]
  /\ forall row,
       In row [coerce_row no_text row_without_position 0] ->
       Float64.is_nan (total_wage_bill row) = false
       /\ Float64.is_nan (gross_transfer_spend row) = false.
Proof.
  split; [reflexivity |].
  intros row Hin.
  destruct (proj1 (preprocess_rows no_text
                     [row_without_position; row_without_points]
                     [coerce_row no_text row_without_position 0] eq_refl)
              row Hin) as (_ & Hw & Hs & _).
  split; [exact Hw | exact Hs].
Defined.


(** ** The run over the seasons *)

Lemma path_join_prefix (outdir : pystr) :
  exists prefix, forall name, Wages.path_join outdir name = prefix ++ name.
Proof.
  unfold Wages.path_join. destruct (rev outdir) as [|c r].
  - exists []. reflexivity.
  - destruct (c =? 47)%N.
    + exists outdir. reflexivity.
    + exists (outdir ++ [47%N]). intros name. rewrite <- app_assoc. reflexivity.
Qed.

Lemma log_path_not_fail_path (outdir : pystr) :
  Wages.log_path outdir <> Wages.fail_path outdir.
Proof.
  unfold Wages.log_path, Wages.fail_path.
  destruct (path_join_prefix outdir) as [prefix H]. rewrite !H.
  intros Heq. apply app_inv_head in Heq. discriminate.
Qed.

Section RunFacts.

Variable Net : Type.
Variable fetch_fbref_wages_for_season :
  pystr -> Net -> result (list Wages.wage_row) * Net.
Variable m : Wages.machine Net.

Abbreviation world := (Wages.world Net).
Abbreviation try_season := (Wages.try_season Net fetch_fbref_wages_for_season m).
Abbreviation scrape_season := (Wages.scrape_season Net fetch_fbref_wages_for_season m).
Abbreviation scrape_all := (Wages.scrape_all Net fetch_fbref_wages_for_season m).
Abbreviation main := (Wages.main Net fetch_fbref_wages_for_season m).

Definition no_logs : Wages.logs := {| Wages.results := []; Wages.failures := [] |}.

(** The console prints every line it is given. *)
Definition prints_all : Prop :=
  forall line w, Wages.print_error Net m line w = None.

(** The outcome of a season is an entry for the run log or an entry for
    the failure list. *)
Definition outcome : Type := (pystr * Z * pystr) + (pystr * pystr).

(** The outcome of the season [s] in the world [w]: a failure with the
    message of the exception when fetching the season raises or its file
    cannot be written, the entry of the file otherwise. *)
Definition outcome_of (outdir s : pystr) (w : world) : outcome :=
  let '(r, n) := fetch_fbref_wages_for_season s (Wages.net Net w) in
  match r with
  | Raise e => inr (s, exn_str e)
  | Ok df =>
      match Wages.write_error Net m (Wages.wages_file outdir s)
              (Wages.WagesCsv df) (Wages.set_net Net n w) with
      | Some (e, _) => inr (s, exn_str e)
      | None => inl (s, Z.of_nat (List.length df), Wages.wages_file outdir s)
      end
  end.

Definition outcome_season (o : outcome) : pystr :=
  match o with
  | inl (s, _, _) => s
  | inr (s, _) => s
  end.

(** The outcomes of the seasons, one for each and in their order, in the
    successive worlds of the run. *)
Fixpoint outcomes (outdir : pystr) (seasons : list pystr) (w : world)
  : list outcome :=
  match seasons with
  | [] => []
  | s :: rest =>
      outcome_of outdir s w
      :: outcomes outdir rest (snd (scrape_season outdir s (no_logs, w)))
  end.

Definition successes (os : list outcome) : list (pystr * Z * pystr) :=
  omap (fun o => match o with inl x => Some x | inr _ => None end) os.

Definition failed (os : list outcome) : list (pystr * pystr) :=
  omap (fun o => match o with inl _ => None | inr y => Some y end) os.

Lemma outcomes_seasons (outdir : pystr) (seasons : list pystr) (w : world) :
  List.map outcome_season (outcomes outdir seasons w) = seasons.
Proof.
  revert w. induction seasons as [|s rest IH]; intros w; simpl; [reflexivity |].
  rewrite IH. f_equal. unfold outcome_of.
  destruct (fetch_fbref_wages_for_season s (Wages.net Net w)) as [[df|e] n];
    [|reflexivity].
  destruct (Wages.write_error Net m _ _ _) as [[e c]|]; reflexivity.
Qed.

Lemma successes_failed_length (os : list outcome) :
  (List.length (successes os) + List.length (failed os))%nat = List.length os.
Proof.
  induction os as [|[x|y] os IH]; simpl; [reflexivity | |];
    unfold successes, failed in *; simpl; lia.
Qed.

Lemma successes_cons (o : outcome) (os : list outcome) :
  successes (o :: os) = successes [o] ++ successes os.
Proof. destruct o; reflexivity. Qed.

Lemma failed_cons (o : outcome) (os : list outcome) :
  failed (o :: os) = failed [o] ++ failed os.
Proof. destruct o; reflexivity. Qed.

(** The world after a round does not depend on the two lists. *)
Lemma scrape_season_world (outdir s : pystr) (lg lg' : Wages.logs) (w : world) :
  snd (scrape_season outdir s (lg, w)) = snd (scrape_season outdir s (lg', w)).
Proof.
  unfold Wages.scrape_season, Wages.try_season.
  destruct (fetch_fbref_wages_for_season s (Wages.net Net w)) as [[df|e] n].
  - destruct (Wages.to_csv Net m _ _ _) as [[[]|e] w1].
    + destruct (Wages.print Net m _ w1) as [[[]|e] w2]; [reflexivity |].
      destruct (Wages.print Net m _ w2) as [[[]|e'] w3]; reflexivity.
    + destruct (Wages.print Net m _ w1) as [[[]|e'] w2]; reflexivity.
  - destruct (Wages.print Net m _ _) as [[[]|e'] w2]; reflexivity.
Qed.

Lemma print_prints (line : pystr) (w : world) :
  prints_all -> exists w', Wages.print Net m line w = (Ok tt, w').
Proof.
  intros Hp. unfold Wages.print. rewrite Hp. eauto.
Qed.

(** With a console that prints every line, a round adds the outcome of
    its season to one of the two lists. *)
Lemma scrape_season_step (outdir s : pystr) (lg : Wages.logs) (w : world) :
  prints_all ->
  exists w',
    scrape_season outdir s (lg, w)
    = (Ok {| Wages.results :=
               Wages.results lg ++ successes [outcome_of outdir s w];
             Wages.failures :=
               Wages.failures lg ++ failed [outcome_of outdir s w] |}, w').
Proof.
  intros Hp. unfold Wages.scrape_season, Wages.try_season, outcome_of.
  destruct (fetch_fbref_wages_for_season s (Wages.net Net w)) as [[df|e] n].
  - unfold Wages.to_csv.
    destruct (Wages.write_error Net m _ _ _) as [[e [cut|]]|].
    + destruct (print_prints (Wages.failed_line s e)
                  (Wages.set_files Net
                     (<[Wages.wages_file outdir s := cut]>
                        (Wages.files Net (Wages.set_net Net n w)))
                     (Wages.set_net Net n w)) Hp) as [w' ->].
      exists w'. simpl. rewrite app_nil_r. reflexivity.
    + destruct (print_prints (Wages.failed_line s e) (Wages.set_net Net n w) Hp)
        as [w' ->].
      exists w'. simpl. rewrite app_nil_r. reflexivity.
    + match goal with
      | |- context [Wages.print Net m ?l ?w0] =>
          destruct (print_prints l w0 Hp) as [w' ->]
      end.
      exists w'. simpl. rewrite app_nil_r. reflexivity.
  - destruct (print_prints (Wages.failed_line s e) (Wages.set_net Net n w) Hp)
      as [w' ->].
    exists w'. simpl. rewrite app_nil_r. reflexivity.
Qed.

Lemma scrape_all_logs (outdir : pystr) (seasons : list pystr)
  (lg : Wages.logs) (w : world) :
  prints_all ->
  exists w',
    scrape_all outdir seasons (lg, w)
    = (Ok {| Wages.results :=
               Wages.results lg ++ successes (outcomes outdir seasons w);
             Wages.failures :=
               Wages.failures lg ++ failed (outcomes outdir seasons w) |}, w').
Proof.
  intros Hp. revert lg w.
  induction seasons as [|s rest IH]; intros lg w.
  - exists w. simpl. rewrite !app_nil_r. destruct lg; reflexivity.
  - destruct (scrape_season_step outdir s lg w Hp) as [w1 H1].
    pose proof (scrape_season_world outdir s lg no_logs w) as Hw.
    rewrite H1 in Hw. simpl in Hw.
    cbn [Wages.scrape_all outcomes]. rewrite H1, <- Hw.
    destruct (IH {| Wages.results :=
                      Wages.results lg ++ successes [outcome_of outdir s w];
                    Wages.failures :=
                      Wages.failures lg ++ failed [outcome_of outdir s w] |} w1)
      as [w' H']. exists w'. rewrite H'. cbn [Wages.results Wages.failures].
    rewrite (successes_cons _ (outcomes outdir rest w1)).
    rewrite (failed_cons _ (outcomes outdir rest w1)).
    rewrite <- !app_assoc. reflexivity.
Qed.

(** The two reports are written when their two writes and the last line
    go through. *)
Lemma write_reports_written (outdir : pystr) (lg : Wages.logs) (w : world) :
  prints_all ->
  (forall f w0, Wages.write_error Net m (Wages.log_path outdir) f w0 = None) ->
  (forall f w0, Wages.write_error Net m (Wages.fail_path outdir) f w0 = None) ->
  exists w',
    Wages.write_reports Net m outdir lg w = (Ok tt, w')
    /\ Wages.files Net w' !! Wages.log_path outdir
       = Some (Wages.RunLog (Wages.results lg))
    /\ Wages.files Net w' !! Wages.fail_path outdir
       = Some (Wages.Failures (Wages.failures lg)).
Proof.
  intros Hp Hl Hf. unfold Wages.write_reports, Wages.to_csv.
  rewrite Hl, Hf. unfold Wages.print. rewrite Hp.
  eexists. split; [reflexivity |]. simpl. split.
  - rewrite lookup_insert_ne by (apply not_eq_sym, log_path_not_fail_path).
    apply lookup_insert_eq.
  - apply lookup_insert_eq.
Qed.

(** C9.  On a console that prints every line, and whatever the site
    answers and whichever files can be written, the loop gives every
    season of its list one outcome, in order: an entry (season, number of
    rows, file) of the run log when the season was fetched and its file
    written, an entry (season, message) of the failure list when fetching
    it or writing its file raised; the seasons after a failure are
    processed like the others.  When moreover the output directory can be
    made and the two reports written, the run ends normally, having
    written the run log and the failure report. *)
Theorem scrape_all_one_outcome_each (outdir : pystr) (seasons : list pystr)
  (w : world) :
  prints_all ->
  let os := outcomes outdir seasons w in
  exists lg w1,
    scrape_all outdir seasons (no_logs, w) = (Ok lg, w1)
    /\ List.map outcome_season os = seasons
    /\ Wages.results lg = successes os
    /\ Wages.failures lg = failed os
    /\ (List.length (Wages.results lg) + List.length (Wages.failures lg))%nat
       = List.length seasons
    /\ forall start_season end_season,
         Wages.make_season_list start_season end_season = Ok seasons ->
         Wages.makedirs_error Net m outdir w = None ->
         (forall f w0,
            Wages.write_error Net m (Wages.log_path outdir) f w0 = None) ->
         (forall f w0,
            Wages.write_error Net m (Wages.fail_path outdir) f w0 = None) ->
         exists w',
           main start_season end_season outdir w = (Ok tt, w')
           /\ Wages.files Net w' !! Wages.log_path outdir
              = Some (Wages.RunLog (Wages.results lg))
           /\ Wages.files Net w' !! Wages.fail_path outdir
              = Some (Wages.Failures (Wages.failures lg)).
Proof.
  intros Hp os.
  destruct (scrape_all_logs outdir seasons no_logs w Hp) as [w1 Hrun].
  fold os in Hrun. simpl in Hrun.
  eexists. exists w1. split; [exact Hrun |].
  split; [apply outcomes_seasons |]. split; [reflexivity |].
  split; [reflexivity |]. split.
  - cbn [Wages.results Wages.failures].
    rewrite successes_failed_length.
    unfold os. rewrite <- (outcomes_seasons outdir seasons w) at 2.
    rewrite length_map. reflexivity.
  - intros start_season end_season Hs Hmk Hl Hf.
    unfold Wages.main, Wages.makedirs. rewrite Hmk, Hs.
    change (Wages.scrape_all Net fetch_fbref_wages_for_season m outdir seasons
              ({| Wages.results := []; Wages.failures := [] |}, w))
      with (scrape_all outdir seasons (no_logs, w)).
    rewrite Hrun. apply write_reports_written; assumption.
Qed.

End RunFacts.

(** A site that answers every season but 2014-2015. *)
Definition site_down_in_2014 (s : pystr) (n : unit)
  : result (list Wages.wage_row) * unit :=
  if eqb s (str "2014-2015")
  then (Raise (OtherException (str "HTTPError") (str "503 Server Error")), n)
  else (Ok [(str "Arsenal", s, Float64.of_int 100)], n).

Definition empty_world : Wages.world unit :=
  {| Wages.net := tt; Wages.files := ∅; Wages.stdout := [] |}.

(** A machine on which no call fails. *)
Definition quiet (Net : Type) : Wages.machine Net :=
  {| Wages.print_error := fun _ _ => None;
     Wages.write_error := fun _ _ _ => None;
     Wages.makedirs_error := fun _ _ => None |}.

Lemma scrape_all_one_outcome_each_witness :
  exists w',
    Wages.main unit site_down_in_2014 (quiet unit)
      (str "2013-2014") (str "2015-2016") (str "out") empty_world = (Ok tt, w')
    /\ Wages.files unit w' !! str "out/run_log.csv"
       = Some (Wages.RunLog
                 [(str "2013-2014", 1, str "out/wages_2013_2014.csv");
                  (str "2015-2016", 1, str "out/wages_2015_2016.csv")])
    /\ Wages.files unit w' !! str "out/failures.csv"
       = Some (Wages.Failures [(str "2014-2015", str "503 Server Error")]).
Proof.
  destruct (scrape_all_one_outcome_each unit site_down_in_2014 (quiet unit)
              (str "out")
              [str "2013-2014"; str "2014-2015"; str "2015-2016"]
              empty_world (fun _ _ => eq_refl))
    as (lg & w1 & _ & _ & Hr & Hf & _ & Hmain).
  destruct (Hmain (str "2013-2014") (str "2015-2016") eq_refl eq_refl
              (fun _ _ => eq_refl) (fun _ _ => eq_refl))
    as (w' & Hw & Hlog & Hfail).
  exists w'. split; [exact Hw |].
  rewrite Hr in Hlog. rewrite Hf in Hfail.
  split; [exact Hlog | exact Hfail].
Defined.

(** *** A console that cannot print every line *)

(** What [print] raises on a console that encodes its lines in ASCII
    (the setting [PYTHONIOENCODING=ascii]): the error names the first run
    of characters beyond ASCII and its position in the line. *)
Definition hex_digit (d : N) : N :=
  if (d <? 10)%N then (48 + d)%N else (87 + d)%N.

Fixpoint hex (width : nat) (n : N) : pystr :=
  match width with
  | O => []
  | S k => hex k (n / 16)%N ++ [hex_digit (n mod 16)%N]
  end.

(** the character as the message shows it *)
Definition escape (c : N) : pystr :=
  if (c <? 256)%N then 92%N :: str "x" ++ hex 2 c
  else if (c <? 65536)%N then 92%N :: str "u" ++ hex 4 c
  else 92%N :: str "U" ++ hex 8 c.

Definition beyond_ascii (c : N) : bool := (128 <=? c)%N.

Fixpoint first_beyond_ascii (i : Z) (line : pystr) : option (Z * pystr) :=
  match line with
  | [] => None
  | c :: t =>
      if beyond_ascii c then Some (i, c :: fst (Re.span beyond_ascii t))
      else first_beyond_ascii (i + 1) t
  end.

Definition unicode_encode_error (line : pystr) : option exn :=
  match first_beyond_ascii 0 line with
  | None => None
  | Some (i, [c]) =>
      Some (OtherException (str "UnicodeEncodeError")
              (str "'ascii' codec can't encode character '" ++ escape c
               ++ str "' in position " ++ PyStr.of_int i
               ++ str ": ordinal not in range(128)"))
  | Some (i, run) =>
      Some (OtherException (str "UnicodeEncodeError")
              (str "'ascii' codec can't encode characters in position "
               ++ PyStr.of_int i ++ hyphen
               :: PyStr.of_int (i + Z.of_nat (List.length run) - 1)
               ++ str ": ordinal not in range(128)"))
  end.

Definition ascii_console : Wages.machine unit :=
  {| Wages.print_error := fun line _ => unicode_encode_error line;
     Wages.write_error := fun _ _ _ => None;
     Wages.makedirs_error := fun _ _ => None |}.

(** The output directory "données". *)
Definition donnees : pystr := str "donn" ++ 233%N :: str "es".

(** The same console on a machine where the file of 2013-2014 exists and
    may not be written. *)
Definition permission_denied (path : pystr) : exn :=
  OtherException (str "PermissionError")
    (str "[Errno 13] Permission denied: '" ++ path ++ str "'").

Definition read_only_2013 : Wages.machine unit :=
  {| Wages.print_error := fun line _ => unicode_encode_error line;
     Wages.write_error :=
       fun path _ _ =>
         if eqb path (Wages.wages_file donnees (str "2013-2014"))
         then Some (permission_denied path, None) else None;
     Wages.makedirs_error := fun _ _ => None |}.

(** With the output directory "données" on the ASCII console the season
    2013-2014 is fetched and its file written, but its line cannot be
    printed: the season has an entry in the run log and an entry in the
    failure list.  When its file cannot be written either, the line of the
    handler cannot be printed (the message holds the path): the exception
    leaves [main] and neither report is written. *)
Lemma scrape_all_one_outcome_each_counterexample :
  fst (Wages.scrape_all unit site_down_in_2014 ascii_console donnees
         [str "2013-2014"] (no_logs, empty_world))
  = Ok {| Wages.results :=
            [(str "2013-2014", 1, donnees ++ str "/wages_2013_2014.csv")];
          Wages.failures :=
            [(str "2013-2014",
              str "'ascii' codec can't encode character '" ++ 92%N
              :: str "xe9' in position 35: ordinal not in range(128)")] |}
  /\ fst (Wages.main unit site_down_in_2014 read_only_2013
            (str "2013-2014") (str "2013-2014") donnees empty_world)
     = Raise (OtherException (str "UnicodeEncodeError")
                (str "'ascii' codec can't encode character '" ++ 92%N
                 :: str "xe9' in position 53: ordinal not in range(128)"))
  /\ Wages.files unit
       (snd (Wages.main unit site_down_in_2014 read_only_2013
               (str "2013-2014") (str "2013-2014") donnees empty_world))
     !! Wages.log_path donnees = None
  /\ Wages.files unit
       (snd (Wages.main unit site_down_in_2014 read_only_2013
               (str "2013-2014") (str "2013-2014") donnees empty_world))
     !! Wages.fail_path donnees = None.
Proof.
  split; [vm_compute; reflexivity |].
  split; [vm_compute; reflexivity |].
  split; reflexivity.
Qed.

(** A page with three tables: the first has no club column, the second and
    the third qualify; the second is returned, with the first of its two
    wages columns. *)
Example find_wages_table_page :
  let t1 := {| Wages.columns := [str "Rk"; str "Annual Wages"]; Wages.rows := 1%nat |} in
  let t2 := {| Wages.columns := [str "Rk"; str " Squad"; str "Weekly Wages";
                                 str "Annual Wages"; str "Est. annual wage bill"];
               Wages.rows := 2%nat |} in
  let t3 := {| Wages.columns := [str "Team"; str "annual_wages"]; Wages.rows := 3%nat |} in
  Wages.find_wages_table id [t1; t2; t3] = Ok (t2, str "Annual Wages")
  /\ Wages.find_wages_table id [t1] = Raise Wages.no_wages_table.
Proof. split; reflexivity. Qed.

(** * The rest of the scripts *)

(** ** data/scripts/get_fbref_wages.py: one season's page *)

Module Fetch.

Definition slug_error : exn :=
  ValueError (str "Season must be in YYYY-YYYY format, for example 2013-2014").

Definition season_slug (season : pystr) : result pystr :=
  match Re.two_groups 4 4 (strip season) with
  | Some (g1, g2) => Ok (g1 ++ hyphen :: g2)
  | None => Raise slug_error
  end.

Definition wages_url (slug : pystr) : pystr :=
  str "https://fbref.com/en/comps/9/" ++ slug
  ++ str "/wages/Premier-League-Wages".

(** What [out.columns = ["club", "total_wage_bill_gbp_raw"]] raises when
    the selection has [n] columns and [n] is not 2. *)
Definition length_mismatch (n : nat) : exn :=
  ValueError (str "Length mismatch: Expected axis has "
              ++ PyStr.of_int (Z.of_nat n)
              ++ str " elements, new values have 2 elements").

Definition no_club_column : exn :=
  RuntimeError (str "Could not identify club column").

Section Page.

(** The labels of the columns are compared as pandas compares them; the
    cells of a table are Python values, one list per row. *)
Context {label : Type} `{EqDecision label}.
Variable label_str : label -> pystr.

Abbreviation table := (@Wages.table label (list (list Wages.pyvalue))).

(** The site and the reader of its pages: [http_get] stands for
    [requests.get] followed by [raise_for_status], [read_html] for
    [pd.read_html], [sleep] for [time.sleep], which raises when it is
    given a pause it refuses (a negative one, NaN, one too long). *)
Variable Net : Type.
Variable http_get : pystr -> Net -> result pystr * Net.
Variable read_html : pystr -> result (list table).
Variable sleep : Float64.float -> Net -> result unit * Net.

(** The positions of the columns that bear the label [c]. *)
Fixpoint positions_from (i : nat) (c : label) (cols : list label) : list nat :=
  match cols with
  | [] => []
  | c' :: cs =>
      (if bool_decide (c' = c) then [i] else []) ++ positions_from (S i) c cs
  end.

Definition positions (c : label) (cols : list label) : list nat :=
  positions_from 0 c cols.

(** The cell of a row in the column at position [i]. *)
Definition cell_at (row : list Wages.pyvalue) (i : nat) : Wages.pyvalue :=
  nth i row Wages.VNaN.

(** [wages_df[[club_col, wage_col]]] with its two new column names: the
    selection takes every column that bears one of the two labels. *)
Definition select_two (df : table) (club_col wage_col : label)
  : result (list (Wages.pyvalue * Wages.pyvalue)) :=
  match positions club_col (Wages.columns df)
        ++ positions wage_col (Wages.columns df) with
  | [i; j] => Ok (List.map (fun r => (cell_at r i, cell_at r j)) (Wages.rows df))
  | sel => Raise (length_mismatch (List.length sel))
  end.

(** Lines 118 to 129: the season, the parsed wage, the rows without a
    club dropped, the club as stripped text, the rows without a parsed
    wage dropped. *)
Definition clean_rows (season : pystr)
  (out : list (Wages.pyvalue * Wages.pyvalue)) : list Wages.wage_row :=
  let parsed :=
    List.map (fun '(club, raw) => (club, Wages.parse_money_to_gbp raw)) out in
  let with_club :=
    List.filter (fun '(club, _) => negb (Wages.isna club)) parsed in
  let stripped :=
    List.map (fun '(club, gbp) => (strip (Wages.to_str club), gbp)) with_club in
  omap (fun '(club, gbp) =>
          match gbp with
          | Some x => Some (club, season, x)
          | None => None
          end) stripped.

Definition fetch_fbref_wages_for_season (season : pystr)
  (sleep_seconds : Float64.float) (n : Net)
  : result (list Wages.wage_row) * Net :=
  match season_slug season with
  | Raise e => (Raise e, n)
  | Ok slug =>
      let '(r, n) := http_get (wages_url slug) n in
      match r with
      | Raise e => (Raise e, n)
      | Ok text =>
          match read_html text with
          | Raise e => (Raise e, n)
          | Ok tables =>
              match Wages.find_wages_table label_str tables with
              | Raise e => (Raise e, n)
              | Ok (wages_df, wage_col) =>
                  match List.find
                          (fun c => Wages.is_club_name (Wages.norm label_str c))
                          (Wages.columns wages_df) with
                  | None => (Raise no_club_column, n)
                  | Some club_col =>
                      match select_two wages_df club_col wage_col with
                      | Raise e => (Raise e, n)
                      | Ok out =>
                          let out := clean_rows season out in
                          match sleep sleep_seconds n with
                          | (Raise e, n) => (Raise e, n)
                          | (Ok _, n) => (Ok out, n)
                          end
                      end
                  end
              end
          end
      end
  end.

End Page.

End Fetch.

(** ** More on stripping and on digits *)

Lemma lstrip_fixed (s : pystr) : stops is_space s -> lstrip s = s.
Proof.
  destruct s as [|c s]; simpl; [reflexivity |]. intros ->. reflexivity.
Qed.

Lemma strip_rev (s : pystr) : rev (strip s) = lstrip (rev (lstrip s)).
Proof. unfold strip, rstrip. apply rev_involutive. Qed.

(** Stripping removes white space from the left only as far as the first
    other character. *)
Lemma lstrip_split (s : pystr) :
  exists ws, s = ws ++ lstrip s /\ all_in is_space ws.
Proof.
  induction s as [|c s (ws & Hs & Hws)]; simpl.
  - exists []. split; [reflexivity | constructor].
  - destruct (is_space c) eqn:Hc.
    + exists (c :: ws). split; [simpl; congruence | constructor; assumption].
    + exists []. split; [reflexivity | constructor].
Qed.

Lemma strip_stops (s : pystr) : stops is_space (strip s).
Proof.
  pose proof (lstrip_stops s) as Hl.
  destruct (lstrip_split (rev (lstrip s))) as (ws & Hs & Hws).
  rewrite <- strip_rev in Hs.
  apply (f_equal (@rev N)) in Hs. rewrite rev_involutive, rev_app_distr in Hs.
  rewrite rev_involutive in Hs. rewrite Hs in Hl.
  destruct (strip s) as [|c t]; [exact I | exact Hl].
Qed.

Lemma strip_idem (s : pystr) : strip (strip s) = strip s.
Proof.
  unfold strip at 1, rstrip.
  rewrite (lstrip_fixed (strip s) (strip_stops s)).
  rewrite strip_rev, (lstrip_fixed _ (lstrip_stops _)).
  rewrite <- strip_rev. apply rev_involutive.
Qed.

Lemma digit_in_value (zs : list N) (c : N) (d : Z) :
  digit_in zs c = Some d -> 0 <= d <= 9.
Proof.
  induction zs as [|z zs IH]; simpl; [discriminate |].
  destruct ((z <=? c)%N && (c <? z + 10)%N) eqn:H; [|exact IH].
  intros [= <-]. apply andb_true_iff in H as [H1 H2].
  apply N.leb_le in H1. apply N.ltb_lt in H2. lia.
Qed.

Lemma digit_or_zero_range (c : N) : 0 <= digit_or_zero c <= 9.
Proof.
  unfold digit_or_zero, digit_value.
  destruct (digit_in digit_zeros c) as [d|] eqn:H; [|lia].
  eapply digit_in_value, H.
Qed.

Lemma int_fold_range (g : pystr) (acc : Z) :
  0 <= acc ->
  acc * 10 ^ Z.of_nat (List.length g)
  <= fold_left (fun a c => 10 * a + digit_or_zero c) g acc
  < (acc + 1) * 10 ^ Z.of_nat (List.length g).
Proof.
  revert acc. induction g as [|c g IH]; intros acc Hacc.
  - simpl. lia.
  - cbn [fold_left List.length]. rewrite Nat2Z.inj_succ, Z.pow_succ_r by lia.
    pose proof (digit_or_zero_range c) as Hc.
    specialize (IH (10 * acc + digit_or_zero c)).
    assert (Hp : 0 < 10 ^ Z.of_nat (List.length g)) by (apply Z.pow_pos_nonneg; lia).
    nia.
Qed.

(** A run of four digits reads as a year from 0 to 9999. *)
Lemma int_four_digits (g : pystr) :
  List.length g = 4%nat -> 0 <= int g <= 9999.
Proof.
  intros Hl. pose proof (int_fold_range g 0) as H. rewrite Hl in H.
  unfold int. change (10 ^ Z.of_nat 4) with 10000 in H. lia.
Qed.

(** ** The slug of a season *)

(** A season text: four digits, a hyphen, four digits and nothing else. *)
Definition season_text (t : pystr) : Prop :=
  exists y1 y2,
    List.length y1 = 4%nat /\ all_digits y1
    /\ List.length y2 = 4%nat /\ all_digits y2
    /\ t = y1 ++ hyphen :: y2.

Lemma season_slug_ok (season t : pystr) :
  Fetch.season_slug season = Ok t <-> t = strip season /\ season_text t.
Proof.
  unfold Fetch.season_slug, season_text. split.
  - destruct (Re.two_groups 4 4 (strip season)) as [[g1 g2]|] eqn:Hm;
      [|discriminate].
    intros [= <-]. apply two_groups_spec in Hm as (L1 & D1 & L2 & D2 & Hs).
    destruct Hs as [Hs | Hs].
    + split; [symmetry; exact Hs |]. exists g1, g2. auto.
    + exfalso. apply (strip_no_final_newline season (g1 ++ hyphen :: g2)).
      rewrite Hs, <- app_assoc. reflexivity.
  - intros (-> & y1 & y2 & L1 & D1 & L2 & D2 & Hs).
    assert (Hm : Re.two_groups 4 4 (strip season) = Some (y1, y2)).
    { apply two_groups_spec. unfold two_groups_match. auto 10. }
    rewrite Hm. simpl. f_equal. symmetry. exact Hs.
Qed.

(** X1.  [season_slug] accepts a season exactly when, white space around
    it apart, it is four digits, a hyphen and four digits, and the slug is
    then the season without that white space (a final line feed never
    gets into the URL); it raises its [ValueError] for every other text.  A
    slug is its own slug. *)
Theorem season_slug_stripped_season (season : pystr) :
  (forall t, Fetch.season_slug season = Ok t
             <-> t = strip season /\ season_text t)
  /\ (Fetch.season_slug season = Raise Fetch.slug_error
      <-> ~ season_text (strip season))
  /\ (forall t, Fetch.season_slug season = Ok t -> Fetch.season_slug t = Ok t).
Proof.
  split; [intros t; apply season_slug_ok |]. split.
  - split.
    + intros Hr Ht.
      assert (Ho : Fetch.season_slug season = Ok (strip season))
        by (apply season_slug_ok; auto).
      congruence.
    + intros Hn. unfold Fetch.season_slug.
      destruct (Re.two_groups 4 4 (strip season)) as [[g1 g2]|] eqn:Hm;
        [|reflexivity].
      exfalso. apply Hn.
      assert (Ho : Fetch.season_slug season = Ok (g1 ++ hyphen :: g2))
        by (unfold Fetch.season_slug; rewrite Hm; reflexivity).
      apply season_slug_ok in Ho as [<- Ht]. exact Ht.
  - intros t Ht. apply season_slug_ok in Ht as [-> Ht].
    apply season_slug_ok. rewrite strip_idem. auto.
Qed.

Lemma season_slug_stripped_season_witness :
  Fetch.season_slug (32%N :: str "2013-2014" ++ [newline]) = Ok (str "2013-2014")
  /\ Fetch.season_slug (str "2013-2014") = Ok (str "2013-2014").
Proof.
  assert (H : Fetch.season_slug (32%N :: str "2013-2014" ++ [newline])
              = Ok (str "2013-2014")) by reflexivity.
  split; [exact H |].
  exact (proj2 (proj2 (season_slug_stripped_season _)) _ H).
Defined.

(** ** The seasons of the list and their slugs *)

Definition slug_answer (y : Z) : bool :=
  match Fetch.season_slug (Wages.season_of_year y) with
  | Ok t =>
      (1000 <=? y) && (y <=? 9998) && eqb t (Wages.season_of_year y)
  | Raise _ => negb ((1000 <=? y) && (y <=? 9998))
  end.

Lemma slug_answer_all : forallb slug_answer (Wages.range 0 10000) = true.
Proof. vm_compute. reflexivity. Qed.

Lemma In_range (a b y : Z) : a <= y < b -> In y (Wages.range a b).
Proof.
  intros Hy. unfold Wages.range. apply in_map_iff.
  exists (Z.to_nat (y - a)). split; [lia |]. apply in_seq. lia.
Qed.

Lemma In_range_inv (a b y : Z) : In y (Wages.range a b) -> a <= y < b.
Proof.
  unfold Wages.range. intros H. apply in_map_iff in H as (i & <- & Hi).
  apply in_seq in Hi. lia.
Qed.

Lemma season_of_year_slug (y : Z) :
  0 <= y <= 9999 ->
  Fetch.season_slug (Wages.season_of_year y)
  = if (1000 <=? y) && (y <=? 9998) then Ok (Wages.season_of_year y)
    else Raise Fetch.slug_error.
Proof.
  intros Hy. pose proof slug_answer_all as H. rewrite forallb_forall in H.
  specialize (H y (In_range 0 10000 y ltac:(lia))). unfold slug_answer in H.
  destruct (Fetch.season_slug (Wages.season_of_year y)) as [t|e] eqn:Hs.
  - apply andb_true_iff in H as [H Ht]. rewrite H. apply eqb_eq in Ht.
    congruence.
  - apply negb_true_iff in H. rewrite H.
    unfold Fetch.season_slug in Hs.
    destruct (Re.two_groups 4 4 (strip (Wages.season_of_year y))) as [[? ?]|];
      [discriminate | congruence].
Qed.

(** X2.  For bounds with first years [a <= b] the list of
    [make_season_list] holds exactly the seasons of the years from [a] to
    [b], all between 0 and 9999.  [season_slug] takes such a season as it
    is when its year is from 1000 to 9998, and refuses it when the year is
    below 1000 (the season then has fewer than four digits, as for the
    bound "0998-0999") or is 9999 (the season is then "9999-10000"). *)
Theorem make_season_list_slugs (start_season end_season a a' b b' : pystr) :
  season_bound start_season a a' -> season_bound end_season b b' ->
  int a <= int b ->
  exists l,
    Wages.make_season_list start_season end_season = Ok l
    /\ (forall s, In s l
                  <-> exists y, int a <= y <= int b /\ s = Wages.season_of_year y)
    /\ forall y, int a <= y <= int b ->
         0 <= y <= 9999
         /\ (1000 <= y <= 9998 ->
             Fetch.season_slug (Wages.season_of_year y)
             = Ok (Wages.season_of_year y))
         /\ (y < 1000 \/ y = 9999 ->
             Fetch.season_slug (Wages.season_of_year y)
             = Raise Fetch.slug_error).
Proof.
  intros Hs He Hab.
  rewrite (make_season_list_matched _ _ _ _ _ _ Hs He).
  destruct (Z.ltb_spec (int b) (int a)) as [Hlt | _]; [lia |].
  eexists. split; [reflexivity |].
  pose proof (int_four_digits a (proj1 Hs)) as Ha.
  pose proof (int_four_digits b (proj1 He)) as Hb.
  split.
  - intros s. rewrite in_map_iff. split.
    + intros (y & <- & Hy). apply In_range_inv in Hy. exists y. split; [lia | auto].
    + intros (y & Hy & ->). exists y. split; [reflexivity |].
      apply In_range. lia.
  - intros y Hy. split; [lia |].
    rewrite (season_of_year_slug y) by lia. split.
    + intros Hr. replace ((1000 <=? y) && (y <=? 9998)) with true; [reflexivity |].
      symmetry. apply andb_true_iff. split; lia.
    + intros Hr. replace ((1000 <=? y) && (y <=? 9998)) with false; [reflexivity |].
      symmetry. apply andb_false_iff. lia.
Qed.

Lemma str_0998_0999 : season_bound (str "0998-0999") (str "0998") (str "0999").
Proof. apply two_groups_spec. reflexivity. Qed.

Lemma str_1000_1001 : season_bound (str "1000-1001") (str "1000") (str "1001").
Proof. apply two_groups_spec. reflexivity. Qed.

Lemma make_season_list_slugs_witness :
  Fetch.season_slug (str "998-999") = Raise Fetch.slug_error
  /\ Fetch.season_slug (str "1000-1001") = Ok (str "1000-1001").
Proof.
  destruct (make_season_list_slugs _ _ _ _ _ _ str_0998_0999 str_1000_1001)
    as (l & _ & _ & H).
  - vm_compute. discriminate.
  - split.
    + apply (H 998). 
      * vm_compute. split; discriminate.
      * left. reflexivity.
    + apply (H 1000).
      * vm_compute. split; discriminate.
      * vm_compute. split; discriminate.
Defined.

(** ** The sign of a parsed amount *)

(** Zero, a positive number or plus infinity: not NaN, not negative, not
    minus zero. *)
Definition is_nonneg (x : Float64.float) : bool :=
  match x with
  | S754_zero false | S754_finite false _ _ | S754_infinity false => true
  | _ => false
  end.

Lemma iter_pos_invariant {A : Type} (P : A -> Prop) (f : A -> A) :
  (forall x, P x -> P (f x)) ->
  forall p x, P x -> P (SpecFloat.iter_pos f p x).
Proof.
  intros Hf p. induction p as [p IH | p IH |]; intros x Hx; simpl; auto.
Qed.

Lemma shr_1_nonneg (mrs : shr_record) : 0 <= shr_m mrs -> 0 <= shr_m (shr_1 mrs).
Proof.
  destruct mrs as [m r s]. simpl.
  destruct m as [|[p|p|]|[p|p|]]; simpl; lia.
Qed.

Lemma shr_nonneg (mrs : shr_record) (e n : Z) :
  0 <= shr_m mrs -> 0 <= shr_m (fst (shr mrs e n)).
Proof.
  intros H. unfold shr. destruct n as [|p|p]; simpl; [exact H | | exact H].
  apply (iter_pos_invariant (fun x => 0 <= shr_m x)); [apply shr_1_nonneg | exact H].
Qed.

Lemma shr_fexp_nonneg (m e : Z) (l : location) :
  0 <= m -> 0 <= shr_m (fst (shr_fexp Float64.prec Float64.emax m e l)).
Proof.
  intros H. unfold shr_fexp. apply shr_nonneg.
  destruct l as [|[| |]]; exact H.
Qed.

Lemma round_nearest_even_nonneg (m : Z) (l : location) :
  0 <= m -> 0 <= round_nearest_even m l.
Proof.
  intros H. destruct l as [|[| |]]; simpl; [lia | | lia | lia].
  destruct (Z.even m); lia.
Qed.

Lemma binary_round_aux_nonneg (mx ex : Z) (lx : location) :
  0 <= mx ->
  is_nonneg (binary_round_aux Float64.prec Float64.emax false mx ex lx) = true.
Proof.
  intros H. unfold binary_round_aux.
  pose proof (shr_fexp_nonneg mx ex lx H) as H1.
  destruct (shr_fexp Float64.prec Float64.emax mx ex lx) as [mrs' e'].
  simpl in H1.
  pose proof (shr_fexp_nonneg _ e' loc_Exact
                (round_nearest_even_nonneg _ (loc_of_shr_record mrs') H1)) as H2.
  destruct (shr_fexp Float64.prec Float64.emax
              (round_nearest_even (shr_m mrs') (loc_of_shr_record mrs'))
              e' loc_Exact) as [mrs'' e''].
  simpl in H2. destruct (shr_m mrs'') as [|p|p]; [reflexivity | | lia].
  destruct (e'' <=? Float64.emax - Float64.prec); reflexivity.
Qed.

Lemma of_numeral_nonneg (w : pystr) (f : option pystr) :
  is_nonneg (Float64.of_numeral w f) = true.
Proof.
  unfold Float64.of_numeral. cbv zeta.
  destruct (int _) as [|m|m]; [reflexivity | | reflexivity].
  unfold SFdiv, SFdiv_core_binary.
  set (d := Z.to_pos _).
  match goal with
  | |- context [Z.div_eucl ?a ?b] =>
      pose proof (Z_div_mod a b eq_refl) as Hd;
      assert (Ha : 0 <= a)
  end.
  { match goal with
    | |- 0 <= match ?s with _ => _ end => destruct s
    end; [lia | apply Z.shiftl_nonneg; lia | lia]. }
  match goal with
  | |- context [Z.div_eucl ?a ?b] => destruct (Z.div_eucl a b) as [q r]
  end.
  apply binary_round_aux_nonneg. nia.
Qed.

Lemma mul_million_nonneg (x : Float64.float) :
  is_nonneg x = true -> is_nonneg (Float64.mul x Wages.million) = true.
Proof.
  unfold Float64.mul.
  assert (Hm : Wages.million = S754_finite false 8589934592000000 (-33))
    by (vm_compute; reflexivity).
  rewrite Hm.
  destruct x as [[|]|[|]| |[|] m e]; simpl; try discriminate; try reflexivity.
  intros _. apply binary_round_aux_nonneg. lia.
Qed.

Lemma parse_money_sign (value : Wages.pyvalue) (x : Float64.float) :
  Wages.parse_money_to_gbp value = Some x -> is_nonneg x = true.
Proof.
  unfold Wages.parse_money_to_gbp.
  destruct (Wages.isna value); [discriminate |].
  match goal with |- (if ?b then _ else _) = _ -> _ => destruct b end;
    [discriminate |].
  destruct (Re.number_m _) as [[w f]|].
  - intros [= <-]. apply mul_million_nonneg, of_numeral_nonneg.
  - destruct (Re.plain_number _) as [[w f]|]; [|discriminate].
    intros [= <-]. apply of_numeral_nonneg.
Qed.

Lemma numeral_head (s w r : pystr) (f : option pystr) :
  Re.numeral s = Some (w, f, r) -> exists c t, s = c :: t /\ is_digit c = true.
Proof.
  intros H. apply numeral_sound in H as ((Hne & Hw & _) & ->).
  destruct w as [|c w]; [congruence |].
  inversion Hw; subst. exists c. eexists. split; [reflexivity | assumption].
Qed.

(** X11.  An amount that [parse_money_to_gbp] returns is zero, a positive
    number or plus infinity: never NaN, never negative.  A text that, once
    cleaned, does not begin with a digit (a minus sign, a dollar or euro
    sign, a letter) gives [None]. *)
Theorem parse_money_to_gbp_sign :
  (forall value x,
     Wages.parse_money_to_gbp value = Some x ->
     is_nonneg x = true /\ Float64.is_nan x = false)
  /\ (forall value c t,
        Wages.clean (strip (Wages.to_str value)) = c :: t ->
        is_digit c = false ->
        Wages.parse_money_to_gbp value = None).
Proof.
  split.
  - intros value x H. apply parse_money_sign in H.
    split; [exact H |]. destruct x as [[|]|[|]| |[|] m e]; try discriminate;
      reflexivity.
  - intros value c t Ht Hc. unfold Wages.parse_money_to_gbp.
    destruct (Wages.isna value); [reflexivity |].
    match goal with |- (if ?b then _ else _) = _ => destruct b end;
      [reflexivity |].
    rewrite Ht. unfold Re.number_m, Re.plain_number.
    destruct (Re.numeral (c :: t)) as [[[w f] r]|] eqn:Hn; [|reflexivity].
    apply numeral_head in Hn as (c' & t' & [= <- <-] & Hd). congruence.
Qed.

Lemma parse_money_to_gbp_sign_witness :
  Wages.parse_money_to_gbp (Wages.VStr (str "$5m")) = None
  /\ Wages.parse_money_to_gbp (Wages.VStr (str "-5")) = None
  /\ is_nonneg (Float64.of_int 5000000) = true.
Proof.
  split; [|split].
  - apply (proj2 parse_money_to_gbp_sign _ 36%N (str "5m")); reflexivity.
  - apply (proj2 parse_money_to_gbp_sign _ 45%N (str "5")); reflexivity.
  - apply (proj1 parse_money_to_gbp_sign (Wages.VStr (str "5m"))).
    vm_compute. reflexivity.
Defined.

(** ** One season's page *)

Section PageFacts.

Context {label : Type} `{EqDecision label}.
Variable label_str : label -> pystr.
Variable Net : Type.
Variable http_get : pystr -> Net -> result pystr * Net.
Variable read_html :
  pystr -> result (list (@Wages.table label (list (list Wages.pyvalue)))).
Variable sleep : Float64.float -> Net -> result unit * Net.

Abbreviation fetch :=
  (Fetch.fetch_fbref_wages_for_season label_str Net http_get read_html sleep).

(** The table [find_wages_table] returns has a club column. *)
Abbreviation page_table := (@Wages.table label (list (list Wages.pyvalue))).

Lemma find_wages_table_club_col (tables : list page_table) (df : page_table)
  (c : label) :
  Wages.find_wages_table label_str tables = Ok (df, c) ->
  exists club_col,
    List.find (is_club_col label_str) (Wages.columns df) = Some club_col.
Proof.
  unfold Wages.find_wages_table. rewrite find_loop_first.
  destruct (List.find (qualifies label_str) tables) as [df0|] eqn:Hf;
    [|discriminate].
  apply find_first_such in Hf as (_ & _ & _ & _ & Hq).
  apply andb_true_iff in Hq as [Hc _].
  destruct (List.find (is_wage_col label_str) (Wages.columns df0));
    [|discriminate].
  intros [= <- <-].
  destruct (List.find (is_club_col label_str) (Wages.columns df0)) as [cc|] eqn:Hcc;
    [eauto |].
  apply existsb_exists in Hc as (x & Hin & Hx).
  pose proof (find_none _ _ Hcc x Hin) as Hn. congruence.
Qed.

Lemma clean_rows_cons (season : pystr) (c raw : Wages.pyvalue)
  (out : list (Wages.pyvalue * Wages.pyvalue)) :
  Fetch.clean_rows season ((c, raw) :: out)
  = (if Wages.isna c then []
     else match Wages.parse_money_to_gbp raw with
          | Some x => [(strip (Wages.to_str c), season, x)]
          | None => []
          end)
    ++ Fetch.clean_rows season out.
Proof.
  unfold Fetch.clean_rows. simpl.
  destruct (Wages.isna c); simpl; [reflexivity |].
  destruct (Wages.parse_money_to_gbp raw); reflexivity.
Qed.

Lemma clean_rows_length (season : pystr)
  (out : list (Wages.pyvalue * Wages.pyvalue)) :
  (List.length (Fetch.clean_rows season out) <= List.length out)%nat.
Proof.
  induction out as [|[c raw] out IH]; [apply Nat.le_refl |].
  rewrite clean_rows_cons, length_app.
  destruct (Wages.isna c); [simpl; apply le_S, IH |].
  destruct (Wages.parse_money_to_gbp raw); simpl;
    [apply le_n_S, IH | apply le_S, IH].
Qed.

Lemma clean_rows_In (season : pystr)
  (out : list (Wages.pyvalue * Wages.pyvalue)) (club s : pystr)
  (x : Float64.float) :
  In (club, s, x) (Fetch.clean_rows season out) ->
  s = season
  /\ exists c raw,
       In (c, raw) out /\ Wages.isna c = false
       /\ club = strip (Wages.to_str c)
       /\ Wages.parse_money_to_gbp raw = Some x.
Proof.
  induction out as [|[c raw] out IH]; [intros []|].
  rewrite clean_rows_cons, in_app_iff. intros [Hin | Hin].
  - destruct (Wages.isna c) eqn:Hc; [destruct Hin |].
    destruct (Wages.parse_money_to_gbp raw) as [y|] eqn:Hp; [|destruct Hin].
    destruct Hin as [[= <- <- <-] | []].
    split; [reflexivity |]. exists c, raw. simpl. auto.
  - destruct (IH Hin) as (Hs & c' & raw' & Hin' & H').
    split; [exact Hs |]. exists c', raw'. simpl. auto.
Qed.

Lemma find_wages_table_raise (tables : list page_table) (e : exn) :
  Wages.find_wages_table label_str tables = Raise e ->
  e = Wages.no_wages_table
  /\ Forall (fun df => qualifies label_str df = false) tables.
Proof.
  unfold Wages.find_wages_table. rewrite find_loop_first.
  destruct (List.find (qualifies label_str) tables) as [df0|] eqn:Hf.
  - pose proof Hf as Hq.
    apply find_first_such in Hq as (_ & _ & _ & _ & Hq).
    apply andb_true_iff in Hq as [_ Hw].
    apply find_wage_col_existsb in Hw as [c0 Hc0]. rewrite Hc0. discriminate.
  - intros [= <-]. split; [reflexivity |]. apply find_none_Forall, Hf.
Qed.

Lemma select_two_raise (df : page_table) (club_col wage_col : label) (e : exn) :
  Fetch.select_two df club_col wage_col = Raise e ->
  exists k, k <> 2%nat /\ e = Fetch.length_mismatch k.
Proof.
  unfold Fetch.select_two.
  destruct (Fetch.positions club_col (Wages.columns df)
            ++ Fetch.positions wage_col (Wages.columns df))
    as [|i [|j [|k sel]]]; try discriminate; intros [= <-];
    eexists; (split; [|reflexivity]); simpl; lia.
Qed.

Lemma select_two_length (df : page_table) (club_col wage_col : label)
  (out : list (Wages.pyvalue * Wages.pyvalue)) :
  Fetch.select_two df club_col wage_col = Ok out ->
  List.length out = List.length (Wages.rows df).
Proof.
  unfold Fetch.select_two.
  destruct (Fetch.positions club_col (Wages.columns df)
            ++ Fetch.positions wage_col (Wages.columns df))
    as [|i [|j [|k sel]]]; try discriminate.
  intros [= <-]. apply length_map.
Qed.

(** Where an exception of [fetch_fbref_wages_for_season] comes from: the
    slug, the request, the page (its reading, its tables, the selection of
    the two columns) or, with the table made, the pause. *)
Definition page_failure (text : pystr) (e : exn) : Prop :=
  read_html text = Raise e
  \/ exists tables,
       read_html text = Ok tables
       /\ ((e = Wages.no_wages_table
            /\ Forall (fun df => qualifies label_str df = false) tables)
           \/ exists k, k <> 2%nat /\ e = Fetch.length_mismatch k).

Definition failure_cause (season : pystr) (sleep_seconds : Float64.float)
  (n n' : Net) (e : exn) : Prop :=
  (e = Fetch.slug_error /\ n' = n)
  \/ (exists slug,
        Fetch.season_slug season = Ok slug
        /\ http_get (Fetch.wages_url slug) n = (Raise e, n'))
  \/ (exists slug text,
        Fetch.season_slug season = Ok slug
        /\ http_get (Fetch.wages_url slug) n = (Ok text, n')
        /\ page_failure text e)
  \/ (exists slug text n1 tables df col,
        Fetch.season_slug season = Ok slug
        /\ http_get (Fetch.wages_url slug) n = (Ok text, n1)
        /\ read_html text = Ok tables
        /\ Wages.find_wages_table label_str tables = Ok (df, col)
        /\ sleep sleep_seconds n1 = (Raise e, n')).

(** X3.  An exception of [fetch_fbref_wages_for_season] is the format
    error of [season_slug] (and then no request was made), an exception of
    the request, an exception of [pd.read_html], the error of
    [find_wages_table] when no table of the page qualifies, the length
    mismatch that renaming the selection raises when the club label or the
    wage label is borne by several columns, or, after the page was fetched
    and its table made, an exception of [time.sleep] (a negative pause, for
    one).  [RuntimeError("Could not identify club column")] is never raised
    by the function itself: the table [find_wages_table] returns always
    has a club column. *)
Theorem fetch_failure_causes (season : pystr) (sleep_seconds : Float64.float)
  (n n' : Net) (e : exn) :
  fetch season sleep_seconds n = (Raise e, n') ->
  failure_cause season sleep_seconds n n' e
  /\ (e = Fetch.no_club_column ->
      (exists url k, http_get url k = (Raise e, n'))
      \/ (exists text, read_html text = Raise e)
      \/ exists k, sleep sleep_seconds k = (Raise e, n')).
Proof.
  intros Hf.
  assert (Hc : failure_cause season sleep_seconds n n' e).
  { revert Hf. unfold Fetch.fetch_fbref_wages_for_season, failure_cause.
    destruct (Fetch.season_slug season) as [slug|e0] eqn:Hs.
    - destruct (http_get (Fetch.wages_url slug) n) as [[text|e1] n1] eqn:Hg.
      + destruct (read_html text) as [tables|e2] eqn:Hr.
        * destruct (Wages.find_wages_table label_str tables)
            as [[df col]|e3] eqn:Hw.
          -- destruct (find_wages_table_club_col _ _ _ Hw) as [cc Hcc].
             unfold is_club_col in Hcc. rewrite Hcc.
             destruct (Fetch.select_two df cc col) as [out|e4] eqn:Hsel.
             ++ cbv zeta.
                destruct (sleep sleep_seconds n1) as [[[]|e5] n2] eqn:Hsl;
                  [discriminate |].
                intros [= <- <-]. right. right. right.
                exists slug, text, n1, tables, df, col. auto 10.
             ++ intros [= <- <-]. right. right. left. exists slug, text.
                split; [reflexivity |]. split; [exact Hg |]. right.
                exists tables. split; [exact Hr |]. right.
                eapply select_two_raise, Hsel.
          -- intros [= <- <-]. right. right. left. exists slug, text.
             split; [reflexivity |]. split; [exact Hg |]. right.
             exists tables. split; [exact Hr |]. left.
             apply find_wages_table_raise, Hw.
        * intros [= <- <-]. right. right. left. exists slug, text.
          split; [reflexivity |]. split; [exact Hg |]. left. exact Hr.
      + intros [= <- <-]. right. left. exists slug. auto.
    - intros [= <- <-]. left. split; [|reflexivity].
      unfold Fetch.season_slug in Hs.
      destruct (Re.two_groups 4 4 (strip season)) as [[? ?]|];
        [discriminate | congruence]. }
  split; [exact Hc |]. intros ->.
  destruct Hc as [[Hc _] | [(slug & _ & Hg) | [(slug & text & _ & Hg & Hc)
                 | (slug & text & n1 & tables & df & col & _ & _ & _ & _ & Hsl)]]].
  - discriminate Hc.
  - left. eauto.
  - destruct Hc as [Hr | (tables & _ & [[Hc _] | (k & _ & Hc)])].
    + right. left. eauto.
    + discriminate Hc.
    + discriminate Hc.
  - right. right. eauto.
Qed.

(** X4.  When [fetch_fbref_wages_for_season] returns, the season was a
    valid one, its stripped form went into the URL of the one request
    made, and the pause was taken ([time.sleep] accepted it).  The table
    has at most as many rows as the wages table of the page, and every row
    carries the season as it was given, a club name without white space
    around it, and a wage that is a number (zero, positive or infinite,
    not NaN). *)
Theorem fetch_rows (season : pystr) (sleep_seconds : Float64.float)
  (n n' : Net) (rows : list Wages.wage_row) :
  fetch season sleep_seconds n = (Ok rows, n') ->
  (exists text n1 tables df col,
     Fetch.season_slug season = Ok (strip season)
     /\ http_get (Fetch.wages_url (strip season)) n = (Ok text, n1)
     /\ sleep sleep_seconds n1 = (Ok tt, n')
     /\ read_html text = Ok tables
     /\ Wages.find_wages_table label_str tables = Ok (df, col)
     /\ (List.length rows <= List.length (Wages.rows df))%nat)
  /\ forall club s x,
       In (club, s, x) rows ->
       s = season /\ strip club = club /\ is_nonneg x = true.
Proof.
  unfold Fetch.fetch_fbref_wages_for_season.
  destruct (Fetch.season_slug season) as [slug|e0] eqn:Hs; [|discriminate].
  pose proof (proj1 (season_slug_ok season slug) Hs) as [-> _].
  destruct (http_get (Fetch.wages_url (strip season)) n)
    as [[text|e1] n1] eqn:Hg; [|discriminate].
  destruct (read_html text) as [tables|e2] eqn:Hr; [|discriminate].
  destruct (Wages.find_wages_table label_str tables) as [[df col]|e3] eqn:Hw;
    [|discriminate].
  destruct (List.find _ (Wages.columns df)) as [cc|]; [|discriminate].
  destruct (Fetch.select_two df cc col) as [out|e4] eqn:Hsel; [|discriminate].
  cbv zeta.
  destruct (sleep sleep_seconds n1) as [[[]|e5] n2] eqn:Hsl; [|discriminate].
  intros [= <- <-]. split.
  - exists text, n1, tables, df, col. repeat split; try assumption.
    rewrite <- (select_two_length _ _ _ _ Hsel). apply clean_rows_length.
  - intros club s x Hin.
    apply clean_rows_In in Hin as (-> & c & raw & _ & _ & -> & Hp).
    split; [reflexivity |]. split; [apply strip_idem |].
    eapply parse_money_sign, Hp.
Qed.

End PageFacts.

(** A site that answers every request with the same page, of one table. *)
Definition page_of (t : @Wages.table pystr (list (list Wages.pyvalue)))
  : pystr -> result (list (@Wages.table pystr (list (list Wages.pyvalue)))) :=
  fun _ => Ok [t].

Definition answer_all (url : pystr) (n : nat) : result pystr * nat :=
  (Ok url, S n).

Definition wages_page : @Wages.table pystr (list (list Wages.pyvalue)) :=
  {| Wages.columns := [str "Rk"; str "Squad"; str "Annual Wages"];
     Wages.rows :=
       [[Wages.VInt 1; Wages.VStr (str " Arsenal "); Wages.VStr (pound :: str " 113.9m")];
        [Wages.VInt 2; Wages.VNaN; Wages.VStr (pound :: str "1m")];
        [Wages.VInt 3; Wages.VStr (str "Chelsea"); Wages.VStr (str "N/A")]] |}.

Definition twice_squad_page : @Wages.table pystr (list (list Wages.pyvalue)) :=
  {| Wages.columns := [str "Squad"; str "Squad"; str "Annual Wages"];
     Wages.rows := [] |}.

(** [time.sleep] as far as the sign of the pause goes: NaN and negative
    pauses are refused, an infinite one as well. *)
Definition sleep_checked (seconds : Float64.float) (n : nat)
  : result unit * nat :=
  match seconds with
  | S754_nan => (Raise (ValueError (str "Invalid value NaN (not a number)")), n)
  | S754_infinity _ =>
      (Raise (OtherException (str "OverflowError")
                (str "timestamp too large to convert to C _PyTime_t")), n)
  | S754_finite true _ _ =>
      (Raise (ValueError (str "sleep length must be non-negative")), n)
  | _ => (Ok tt, n)
  end.

Lemma fetch_rows_witness :
  Fetch.fetch_fbref_wages_for_season id nat answer_all (page_of wages_page)
    sleep_checked (str "2013-2014 ") (Float64.of_int 1) 0%nat
  = (Ok [(str "Arsenal", str "2013-2014 ", Float64.of_int 113900000)], 1%nat)
  /\ strip (str "Arsenal") = str "Arsenal".
Proof.
  assert (H : Fetch.fetch_fbref_wages_for_season id nat answer_all
                (page_of wages_page) sleep_checked (str "2013-2014 ")
                (Float64.of_int 1) 0%nat
              = (Ok [(str "Arsenal", str "2013-2014 ",
                      Float64.of_int 113900000)], 1%nat))
    by (vm_compute; reflexivity).
  split; [exact H |].
  apply (proj2 (fetch_rows id nat answer_all (page_of wages_page) sleep_checked
                  _ _ _ _ _ H)
           (str "Arsenal") (str "2013-2014 ") (Float64.of_int 113900000)).
  left. reflexivity.
Defined.

Lemma fetch_failure_causes_witness :
  failure_cause id nat answer_all (page_of twice_squad_page) sleep_checked
    (str "2013-2014") (Float64.of_int 1) 0%nat 1%nat (Fetch.length_mismatch 3)
  /\ failure_cause id nat answer_all (page_of wages_page) sleep_checked
       (str "2013-2014") (Float64.of_int (-1)) 0%nat 1%nat
       (ValueError (str "sleep length must be non-negative")).
Proof.
  split.
  - apply (fetch_failure_causes id nat answer_all (page_of twice_squad_page)
             sleep_checked).
    vm_compute. reflexivity.
  - apply (fetch_failure_causes id nat answer_all (page_of wages_page)
             sleep_checked).
    vm_compute. reflexivity.
Defined.

(** ** The rounds of the run, whatever the machine does *)

Section RunSteps.

Variable Net : Type.
Variable fetch_fbref_wages_for_season :
  pystr -> Net -> result (list Wages.wage_row) * Net.
Variable m : Wages.machine Net.

Lemma print_world (line : pystr) (w w' : Wages.world Net) (r : result unit) :
  Wages.print Net m line w = (r, w') ->
  Wages.net Net w' = Wages.net Net w /\ Wages.files Net w' = Wages.files Net w.
Proof.
  unfold Wages.print.
  destruct (Wages.print_error Net m line w); intros [= <- <-]; auto.
Qed.

Lemma to_csv_world (path : pystr) (f : Wages.file) (w w' : Wages.world Net)
    (r : result unit) :
  Wages.to_csv Net m path f w = (r, w') ->
  Wages.net Net w' = Wages.net Net w
  /\ (forall p, p <> path ->
        Wages.files Net w' !! p = Wages.files Net w !! p)
  /\ (r = Ok tt -> Wages.files Net w' = <[path := f]> (Wages.files Net w)).
Proof.
  unfold Wages.to_csv.
  destruct (Wages.write_error Net m path f w) as [[e [cut|]]|];
    intros [= <- <-]; simpl; (split; [reflexivity |]); split;
    try discriminate; try reflexivity;
    intros p Hp; rewrite ?lookup_insert_ne by (apply not_eq_sym, Hp);
    reflexivity.
Qed.

(** The [try] block of a round: it ends with an exception and no new
    entry, or it has written the file of the season and entered it in
    [results]. *)
Lemma try_season_cases (outdir s : pystr) (lg lg' : Wages.logs)
    (w w' : Wages.world Net) (caught : option exn) :
  Wages.try_season Net fetch_fbref_wages_for_season m outdir s (lg, w)
  = (caught, lg', w') ->
  Wages.failures lg' = Wages.failures lg
  /\ Wages.net Net w'
     = snd (fetch_fbref_wages_for_season s (Wages.net Net w))
  /\ (forall p, p <> Wages.wages_file outdir s ->
        Wages.files Net w' !! p = Wages.files Net w !! p)
  /\ ((Wages.results lg' = Wages.results lg
       /\ exists e, caught = Some e
            /\ (fst (fetch_fbref_wages_for_season s (Wages.net Net w))
                = Raise e
                \/ exists df cut,
                     fst (fetch_fbref_wages_for_season s (Wages.net Net w))
                     = Ok df
                     /\ Wages.write_error Net m (Wages.wages_file outdir s)
                          (Wages.WagesCsv df)
                          (Wages.set_net Net
                             (snd (fetch_fbref_wages_for_season s
                                     (Wages.net Net w))) w)
                        = Some (e, cut)))
      \/ exists df,
           fst (fetch_fbref_wages_for_season s (Wages.net Net w)) = Ok df
           /\ Wages.results lg'
              = Wages.results lg
                ++ [(s, Z.of_nat (List.length df), Wages.wages_file outdir s)]
           /\ Wages.files Net w' !! Wages.wages_file outdir s
              = Some (Wages.WagesCsv df)).
Proof.
  unfold Wages.try_season.
  destruct (fetch_fbref_wages_for_season s (Wages.net Net w)) as [[df|e] n].
  - destruct (Wages.to_csv Net m _ _ _) as [[[]|e] w1] eqn:Hw.
    + pose proof (to_csv_world _ _ _ _ _ Hw) as (Hn & Hp & Hf).
      specialize (Hf eq_refl).
      destruct (Wages.print Net m _ w1) as [r w2] eqn:Hpr.
      pose proof (print_world _ _ _ _ Hpr) as [Hn2 Hf2].
      assert (Hfacts :
                Wages.net Net w2 = n
                /\ (forall p, p <> Wages.wages_file outdir s ->
                      Wages.files Net w2 !! p = Wages.files Net w !! p)
                /\ Wages.files Net w2 !! Wages.wages_file outdir s
                   = Some (Wages.WagesCsv df)).
      { rewrite Hn2, Hf2, Hn, Hf. split; [reflexivity |]. split.
        - intros p Hne. rewrite lookup_insert_ne by (apply not_eq_sym, Hne).
          reflexivity.
        - apply lookup_insert_eq. }
      destruct Hfacts as (F1 & F2 & F3).
      destruct r as [[]|e]; intros [= <- <- <-]; simpl;
        (split; [reflexivity |]); (split; [exact F1 |]);
        (split; [exact F2 |]); right; exists df; auto.
    + pose proof (to_csv_world _ _ _ _ _ Hw) as (Hn & Hp & _).
      intros [= <- <- <-]. simpl.
      split; [reflexivity |]. split; [exact Hn |]. split; [exact Hp |].
      left. split; [reflexivity |]. exists e. split; [reflexivity |].
      right. unfold Wages.to_csv in Hw.
      destruct (Wages.write_error Net m _ _ _) as [[e' cut]|] eqn:He;
        [|discriminate].
      exists df, cut. split; [reflexivity |].
      assert (e' = e) as -> by (destruct cut; congruence).
      exact He.
  - intros [= <- <- <-]. simpl. repeat split; try reflexivity.
    left. split; [reflexivity |]. exists e. auto.
Qed.

(** A round that the loop survives: the entries of its [try] block and,
    when the block raised, the entry of the failure. *)
Lemma scrape_season_cases (outdir s : pystr) (lg : Wages.logs)
    (w w' : Wages.world Net) (r : result Wages.logs) :
  Wages.scrape_season Net fetch_fbref_wages_for_season m outdir s (lg, w)
  = (r, w') ->
  exists caught lg1 w1,
    Wages.try_season Net fetch_fbref_wages_for_season m outdir s (lg, w)
    = (caught, lg1, w1)
    /\ Wages.net Net w' = Wages.net Net w1
    /\ Wages.files Net w' = Wages.files Net w1
    /\ forall lg',
         r = Ok lg' ->
         Wages.results lg' = Wages.results lg1
         /\ Wages.failures lg'
            = Wages.failures lg1
              ++ match caught with
                 | Some e => [(s, exn_str e)]
                 | None => []
                 end.
Proof.
  unfold Wages.scrape_season.
  destruct (Wages.try_season Net fetch_fbref_wages_for_season m outdir s (lg, w))
    as [[[e|] lg1] w1].
  - destruct (Wages.print Net m _ w1) as [r0 w2] eqn:Hpr.
    pose proof (print_world _ _ _ _ Hpr) as [Hn Hf].
    destruct r0 as [[]|e']; intros [= <- <-]; exists (Some e), lg1, w1;
      (split; [reflexivity |]); (split; [exact Hn |]); (split; [exact Hf |]).
    + intros lg' [= <-]. auto.
    + intros lg' H. discriminate H.
  - intros [= <- <-]. exists None, lg1, w1. repeat split.
    + injection H as <-. reflexivity.
    + injection H as <-. simpl. rewrite app_nil_r. reflexivity.
Qed.

Lemma write_reports_world (outdir : pystr) (lg : Wages.logs)
    (w w' : Wages.world Net) (r : result unit) :
  Wages.write_reports Net m outdir lg w = (r, w') ->
  Wages.net Net w' = Wages.net Net w
  /\ (forall p, p <> Wages.log_path outdir -> p <> Wages.fail_path outdir ->
        Wages.files Net w' !! p = Wages.files Net w !! p)
  /\ (r = Ok tt ->
      Wages.files Net w' !! Wages.log_path outdir
      = Some (Wages.RunLog (Wages.results lg))
      /\ Wages.files Net w' !! Wages.fail_path outdir
         = Some (Wages.Failures (Wages.failures lg))).
Proof.
  unfold Wages.write_reports.
  destruct (Wages.to_csv Net m (Wages.log_path outdir) _ w) as [r1 w1] eqn:H1.
  pose proof (to_csv_world _ _ _ _ _ H1) as (N1 & P1 & F1).
  destruct r1 as [[]|e1].
  - destruct (Wages.to_csv Net m (Wages.fail_path outdir) _ w1)
      as [r2 w2] eqn:H2.
    pose proof (to_csv_world _ _ _ _ _ H2) as (N2 & P2 & F2).
    destruct r2 as [[]|e2].
    + intros Hpr. pose proof (print_world _ _ _ _ Hpr) as [N3 F3].
      split; [congruence |]. split.
      * intros p Hl Hf. rewrite F3, P2, P1 by assumption. reflexivity.
      * intros _. rewrite F3, (F2 eq_refl), (F1 eq_refl). split.
        -- rewrite lookup_insert_ne
             by (apply not_eq_sym, log_path_not_fail_path).
           apply lookup_insert_eq.
        -- apply lookup_insert_eq.
    + intros [= <- <-]. split; [congruence |]. split; [|discriminate].
      intros p Hl Hf. rewrite P2, P1 by assumption. reflexivity.
  - intros [= <- <-]. split; [exact N1 |]. split; [|discriminate].
    intros p Hl Hf. apply P1, Hl.
Qed.

(** What a run that returns has gone through. *)
Lemma main_returned (start_season end_season outdir : pystr)
    (w w' : Wages.world Net) :
  Wages.main Net fetch_fbref_wages_for_season m start_season end_season
    outdir w = (Ok tt, w') ->
  exists seasons lg w1,
    Wages.make_season_list start_season end_season = Ok seasons
    /\ Wages.scrape_all Net fetch_fbref_wages_for_season m outdir seasons
         (no_logs, w) = (Ok lg, w1)
    /\ Wages.write_reports Net m outdir lg w1 = (Ok tt, w').
Proof.
  unfold Wages.main, Wages.makedirs.
  destruct (Wages.makedirs_error Net m outdir w); [discriminate |].
  destruct (Wages.make_season_list start_season end_season) as [seasons|e];
    [|discriminate].
  change {| Wages.results := []; Wages.failures := [] |} with no_logs.
  destruct (Wages.scrape_all Net fetch_fbref_wages_for_season m outdir seasons
              (no_logs, w)) as [[lg|e] w1] eqn:Hrun; [|discriminate].
  intros H. exists seasons, lg, w1. auto.
Qed.

End RunSteps.

(** ** The run with the seasons the slug refuses *)

Section RefusedSeasons.

Context {label : Type} `{EqDecision label}.
Variable label_str : label -> pystr.
Variable Net : Type.
Variable http_get : pystr -> Net -> result pystr * Net.
Variable read_html :
  pystr -> result (list (@Wages.table label (list (list Wages.pyvalue)))).
Variable sleep : Float64.float -> Net -> result unit * Net.
Variable sleep_seconds : Float64.float.
Variable m : Wages.machine Net.

Definition fetch_page (s : pystr) (n : Net)
  : result (list Wages.wage_row) * Net :=
  Fetch.fetch_fbref_wages_for_season label_str Net http_get read_html sleep
    s sleep_seconds n.

(** The entry of the failure list for a season the slug refuses. *)
Definition refusal (s : pystr) : pystr * pystr :=
  (s, exn_str Fetch.slug_error).

Definition refused (s : pystr) : Prop :=
  Fetch.season_slug s = Raise Fetch.slug_error.

Lemma fetch_refused (s : pystr) (n : Net) :
  refused s -> fetch_page s n = (Raise Fetch.slug_error, n).
Proof.
  unfold refused, fetch_page, Fetch.fetch_fbref_wages_for_season.
  intros ->. reflexivity.
Qed.

(** A round for a refused season: no request, no file, and the refusal
    entered when the loop goes on. *)
Lemma scrape_season_refused (outdir s : pystr) (lg : Wages.logs)
    (w w' : Wages.world Net) (r : result Wages.logs) :
  refused s ->
  Wages.scrape_season Net fetch_page m outdir s (lg, w) = (r, w') ->
  Wages.net Net w' = Wages.net Net w
  /\ Wages.files Net w' = Wages.files Net w
  /\ (forall lg', r = Ok lg' ->
        Wages.results lg' = Wages.results lg
        /\ Wages.failures lg' = Wages.failures lg ++ [refusal s])
  /\ (prints_all Net m -> exists lg', r = Ok lg').
Proof.
  intros Hs. unfold Wages.scrape_season, Wages.try_season.
  rewrite (fetch_refused s _ Hs).
  destruct (Wages.print Net m _ _) as [r0 w2] eqn:Hpr.
  pose proof (print_world _ _ _ _ _ _ Hpr) as [Hn Hf]. simpl in Hn, Hf.
  destruct r0 as [[]|e']; intros [= <- <-].
  - split; [exact Hn |]. split; [exact Hf |]. split; [|eauto].
    intros lg' [= <-]. auto.
  - split; [exact Hn |]. split; [exact Hf |]. split; [discriminate |].
    intros Hp. unfold Wages.print in Hpr. rewrite Hp in Hpr. discriminate.
Qed.

Lemma scrape_all_refused (outdir : pystr) (seasons : list pystr)
    (lg : Wages.logs) (w w' : Wages.world Net) (r : result Wages.logs) :
  Forall refused seasons ->
  Wages.scrape_all Net fetch_page m outdir seasons (lg, w) = (r, w') ->
  Wages.net Net w' = Wages.net Net w
  /\ Wages.files Net w' = Wages.files Net w
  /\ (forall lg', r = Ok lg' ->
        Wages.results lg' = Wages.results lg
        /\ Wages.failures lg'
           = Wages.failures lg ++ List.map refusal seasons)
  /\ (prints_all Net m -> exists lg', r = Ok lg').
Proof.
  intros Hall. revert lg w.
  induction Hall as [|s seasons Hs _ IH]; intros lg w; simpl.
  - intros [= <- <-]. split; [reflexivity |]. split; [reflexivity |].
    split; [|eauto]. intros lg' [= <-]. rewrite app_nil_r. auto.
  - destruct (Wages.scrape_season Net fetch_page m outdir s (lg, w))
      as [r1 w1] eqn:H1.
    destruct (scrape_season_refused _ _ _ _ _ _ Hs H1) as (N1 & F1 & L1 & P1).
    destruct r1 as [lg1|e1].
    + intros H2. destruct (IH _ _ H2) as (N2 & F2 & L2 & P2).
      destruct (L1 lg1 eq_refl) as [R1 Fl1].
      split; [congruence |]. split; [congruence |]. split; [|exact P2].
      intros lg' Hr. destruct (L2 lg' Hr) as [R2 Fl2].
      split; [congruence |]. rewrite Fl2, Fl1, <- app_assoc. reflexivity.
    + intros [= <- <-]. split; [exact N1 |]. split; [exact F1 |].
      split; [discriminate |]. intros Hp. destruct (P1 Hp) as [lg' H].
      discriminate H.
Qed.

(** X5.  When the first year of the end bound is below 1000 (bounds such
    as "0013-0014"), [make_season_list] returns seasons that [season_slug]
    refuses, every one of them: whatever happens, the run makes no request
    at all; when it returns it has recorded every season in the failure
    report with the format message and left the run log empty; and it does
    return on a machine that prints every line, makes the output directory
    and writes the two reports. *)
Theorem main_refused_seasons (start_season end_season a a' b b' outdir : pystr)
  (w : Wages.world Net) :
  season_bound start_season a a' -> season_bound end_season b b' ->
  int a <= int b -> int b < 1000 ->
  exists seasons,
    Wages.make_season_list start_season end_season = Ok seasons
    /\ List.length seasons = Z.to_nat (int b - int a + 1)
    /\ Wages.net Net
         (snd (Wages.main Net fetch_page m start_season end_season outdir w))
       = Wages.net Net w
    /\ (forall w',
          Wages.main Net fetch_page m start_season end_season outdir w
          = (Ok tt, w') ->
          Wages.files Net w' !! Wages.log_path outdir = Some (Wages.RunLog [])
          /\ Wages.files Net w' !! Wages.fail_path outdir
             = Some (Wages.Failures (List.map refusal seasons)))
    /\ (prints_all Net m ->
        Wages.makedirs_error Net m outdir w = None ->
        (forall f w0,
           Wages.write_error Net m (Wages.log_path outdir) f w0 = None) ->
        (forall f w0,
           Wages.write_error Net m (Wages.fail_path outdir) f w0 = None) ->
        exists w',
          Wages.main Net fetch_page m start_season end_season outdir w
          = (Ok tt, w')).
Proof.
  intros Hs He Hab Hb.
  pose proof (make_season_list_matched _ _ _ _ _ _ Hs He) as Hl.
  destruct (Z.ltb_spec (int b) (int a)) as [Hlt | _]; [lia |].
  set (seasons := List.map Wages.season_of_year (Wages.range (int a) (int b + 1))) in *.
  pose proof (int_four_digits a (proj1 Hs)) as Ha.
  assert (Hall : Forall refused seasons).
  { apply List.Forall_forall. intros s Hin.
    apply in_map_iff in Hin as (y & <- & Hy).
    apply In_range_inv in Hy. unfold refused.
    rewrite (season_of_year_slug y) by lia.
    replace ((1000 <=? y) && (y <=? 9998)) with false; [reflexivity |].
    symmetry. apply andb_false_iff. lia. }
  exists seasons. split; [exact Hl |]. split.
  { unfold seasons. rewrite length_map, range_length. f_equal. lia. }
  unfold Wages.main, Wages.makedirs. rewrite Hl.
  destruct (Wages.makedirs_error Net m outdir w) as [e0|] eqn:Hmk.
  { split; [reflexivity |]. split; [discriminate |].
    intros _ H. discriminate H. }
  change {| Wages.results := []; Wages.failures := [] |} with no_logs.
  destruct (Wages.scrape_all Net fetch_page m outdir seasons (no_logs, w))
    as [r1 w1] eqn:Hrun.
  destruct (scrape_all_refused _ _ _ _ _ _ Hall Hrun) as (N1 & F1 & L1 & P1).
  destruct r1 as [lg|e1].
  - destruct (L1 lg eq_refl) as [Hres Hfl]. simpl in Hres, Hfl.
    destruct (Wages.write_reports Net m outdir lg w1) as [r2 w2] eqn:Hrep.
    pose proof (write_reports_world _ _ _ _ _ _ _ Hrep) as (N2 & _ & F2).
    split; [simpl; congruence |]. split.
    + intros w' [= -> <-]. destruct (F2 eq_refl) as [G1 G2].
      rewrite Hres in G1. rewrite Hfl in G2. auto.
    + intros Hp _ Hwl Hwf.
      destruct (write_reports_written Net m outdir lg w1 Hp Hwl Hwf)
        as (w' & Hw' & _).
      rewrite Hrep in Hw'. injection Hw' as -> <-. eauto.
  - split; [exact N1 |]. split; [discriminate |].
    intros Hp _ _ _. destruct (P1 Hp) as [lg' H]. discriminate H.
Qed.

End RefusedSeasons.

Lemma str_0013_0014 : season_bound (str "0013-0014") (str "0013") (str "0014").
Proof. apply two_groups_spec. reflexivity. Qed.

Lemma str_0014_0015 : season_bound (str "0014-0015") (str "0014") (str "0015").
Proof. apply two_groups_spec. reflexivity. Qed.

Definition start_world : Wages.world nat :=
  {| Wages.net := 0%nat; Wages.files := ∅; Wages.stdout := [] |}.

Lemma main_refused_seasons_witness :
  exists seasons w',
    Wages.make_season_list (str "0013-0014") (str "0014-0015") = Ok seasons
    /\ List.length seasons = 2%nat
    /\ Wages.main nat
         (fetch_page id nat answer_all (page_of wages_page) sleep_checked
            (Float64.of_int 1))
         (quiet nat)
         (str "0013-0014") (str "0014-0015") (str "out") start_world
       = (Ok tt, w')
    /\ Wages.net nat w' = 0%nat
    /\ Wages.files nat w' !! Wages.log_path (str "out") = Some (Wages.RunLog []).
Proof.
  destruct (main_refused_seasons id nat answer_all (page_of wages_page)
              sleep_checked (Float64.of_int 1) (quiet nat)
              _ _ _ _ _ _ (str "out") start_world
              str_0013_0014 str_0014_0015)
    as (seasons & Hl & Hlen & Hn & Hfiles & Hret).
  - vm_compute. discriminate.
  - vm_compute. reflexivity.
  - destruct (Hret (fun _ _ => eq_refl) eq_refl (fun _ _ => eq_refl)
                (fun _ _ => eq_refl)) as [w' Hm].
    exists seasons, w'. split; [exact Hl |]. split; [exact Hlen |].
    split; [exact Hm |]. rewrite Hm in Hn. split; [exact Hn |].
    apply (Hfiles w' Hm).
Defined.

(** ** The files of the run *)

(** The year can be read back from the file name of a season. *)
Definition year_of_name (t : pystr) : Z := int (fst (Re.span is_digit t)).

Definition name_reads_back (y : Z) : bool :=
  year_of_name (replace hyphen [95%N] (Wages.season_of_year y)) =? y.

Lemma name_reads_back_all : forallb name_reads_back (Wages.range 0 10000) = true.
Proof. vm_compute. reflexivity. Qed.

Lemma wages_file_year (outdir : pystr) (y z : Z) :
  0 <= y <= 9999 -> 0 <= z <= 9999 ->
  Wages.wages_file outdir (Wages.season_of_year y)
  = Wages.wages_file outdir (Wages.season_of_year z) ->
  y = z.
Proof.
  intros Hy Hz. unfold Wages.wages_file.
  destruct (path_join_prefix outdir) as [prefix Hp]. rewrite !Hp.
  intros H. apply app_inv_head in H. apply (app_inv_head (str "wages_")) in H.
  apply app_inv_tail in H.
  pose proof name_reads_back_all as Hall. rewrite forallb_forall in Hall.
  pose proof (Hall y (In_range 0 10000 y ltac:(lia))) as H1.
  pose proof (Hall z (In_range 0 10000 z ltac:(lia))) as H2.
  unfold name_reads_back in H1, H2. rewrite H in H1. lia.
Qed.

Lemma range_NoDup (a b : Z) : List.NoDup (Wages.range a b).
Proof.
  unfold Wages.range. apply Finite.Injective_map_NoDup; [|apply seq_NoDup].
  intros i j. lia.
Qed.

Lemma wages_files_NoDup (outdir : pystr) (a b : Z) :
  0 <= a -> b <= 9999 ->
  List.NoDup (List.map (Wages.wages_file outdir)
                (List.map Wages.season_of_year (Wages.range a (b + 1)))).
Proof.
  intros Ha Hb. rewrite map_map.
  apply (Finite.Injective_map_NoDup_in
           (fun y => Wages.wages_file outdir (Wages.season_of_year y)));
    [|apply range_NoDup].
  intros y z Hy Hz. apply In_range_inv in Hy, Hz.
  apply wages_file_year; lia.
Qed.

Lemma wages_file_not_log (outdir s : pystr) :
  Wages.wages_file outdir s <> Wages.log_path outdir
  /\ Wages.wages_file outdir s <> Wages.fail_path outdir.
Proof.
  unfold Wages.wages_file, Wages.log_path, Wages.fail_path.
  destruct (path_join_prefix outdir) as [prefix Hp]. rewrite !Hp.
  split; intros H; apply app_inv_head in H; discriminate H.
Qed.

Section RunFiles.

Variable Net : Type.
Variable fetch_fbref_wages_for_season :
  pystr -> Net -> result (list Wages.wage_row) * Net.
Variable m : Wages.machine Net.

Abbreviation run_season := (Wages.scrape_season Net fetch_fbref_wages_for_season m).
Abbreviation run_all := (Wages.scrape_all Net fetch_fbref_wages_for_season m).

(** Every entry of [results] names a file that holds a table of as many
    rows as the entry says. *)
Definition entries_on_disk (lg : Wages.logs) (fs : gmap pystr Wages.file) : Prop :=
  forall s k file,
    In (s, k, file) (Wages.results lg) ->
    exists df, fs !! file = Some (Wages.WagesCsv df)
               /\ k = Z.of_nat (List.length df).

Definition entry_file (e : pystr * Z * pystr) : pystr := snd e.

Definition entry_season (e : pystr * Z * pystr) : pystr := fst (fst e).

Lemma run_season_files (outdir s : pystr) (lg lg' : Wages.logs)
    (w w' : Wages.world Net) :
  run_season outdir s (lg, w) = (Ok lg', w') ->
  entries_on_disk lg (Wages.files Net w) ->
  (forall e, In e (Wages.results lg) ->
             entry_file e <> Wages.wages_file outdir s) ->
  entries_on_disk lg' (Wages.files Net w')
  /\ forall e, In e (Wages.results lg') ->
       In e (Wages.results lg)
       \/ (entry_file e = Wages.wages_file outdir s /\ entry_season e = s).
Proof.
  intros Hrun Hinv Hfresh.
  destruct (scrape_season_cases _ _ _ _ _ _ _ _ _ Hrun)
    as (caught & lg1 & w1 & Htry & _ & Hfiles & Hlg).
  destruct (Hlg lg' eq_refl) as [Hres _].
  destruct (try_season_cases _ _ _ _ _ _ _ _ _ _ Htry)
    as (_ & _ & Hother & [[Hsame _] | (df & _ & Hnew & Hfile)]).
  - unfold entries_on_disk. rewrite Hres, Hsame, Hfiles. split; [|auto].
    intros s0 k file Hin. destruct (Hinv s0 k file Hin) as (df0 & Hf & Hk).
    exists df0. split; [|exact Hk]. rewrite Hother; [exact Hf |].
    exact (Hfresh _ Hin).
  - unfold entries_on_disk. rewrite Hres, Hnew, Hfiles. split.
    + intros s0 k file Hin.
      apply in_app_iff in Hin as [Hin | [[= <- <- <-] | []]].
      * destruct (Hinv s0 k file Hin) as (df0 & Hf & Hk).
        exists df0. split; [|exact Hk]. rewrite Hother; [exact Hf |].
        exact (Hfresh _ Hin).
      * exists df. auto.
    + intros e Hin. apply in_app_iff in Hin as [Hin | [<- | []]]; auto.
Qed.

Lemma run_all_files (outdir : pystr) (seasons : list pystr)
    (lg lg' : Wages.logs) (w w' : Wages.world Net) :
  List.NoDup (List.map (Wages.wages_file outdir) seasons) ->
  run_all outdir seasons (lg, w) = (Ok lg', w') ->
  entries_on_disk lg (Wages.files Net w) ->
  (forall e, In e (Wages.results lg) ->
             ~ In (entry_file e) (List.map (Wages.wages_file outdir) seasons)) ->
  entries_on_disk lg' (Wages.files Net w')
  /\ forall e, In e (Wages.results lg') ->
       In e (Wages.results lg)
       \/ entry_file e = Wages.wages_file outdir (entry_season e).
Proof.
  revert lg w. induction seasons as [|s seasons IH];
    intros lg w Hnd Hrun Hinv Hfresh.
  - simpl in Hrun. injection Hrun as <- <-. auto.
  - simpl in Hrun.
    destruct (run_season outdir s (lg, w)) as [[lg1|e1] w1] eqn:H1;
      [|discriminate].
    simpl in Hnd. inversion Hnd as [|? ? Hs Hnd']; subst.
    destruct (run_season_files outdir s lg lg1 w w1 H1 Hinv) as [Hinv' Hres].
    { intros e Hin Heq. apply (Hfresh e Hin). left. symmetry. exact Heq. }
    destruct (IH lg1 w1 Hnd' Hrun Hinv') as [Hd Hall].
    { intros e Hin. destruct (Hres e Hin) as [Hold | [Hnew _]].
      - intros Hc. apply (Hfresh e Hold). right. exact Hc.
      - rewrite Hnew. exact Hs. }
    split; [exact Hd |]. intros e Hin.
    destruct (Hall e Hin) as [Hin1 | Hf]; [|auto].
    destruct (Hres e Hin1) as [Hold | [Hnew Hse]]; [auto |].
    right. rewrite Hse. exact Hnew.
Qed.

(** X12.  At the end of a run every entry (season, rows, file) of the run
    log names a file of the output directory that exists and holds a table
    of exactly that many rows: of the files the run writes, no two have the
    same name (the seasons of the list give different files, and none is
    the run log or the failure report), and a write that fails touches no
    file but its own. *)
Theorem main_run_log_files (start_season end_season outdir : pystr)
  (w w' : Wages.world Net) :
  Wages.main Net fetch_fbref_wages_for_season m start_season end_season outdir w
    = (Ok tt, w') ->
  exists entries,
    Wages.files Net w' !! Wages.log_path outdir = Some (Wages.RunLog entries)
    /\ forall s k file,
         In (s, k, file) entries ->
         exists df, Wages.files Net w' !! file = Some (Wages.WagesCsv df)
                    /\ k = Z.of_nat (List.length df)
                    /\ file = Wages.wages_file outdir s.
Proof.
  intros Hmain.
  destruct (main_returned _ _ _ _ _ _ _ _ Hmain)
    as (seasons & lg & w1 & Hl & Hrun & Hrep).
  assert (Hnd : List.NoDup (List.map (Wages.wages_file outdir) seasons)).
  { revert Hl. unfold Wages.make_season_list.
    destruct (Re.two_groups 4 4 start_season) as [[a a']|] eqn:Hs; [|discriminate].
    destruct (Re.two_groups 4 4 end_season) as [[b b']|] eqn:He; [|discriminate].
    apply two_groups_spec in Hs as (La & _), He as (Lb & _). simpl.
    destruct (int b <? int a); [discriminate |]. intros [= <-].
    pose proof (int_four_digits a La). pose proof (int_four_digits b Lb).
    apply wages_files_NoDup; lia. }
  destruct (run_all_files outdir seasons no_logs lg w w1 Hnd Hrun)
    as [Hdisk Hnames]; [intros ? ? ? [] | intros ? [] |].
  pose proof (write_reports_world _ _ _ _ _ _ _ Hrep) as (_ & Hother & Hwritten).
  destruct (Hwritten eq_refl) as [Hlog _].
  exists (Wages.results lg). split; [exact Hlog |].
  intros s k file Hin.
  destruct (Hdisk s k file Hin) as (df & Hf & Hk).
  destruct (Hnames _ Hin) as [[] | Hfile].
  unfold entry_file, entry_season in Hfile. simpl in Hfile.
  exists df. split; [|auto]. rewrite Hfile in *.
  destruct (wages_file_not_log outdir s) as [Hn1 Hn2].
  rewrite Hother by assumption. exact Hf.
Qed.

(** A run returns on a machine that prints every line, makes the output
    directory and writes the two reports. *)
Lemma main_returns (start_season end_season outdir : pystr)
    (w : Wages.world Net) (seasons : list pystr) :
  prints_all Net m ->
  Wages.makedirs_error Net m outdir w = None ->
  (forall f w0, Wages.write_error Net m (Wages.log_path outdir) f w0 = None) ->
  (forall f w0, Wages.write_error Net m (Wages.fail_path outdir) f w0 = None) ->
  Wages.make_season_list start_season end_season = Ok seasons ->
  exists w',
    Wages.main Net fetch_fbref_wages_for_season m start_season end_season
      outdir w = (Ok tt, w').
Proof.
  intros Hp Hmk Hwl Hwf Hl. unfold Wages.main, Wages.makedirs.
  rewrite Hmk, Hl.
  change {| Wages.results := []; Wages.failures := [] |} with no_logs.
  destruct (scrape_all_logs Net fetch_fbref_wages_for_season m outdir seasons
              no_logs w Hp) as [w1 ->].
  destruct (write_reports_written Net m outdir
              {| Wages.results :=
                   Wages.results no_logs
                   ++ successes
                        (outcomes Net fetch_fbref_wages_for_season m outdir
                           seasons w);
                 Wages.failures :=
                   Wages.failures no_logs
                   ++ failed
                        (outcomes Net fetch_fbref_wages_for_season m outdir
                           seasons w) |} w1 Hp Hwl Hwf)
    as (w' & Hw' & _).
  exists w'. exact Hw'.
Qed.

End RunFiles.

Lemma main_run_log_files_witness :
  exists w' entries,
    Wages.main unit site_down_in_2014 (quiet unit)
      (str "2013-2014") (str "2015-2016") (str "out") empty_world = (Ok tt, w')
    /\ Wages.files unit w' !! str "out/run_log.csv" = Some (Wages.RunLog entries)
    /\ forall s k file,
         In (s, k, file) entries ->
         exists df, Wages.files unit w' !! file = Some (Wages.WagesCsv df)
                    /\ k = Z.of_nat (List.length df)
                    /\ file = Wages.wages_file (str "out") s.
Proof.
  destruct (main_returns unit site_down_in_2014 (quiet unit)
              (str "2013-2014") (str "2015-2016") (str "out") empty_world
              [str "2013-2014"; str "2014-2015"; str "2015-2016"]
              (fun _ _ => eq_refl) eq_refl (fun _ _ => eq_refl)
              (fun _ _ => eq_refl) eq_refl)
    as [w' Hm].
  destruct (main_run_log_files unit site_down_in_2014 (quiet unit) _ _ _ _ _ Hm)
    as (entries & Hlog & Hall).
  exists w', entries. split; [exact Hm |]. split; [exact Hlog | exact Hall].
Defined.

(** ** 01_data_preparation.py: a sheet and the stacked table *)

Module Sheets.

(** A sheet as read from the workbook: the names of its columns, the
    values of each column (a column is a list of cells, one for each row)
    and its number of rows. *)
Record frame : Type := {
  names : list pystr;
  columns : list (list cell);
  height : nat
}.

(** [df[name] = value] for a scalar [value]: every column that bears the
    name is filled with the value; when none does, a new column comes
    last. *)
Definition set_column (name : pystr) (value : cell) (df : frame) : frame :=
  let filled := repeat value (height df) in
  if Prep.has_column name (names df) then
    {| names := names df;
       columns :=
         zip_with (fun n col => if eqb n name then filled else col)
           (names df) (columns df);
       height := height df |}
  else
    {| names := names df ++ [name];
       columns := columns df ++ [filled];
       height := height df |}.

(** The body of the loop over the sheets, for the sheet named [sheet]. *)
Definition prepare_sheet (sheet : pystr) (df : frame) : frame :=
  let df := {| names := List.map strip (names df);
               columns := columns df;
               height := height df |} in
  let df := set_column (str "season")
              (Text (Prep.normalise_season_value sheet)) df in
  {| names := Prep.standardise_columns (names df);
     columns := columns df;
     height := height df |}.

(** [stacked.duplicated(subset=["season", "club"], keep=False)] marks every
    row whose key occurs in another row as well; [dupes] is the rows
    marked, in the order of the table ([sort_values] then only reorders
    them).  The key of a row is its season and club as pandas compares
    them. *)
Section Duplicates.

Context {R K : Type} `{EqDecision K}.
Variable key : R -> K.

Definition occurrences (k : K) (rows : list R) : nat :=
  List.length (List.filter (fun r => bool_decide (key r = k)) rows).

Definition duplicated (rows : list R) : list bool :=
  List.map (fun r => (2 <=? occurrences (key r) rows)%nat) rows.

Definition dupes (rows : list R) : list R :=
  List.map fst
    (List.filter snd (combine rows (duplicated rows))).

End Duplicates.

End Sheets.

(** ** 02_analysis.py: parts 1 to 4 on the stacked table *)

Module Analysis.

(** [rename_map] *)
Definition rename_map (c : pystr) : pystr :=
  if eqb c (str "Season") then str "season_excel"
  else if eqb c (str "League position") then str "league_position"
  else if eqb c (str "Points total") then str "points_total"
  else c.

(** Part 1: the rename and the drop of [season_excel]. *)
Definition normalise_names (cols : list pystr) : list pystr :=
  let cols := List.map rename_map cols in
  if Prep.has_column (str "season_excel") cols then
    List.filter (fun c => negb (eqb c (str "season_excel"))) cols
  else cols.

Definition key_cols : list pystr :=
  [str "total_wage_bill_gbp_m"; str "league_position"; str "points_total";
   str "gross_transfer_spend_gbp_m"; str "promoted"].

(** What stops the script in parts 2 to 4: an exception of a call of
    [print], a [KeyError] for the labels a selection does not find, a
    [TypeError] when [pd.to_numeric] is given the several columns that bear
    one name, the exception of the cast to integers. *)
Inductive failure : Type :=
  | PrintError (line : nat) (e : exn)
  | KeyError (missing : list pystr)
  | TypeError (column : pystr)
  | CastError (e : exn).

(** [df[labels]]: the labels that are not columns. *)
Definition missing_labels (labels cols : list pystr) : list pystr :=
  List.filter (fun l => negb (Prep.has_column l cols)) labels.

Definition count (name : pystr) (cols : list pystr) : nat :=
  List.length (List.filter (eqb name) cols).

(** The table read from the stacked file: its columns in order, each with
    its name and its cells. *)
Definition table : Type := list (pystr * list cell).

Definition names (df : table) : list pystr := List.map fst df.

(** Part 1 on the table. *)
Definition normalise (df : table) : table :=
  let df := List.map (fun c => (rename_map (fst c), snd c)) df in
  if Prep.has_column (str "season_excel") (names df) then
    List.filter (fun c => negb (eqb (fst c) (str "season_excel"))) df
  else df.

(** [df[name]] when one column bears the name. *)
Definition column (name : pystr) (df : table) : list cell :=
  match List.find (fun c => eqb name (fst c)) df with
  | Some c => snd c
  | None => []
  end.

Definition and_then {A B : Type} (x : failure + A) (k : A -> failure + B)
  : failure + B :=
  match x with
  | inl f => inl f
  | inr a => k a
  end.

Notation "x >>> y" := (and_then x (fun _ => y))
  (at level 62, right associativity).

Section Script.

(** How pandas reads a text as a number, and which calls of [print] raise
    (a call is named by its line in the script; what it prints depends on
    the table). *)
Variable text_to_number : pystr -> option Float64.float.
Variable print_error : nat -> table -> option exn.

Definition printing (line : nat) (df : table) : failure + unit :=
  match print_error line df with
  | Some e => inl (PrintError line e)
  | None => inr tt
  end.

(** [df[labels]] *)
Definition selecting (labels : list pystr) (df : table) : failure + unit :=
  match missing_labels labels (names df) with
  | [] => inr tt
  | _ :: _ as missing => inl (KeyError missing)
  end.

(** The loop of lines 49 and 50: [pd.to_numeric] refuses the first key
    column whose name is borne by several columns. *)
Definition to_numeric_loop (df : table) : failure + unit :=
  match List.filter (fun c => (2 <=? count c (names df))%nat) key_cols with
  | [] => inr tt
  | c :: _ => inl (TypeError c)
  end.

(** Line 53, on the cells of the promotion column as they were read. *)
Definition cast_promoted (df : table) : failure + list Z :=
  match coerce_promoted text_to_number (column (str "promoted") df) with
  | Ok flags => inr flags
  | Raise e => inl (CastError e)
  end.

(** Parts 1 to 4 of the script, lines 15 to 53: the promotion flags it
    goes on with, or what stops it.  A selection is made before the line
    that prints it. *)
Definition parts_1_to_4 (df : table) : failure + list Z :=
  let df := normalise df in
  printing 25 df >>> printing 26 df >>> printing 28 df >>>
  selecting [str "season"; str "club"] df >>> printing 29 df >>>
  printing 42 df >>>
  selecting key_cols df >>> printing 43 df >>>
  to_numeric_loop df >>>
  cast_promoted df.

End Script.

End Analysis.

(** ** More on the column names of a sheet *)

Lemma rename_lookup (c0 new : pystr) (l : list pystr) (i : nat) (c : pystr) :
  l !! i = Some c ->
  Prep.rename c0 new l !! i = Some (if eqb c c0 then new else c).
Proof.
  intros H. unfold Prep.rename.
  change (List.map ?f l) with (f <$> l). rewrite list_lookup_fmap, H. reflexivity.
Qed.

Lemma rename_length (c0 new : pystr) (l : list pystr) :
  List.length (Prep.rename c0 new l) = List.length l.
Proof. apply length_map. Qed.

(** The first column that passes a test. *)
Definition first_col (p : pystr -> bool) (l : list pystr) : option pystr :=
  head (List.filter p l).

Lemma first_col_passes (p : pystr -> bool) (l : list pystr) (c : pystr) :
  first_col p l = Some c -> p c = true /\ In c l.
Proof.
  unfold first_col. intros H.
  assert (Hin : In c (List.filter p l)).
  { destruct (List.filter p l); [discriminate |]. injection H as ->. left. reflexivity. }
  apply filter_In in Hin. tauto.
Qed.

(** One guarded search and rename. *)
Definition search_rename (p : pystr -> bool) (new : pystr) (l : list pystr)
  : list pystr :=
  match first_col p l with
  | Some c0 => if negb (eqb c0 new) then Prep.rename c0 new l else l
  | None => l
  end.

Lemma standardise_promoted_search (l : list pystr) :
  Prep.standardise_promoted l = search_rename Prep.prom_like (str "promoted") l.
Proof.
  unfold Prep.standardise_promoted, search_rename, first_col.
  destruct (List.filter Prep.prom_like l); reflexivity.
Qed.

Lemma standardise_spend_search (l : list pystr) :
  Prep.standardise_spend l = search_rename Prep.spend_like Prep.spend_name l.
Proof.
  unfold Prep.standardise_spend, search_rename, first_col.
  destruct (List.filter Prep.spend_like l); reflexivity.
Qed.

Lemma search_rename_cases (p : pystr -> bool) (new : pystr) (l : list pystr) :
  search_rename p new l = l
  \/ exists c0, p c0 = true /\ c0 <> new /\ search_rename p new l = Prep.rename c0 new l.
Proof.
  unfold search_rename. destruct (first_col p l) as [c0|] eqn:Hf; [|auto].
  destruct (eqb c0 new) eqn:He; simpl; [auto |].
  right. exists c0. apply eqb_neq in He. apply first_col_passes in Hf. tauto.
Qed.

Lemma standardise_club_cases (l : list pystr) :
  Prep.standardise_club l = l
  \/ exists c0, Prep.club_like c0 = true /\ c0 <> str "club"
                /\ Prep.has_column (str "club") l = false /\ In c0 l
                /\ Prep.standardise_club l = Prep.rename c0 (str "club") l.
Proof.
  unfold Prep.standardise_club.
  destruct (Prep.has_column (str "club") l) eqn:Hc; simpl; [auto |].
  destruct (List.filter Prep.club_like l) as [|c0 rest] eqn:Hf; [auto |].
  right. exists c0.
  assert (Hin : In c0 (List.filter Prep.club_like l)) by (rewrite Hf; left; reflexivity).
  apply filter_In in Hin as [Hin Hp].
  repeat split; try assumption.
  intros ->. apply has_column_In in Hin. congruence.
Qed.

(** What one rename does to the column at a position. *)
Definition renamed_by (p : pystr -> bool) (new c c' : pystr) : Prop :=
  c' = c \/ (c' = new /\ p c = true /\ c <> new).

Lemma rename_renamed_by (p : pystr -> bool) (c0 new : pystr) (l : list pystr)
  (i : nat) (c : pystr) :
  p c0 = true -> c0 <> new -> l !! i = Some c ->
  exists c', Prep.rename c0 new l !! i = Some c' /\ renamed_by p new c c'.
Proof.
  intros Hp Hne Hc. rewrite (rename_lookup c0 new l i c Hc).
  eexists. split; [reflexivity |]. unfold renamed_by.
  destruct (eqb c c0) eqn:He; [|auto].
  apply eqb_eq in He. subst. auto.
Qed.

Lemma search_rename_lookup (p : pystr -> bool) (new : pystr) (l : list pystr)
  (i : nat) (c : pystr) :
  l !! i = Some c ->
  exists c', search_rename p new l !! i = Some c' /\ renamed_by p new c c'.
Proof.
  intros Hc. destruct (search_rename_cases p new l) as [-> | (c0 & Hp & Hne & ->)].
  - exists c. split; [exact Hc | left; reflexivity].
  - apply rename_renamed_by; assumption.
Qed.

Lemma standardise_club_lookup (l : list pystr) (i : nat) (c : pystr) :
  l !! i = Some c ->
  exists c', Prep.standardise_club l !! i = Some c'
             /\ renamed_by Prep.club_like (str "club") c c'.
Proof.
  intros Hc.
  destruct (standardise_club_cases l) as [-> | (c0 & Hp & Hne & _ & _ & ->)].
  - exists c. split; [exact Hc | left; reflexivity].
  - apply rename_renamed_by; assumption.
Qed.

(** The three renames on the column at one position: it keeps its name, or
    it is a candidate of one search and gets the name of that search. *)
Lemma standardise_columns_lookup (l : list pystr) (i : nat) (c : pystr) :
  l !! i = Some c ->
  exists c',
    Prep.standardise_columns l !! i = Some c'
    /\ (c' = c
        \/ (c' = str "club" /\ Prep.club_like c = true)
        \/ (c' = str "promoted" /\ Prep.prom_like c = true)
        \/ (c' = Prep.spend_name /\ Prep.spend_like c = true)).
Proof.
  intros Hc. unfold Prep.standardise_columns.
  destruct (standardise_club_lookup l i c Hc) as (c1 & H1 & R1).
  rewrite standardise_spend_search, standardise_promoted_search.
  destruct (search_rename_lookup Prep.prom_like (str "promoted") _ i c1 H1)
    as (c2 & H2 & R2).
  destruct (search_rename_lookup Prep.spend_like Prep.spend_name _ i c2 H2)
    as (c3 & H3 & R3).
  exists c3. split; [exact H3 |].
  destruct R3 as [-> | (-> & P3 & _)].
  - destruct R2 as [-> | (-> & P2 & _)].
    + destruct R1 as [-> | (-> & P1 & _)]; auto.
    + destruct R1 as [-> | (-> & P1 & _)]; [auto | discriminate P2].
  - destruct R2 as [-> | (-> & P2 & _)]; [|discriminate P3].
    destruct R1 as [-> | (-> & P1 & _)]; [auto 6 | discriminate P3].
Qed.

Lemma search_rename_length (p : pystr -> bool) (new : pystr) (l : list pystr) :
  List.length (search_rename p new l) = List.length l.
Proof.
  destruct (search_rename_cases p new l) as [-> | (c0 & _ & _ & ->)];
    [reflexivity | apply rename_length].
Qed.

Lemma standardise_columns_length (l : list pystr) :
  List.length (Prep.standardise_columns l) = List.length l.
Proof.
  unfold Prep.standardise_columns.
  rewrite standardise_spend_search, standardise_promoted_search.
  rewrite !search_rename_length.
  destruct (standardise_club_cases l) as [-> | (c0 & _ & _ & _ & _ & ->)];
    [reflexivity | apply rename_length].
Qed.

(** X9.  The reconciliation never drops, adds or moves a column: the
    sheet keeps its number of columns, and the column at each position
    either keeps its name or, being a candidate of one of the three
    searches, gets the canonical name of that search.  A column that is a
    candidate of none (such as "season" or "Points total") always keeps its
    name. *)
Theorem standardise_columns_renames_candidates (cols : list pystr) :
  List.length (Prep.standardise_columns cols) = List.length cols
  /\ (forall i c, cols !! i = Some c ->
        exists c',
          Prep.standardise_columns cols !! i = Some c'
          /\ (c' = c
              \/ (c' = str "club" /\ Prep.club_like c = true)
              \/ (c' = str "promoted" /\ Prep.prom_like c = true)
              \/ (c' = Prep.spend_name /\ Prep.spend_like c = true)))
  /\ (forall i c, cols !! i = Some c ->
        Prep.club_like c = false -> Prep.prom_like c = false ->
        Prep.spend_like c = false ->
        Prep.standardise_columns cols !! i = Some c).
Proof.
  split; [apply standardise_columns_length |]. split.
  - apply standardise_columns_lookup.
  - intros i c Hc H1 H2 H3.
    destruct (standardise_columns_lookup cols i c Hc)
      as (c' & Hc' & [-> | [[_ H] | [[_ H] | [_ H]]]]); congruence.
Qed.

Lemma standardise_columns_renames_candidates_witness :
  Prep.standardise_columns
    [str "Club"; str "Club name"; str "season"; str "Points total"] !! 3%nat
  = Some (str "Points total").
Proof.
  apply (proj2 (proj2 (standardise_columns_renames_candidates
                         [str "Club"; str "Club name"; str "season";
                          str "Points total"])) 3%nat);
    reflexivity.
Defined.

(** *** A second pass over a reconciled sheet *)

Lemma first_col_cons (p : pystr -> bool) (c : pystr) (l : list pystr) :
  first_col p (c :: l) = if p c then Some c else first_col p l.
Proof. unfold first_col. simpl. destruct (p c); reflexivity. Qed.

Lemma first_col_rename_other (p : pystr -> bool) (c0 new : pystr) (l : list pystr) :
  p new = false -> first_col p l <> Some c0 ->
  first_col p (Prep.rename c0 new l) = first_col p l.
Proof.
  intros Hn. induction l as [|c l IH]; intros Hf; [reflexivity |].
  change (Prep.rename c0 new (c :: l))
    with ((if eqb c c0 then new else c) :: Prep.rename c0 new l).
  rewrite !first_col_cons in *.
  destruct (eqb c c0) eqn:He.
  - apply eqb_eq in He. subst c. rewrite Hn.
    destruct (p c0); [congruence | apply IH, Hf].
  - destruct (p c); [reflexivity | apply IH, Hf].
Qed.

Lemma first_col_rename_hit (p : pystr -> bool) (c0 new : pystr) (l : list pystr) :
  p new = true -> first_col p l = Some c0 ->
  first_col p (Prep.rename c0 new l) = Some new.
Proof.
  intros Hn. induction l as [|c l IH]; intros Hf; [discriminate |].
  change (Prep.rename c0 new (c :: l))
    with ((if eqb c c0 then new else c) :: Prep.rename c0 new l).
  rewrite !first_col_cons in *.
  destruct (eqb c c0) eqn:He.
  - rewrite Hn. reflexivity.
  - destruct (p c).
    + injection Hf as ->. rewrite eqb_refl in He. discriminate.
    + apply IH, Hf.
Qed.

Lemma search_rename_fixed (p : pystr -> bool) (new : pystr) (l : list pystr) :
  first_col p l = Some new \/ first_col p l = None ->
  search_rename p new l = l.
Proof.
  unfold search_rename. intros [-> | ->]; [|reflexivity].
  rewrite eqb_refl. reflexivity.
Qed.

Lemma search_rename_first (p : pystr -> bool) (new : pystr) (l : list pystr) :
  p new = true ->
  first_col p (search_rename p new l) = Some new
  \/ first_col p (search_rename p new l) = None.
Proof.
  intros Hn. unfold search_rename.
  destruct (first_col p l) as [c0|] eqn:Hf; [|auto].
  destruct (eqb c0 new) eqn:He; simpl.
  - apply eqb_eq in He. subst. auto.
  - left. apply first_col_rename_hit; assumption.
Qed.

(** A later search does not disturb the outcome of an earlier one. *)
Lemma search_rename_keeps_first (p q : pystr -> bool) (new newq : pystr)
  (l : list pystr) :
  p newq = false -> q new = false ->
  first_col p l = Some new \/ first_col p l = None ->
  first_col p (search_rename q newq l) = first_col p l.
Proof.
  intros Hpq Hqn Hf.
  destruct (search_rename_cases q newq l) as [-> | (c0 & Hq & _ & ->)];
    [reflexivity |].
  apply first_col_rename_other; [exact Hpq |].
  intros Hc. destruct Hf as [Hf | Hf]; rewrite Hf in Hc; [|discriminate].
  injection Hc as <-. congruence.
Qed.

(** The club search has nothing left to do. *)
Definition club_settled (l : list pystr) : Prop :=
  Prep.has_column (str "club") l = true \/ List.filter Prep.club_like l = [].

Lemma club_settled_fixed (l : list pystr) :
  club_settled l -> Prep.standardise_club l = l.
Proof.
  unfold Prep.standardise_club. intros [-> | ->]; [reflexivity |].
  destruct (negb _); reflexivity.
Qed.

Lemma rename_keeps_column (name c0 new : pystr) (l : list pystr) :
  c0 <> name -> Prep.has_column name l = true ->
  Prep.has_column name (Prep.rename c0 new l) = true.
Proof.
  intros Hne H. apply has_column_In. apply has_column_In in H.
  unfold Prep.rename. apply in_map_iff. exists name. split; [|exact H].
  destruct (eqb name c0) eqn:He; [|reflexivity].
  apply eqb_eq in He. congruence.
Qed.

Lemma filter_nil_Forall (p : pystr -> bool) (l : list pystr) :
  List.filter p l = [] <-> Forall (fun c => p c = false) l.
Proof.
  induction l as [|c l IH]; simpl.
  - split; [constructor | reflexivity].
  - destruct (p c) eqn:Hc.
    + split; [discriminate |]. intros H. inversion H; congruence.
    + rewrite IH. split; [constructor; assumption |].
      intros H. inversion H; assumption.
Qed.

Lemma rename_club_settled (c0 new : pystr) (l : list pystr) :
  c0 <> str "club" -> Prep.club_like new = false ->
  club_settled l -> club_settled (Prep.rename c0 new l).
Proof.
  intros Hne Hnew [Hc | Hf].
  - left. apply rename_keeps_column; assumption.
  - right. apply filter_nil_Forall. apply filter_nil_Forall in Hf.
    unfold Prep.rename. apply Forall_map.
    eapply Forall_impl; [exact Hf |]. intros c Hc. simpl.
    destruct (eqb c c0); assumption.
Qed.

Lemma standardise_club_settled (l : list pystr) :
  club_settled (Prep.standardise_club l).
Proof.
  unfold club_settled, Prep.standardise_club.
  destruct (Prep.has_column (str "club") l) eqn:Hc; simpl; [auto |].
  destruct (List.filter Prep.club_like l) as [|c0 rest] eqn:Hf; [auto |].
  left. apply has_column_In. unfold Prep.rename.
  apply in_map_iff. exists c0. rewrite eqb_refl. split; [reflexivity |].
  assert (Hin : In c0 (List.filter Prep.club_like l))
    by (rewrite Hf; left; reflexivity).
  apply filter_In in Hin. tauto.
Qed.

Lemma search_rename_club_settled (p : pystr -> bool) (new : pystr) (l : list pystr) :
  p (str "club") = false -> Prep.club_like new = false ->
  club_settled l -> club_settled (search_rename p new l).
Proof.
  intros Hp Hnew Hs.
  destruct (search_rename_cases p new l) as [-> | (c0 & Hc0 & _ & ->)];
    [exact Hs |].
  apply rename_club_settled; [|exact Hnew | exact Hs].
  intros ->. congruence.
Qed.

(** X8.  Reconciling the column names of a sheet that has been reconciled
    changes nothing, whatever the names were. *)
Theorem standardise_columns_idempotent (cols : list pystr) :
  Prep.standardise_columns (Prep.standardise_columns cols)
  = Prep.standardise_columns cols.
Proof.
  unfold Prep.standardise_columns at 2 3.
  rewrite standardise_spend_search, standardise_promoted_search.
  set (l1 := Prep.standardise_club cols).
  set (l2 := search_rename Prep.prom_like (str "promoted") l1).
  set (l3 := search_rename Prep.spend_like Prep.spend_name l2).
  assert (Hclub : club_settled l3).
  { apply search_rename_club_settled; [reflexivity .. |].
    apply search_rename_club_settled; [reflexivity .. |].
    apply standardise_club_settled. }
  assert (Hprom2 : first_col Prep.prom_like l2 = Some (str "promoted")
                   \/ first_col Prep.prom_like l2 = None)
    by (apply search_rename_first; reflexivity).
  assert (Hprom : first_col Prep.prom_like l3 = Some (str "promoted")
                  \/ first_col Prep.prom_like l3 = None).
  { unfold l3.
    rewrite (search_rename_keeps_first Prep.prom_like Prep.spend_like
               (str "promoted") Prep.spend_name l2);
      [exact Hprom2 | reflexivity | reflexivity | exact Hprom2]. }
  assert (Hspend : first_col Prep.spend_like l3 = Some Prep.spend_name
                   \/ first_col Prep.spend_like l3 = None)
    by (apply search_rename_first; reflexivity).
  unfold Prep.standardise_columns.
  rewrite (club_settled_fixed l3 Hclub).
  rewrite standardise_promoted_search, (search_rename_fixed _ _ l3 Hprom).
  rewrite standardise_spend_search. apply search_rename_fixed, Hspend.
Qed.

(** ** The season of a sheet *)

Lemma standardise_columns_season (l : list pystr) (i : nat) :
  Prep.standardise_columns l !! i = Some (str "season")
  <-> l !! i = Some (str "season").
Proof.
  split.
  - intros H.
    assert (Hlt : (i < List.length l)%nat).
    { rewrite <- standardise_columns_length. eapply lookup_lt_Some, H. }
    destruct (lookup_lt_is_Some_2 l i Hlt) as [c Hc].
    destruct (standardise_columns_lookup l i c Hc) as (c' & Hc' & Hcase).
    rewrite H in Hc'. injection Hc' as <-.
    destruct Hcase as [<- | [[Hn _] | [[Hn _] | [Hn _]]]];
      [exact Hc | discriminate Hn ..].
  - intros H.
    destruct (standardise_columns_lookup l i _ H)
      as (c' & Hc' & [-> | [[_ Hn] | [[_ Hn] | [_ Hn]]]]);
      [exact Hc' | discriminate Hn ..].
Qed.

Lemma standardise_columns_other (l : list pystr) (i : nat) (n : pystr) :
  Prep.standardise_columns l !! i = Some n -> n <> str "season" ->
  exists c, l !! i = Some c /\ c <> str "season".
Proof.
  intros H Hn.
  assert (Hlt : (i < List.length l)%nat).
  { rewrite <- standardise_columns_length. eapply lookup_lt_Some, H. }
  destruct (lookup_lt_is_Some_2 l i Hlt) as [c Hc].
  exists c. split; [exact Hc |]. intros ->.
  apply (proj2 (standardise_columns_season _ _)) in Hc. congruence.
Qed.

Lemma set_column_names (name : pystr) (v : cell) (df : Sheets.frame) :
  Sheets.names (Sheets.set_column name v df)
  = Prep.assign_column name (Sheets.names df).
Proof.
  unfold Sheets.set_column, Prep.assign_column.
  destruct (Prep.has_column name (Sheets.names df)); reflexivity.
Qed.

Lemma set_column_values (name : pystr) (v : cell) (df : Sheets.frame) (i : nat)
  (n : pystr) :
  List.length (Sheets.names df) = List.length (Sheets.columns df) ->
  Sheets.names (Sheets.set_column name v df) !! i = Some n ->
  Sheets.columns (Sheets.set_column name v df) !! i
  = if eqb n name then Some (repeat v (Sheets.height df))
    else Sheets.columns df !! i.
Proof.
  intros Hlen. unfold Sheets.set_column.
  destruct (Prep.has_column name (Sheets.names df)) eqn:Hc; simpl.
  - intros Hn.
    assert (Hlt : (i < List.length (Sheets.columns df))%nat).
    { rewrite <- Hlen. eapply lookup_lt_Some, Hn. }
    destruct (lookup_lt_is_Some_2 _ i Hlt) as [col Hcol].
    rewrite Hcol.
    transitivity (Some (if eqb n name then repeat v (Sheets.height df) else col)).
    + apply lookup_zip_with_Some. exists n, col. auto.
    + destruct (eqb n name); reflexivity.
  - intros Hn. destruct (decide (i < List.length (Sheets.names df))%nat) as [Hlt | Hge].
    + rewrite lookup_app_l in Hn by exact Hlt.
      rewrite lookup_app_l by (rewrite <- Hlen; exact Hlt).
      destruct (eqb n name) eqn:He; [|reflexivity].
      apply eqb_eq in He. subst n.
      assert (Hin : In name (Sheets.names df)).
      { apply list_elem_of_In, list_elem_of_lookup. eauto. }
      apply has_column_In in Hin. congruence.
    + rewrite lookup_app_r in Hn by lia.
      rewrite lookup_app_r by lia. rewrite <- Hlen.
      destruct (i - List.length (Sheets.names df))%nat as [|k]; [|discriminate].
      simpl in Hn. injection Hn as <-. rewrite eqb_refl. reflexivity.
Qed.

Lemma assign_column_has (name : pystr) (l : list pystr) :
  exists i, Prep.assign_column name l !! i = Some name.
Proof.
  unfold Prep.assign_column.
  destruct (Prep.has_column name l) eqn:Hc.
  - apply has_column_In, list_elem_of_In, list_elem_of_lookup in Hc. exact Hc.
  - exists (List.length l). rewrite lookup_app_r by lia.
    rewrite Nat.sub_diag. reflexivity.
Qed.

(** X7.  On a sheet with a value column for each name, the loop body
    leaves a column named "season" (an existing one, or a new last one),
    and every column of that name holds, in every row, the label made from
    the sheet's name, whatever the sheet had there; the values of all other
    columns, and the number of rows, are as they were. *)
Theorem prepare_sheet_season (sheet : pystr) (df : Sheets.frame) :
  List.length (Sheets.names df) = List.length (Sheets.columns df) ->
  Sheets.names (Sheets.prepare_sheet sheet df)
  = Prep.sheet_columns (Sheets.names df)
  /\ Sheets.height (Sheets.prepare_sheet sheet df) = Sheets.height df
  /\ (exists i,
        Sheets.names (Sheets.prepare_sheet sheet df) !! i = Some (str "season"))
  /\ (forall i,
        Sheets.names (Sheets.prepare_sheet sheet df) !! i = Some (str "season") ->
        Sheets.columns (Sheets.prepare_sheet sheet df) !! i
        = Some (repeat (Text (Prep.normalise_season_value sheet))
                  (Sheets.height df)))
  /\ (forall i n,
        Sheets.names (Sheets.prepare_sheet sheet df) !! i = Some n ->
        n <> str "season" ->
        Sheets.columns (Sheets.prepare_sheet sheet df) !! i
        = Sheets.columns df !! i).
Proof.
  intros Hlen.
  set (df0 := {| Sheets.names := List.map strip (Sheets.names df);
                 Sheets.columns := Sheets.columns df;
                 Sheets.height := Sheets.height df |}).
  set (v := Text (Prep.normalise_season_value sheet)).
  assert (Hlen0 : List.length (Sheets.names df0) = List.length (Sheets.columns df0))
    by (simpl; rewrite length_map; exact Hlen).
  assert (Hnames : Sheets.names (Sheets.prepare_sheet sheet df)
                   = Prep.standardise_columns
                       (Sheets.names (Sheets.set_column (str "season") v df0)))
    by reflexivity.
  assert (Hcols : Sheets.columns (Sheets.prepare_sheet sheet df)
                  = Sheets.columns (Sheets.set_column (str "season") v df0))
    by reflexivity.
  rewrite Hnames, Hcols.
  split; [rewrite set_column_names; reflexivity |].
  split; [unfold Sheets.prepare_sheet, Sheets.set_column; simpl;
          destruct (Prep.has_column _ _); reflexivity |].
  split; [|split].
  - destruct (assign_column_has (str "season") (Sheets.names df0)) as [i Hi].
    exists i. apply (proj2 (standardise_columns_season _ _)).
    rewrite set_column_names. exact Hi.
  - intros i Hi. apply (proj1 (standardise_columns_season _ _)) in Hi.
    rewrite (set_column_values _ _ _ _ _ Hlen0 Hi). reflexivity.
  - intros i n Hi Hn.
    destruct (standardise_columns_other _ _ _ Hi Hn) as (c & Hc & Hcn).
    rewrite (set_column_values _ _ _ _ _ Hlen0 Hc).
    destruct (eqb c (str "season")) eqn:He; [|reflexivity].
    apply eqb_eq in He. congruence.
Qed.

Definition sheet_2013 : Sheets.frame :=
  {| Sheets.names := [str "Club "; str "season"; str "Points total"];
     Sheets.columns :=
       [[Text (str "Arsenal"); Text (str "Chelsea")];
        [Text (str "22-24"); Text (str "22-25")];
        [Num (Float64.of_int 79); Num (Float64.of_int 82)]];
     Sheets.height := 2 |}.

Lemma prepare_sheet_season_witness :
  Sheets.columns (Sheets.prepare_sheet (str "13-14") sheet_2013) !! 1%nat
  = Some [Text (str "2013-14"); Text (str "2013-14")].
Proof.
  apply (proj1 (proj2 (proj2 (proj2
           (prepare_sheet_season (str "13-14") sheet_2013 eq_refl)))) 1%nat).
  reflexivity.
Defined.

(** ** Duplicate rows of the stacked table *)

Section DuplicateFacts.

Context {R K : Type} `{EqDecision K}.
Variable key : R -> K.

Abbreviation occ := (Sheets.occurrences key).

Lemma occ_app (k : K) (l1 l2 : list R) :
  occ k (l1 ++ l2) = (occ k l1 + occ k l2)%nat.
Proof.
  unfold Sheets.occurrences. rewrite List.filter_app, length_app. reflexivity.
Qed.

Lemma occ_cons (k : K) (r : R) (l : list R) :
  occ k (r :: l) = ((if bool_decide (key r = k) then 1 else 0) + occ k l)%nat.
Proof.
  unfold Sheets.occurrences. simpl. destruct (bool_decide (key r = k)); reflexivity.
Qed.

Lemma occ_positive (k : K) (l : list R) :
  (1 <= occ k l)%nat <-> exists j r, l !! j = Some r /\ key r = k.
Proof.
  induction l as [|r l IH].
  - split; [unfold Sheets.occurrences; simpl; lia |].
    intros (j & r & H & _). discriminate.
  - rewrite occ_cons. destruct (bool_decide_reflect (key r = k)) as [Hk | Hk].
    + split; [|lia]. intros _. exists 0%nat, r. auto.
    + simpl. rewrite IH. split.
      * intros (j & r' & Hj & Hr'). exists (S j), r'. auto.
      * intros ([|j] & r' & Hj & Hr'); simpl in Hj.
        -- injection Hj as <-. contradiction.
        -- eauto.
Qed.

(** A row's key occurs twice exactly when another row has it. *)
Lemma occ_twice (rows : list R) (i : nat) (r : R) :
  rows !! i = Some r ->
  (2 <= occ (key r) rows)%nat
  <-> exists j r', j <> i /\ rows !! j = Some r' /\ key r' = key r.
Proof.
  intros Hi.
  pose proof (take_drop_middle rows i r Hi) as Hsplit.
  assert (Hlen : List.length (take i rows) = i).
  { apply length_take_le. apply lookup_lt_Some in Hi. lia. }
  rewrite <- Hsplit at 1. rewrite occ_app, occ_cons.
  rewrite bool_decide_eq_true_2 by reflexivity.
  split.
  - intros H2.
    assert (Hcase : (1 <= occ (key r) (take i rows))%nat
                    \/ (1 <= occ (key r) (drop (S i) rows))%nat) by lia.
    destruct Hcase as [H1 | H1]; apply occ_positive in H1 as (j & r' & Hj & Hk).
    + exists j, r'. rewrite lookup_take_Some in Hj. destruct Hj as [Hj Hlt].
      split; [lia | auto].
    + exists (S i + j)%nat, r'. rewrite lookup_drop in Hj.
      split; [lia | auto].
  - intros (j & r' & Hne & Hj & Hk).
    destruct (decide (j < i)%nat) as [Hlt | Hge].
    + assert (H1 : (1 <= occ (key r) (take i rows))%nat).
      { apply occ_positive. exists j, r'. split; [|exact Hk].
        apply lookup_take_Some. auto. }
      lia.
    + assert (H1 : (1 <= occ (key r) (drop (S i) rows))%nat).
      { apply occ_positive. exists (j - S i)%nat, r'. split; [|exact Hk].
        rewrite lookup_drop. replace (S i + (j - S i))%nat with j by lia.
        exact Hj. }
      lia.
Qed.

Lemma dupes_filter (rows : list R) :
  Sheets.dupes key rows
  = List.filter (fun r => (2 <=? occ (key r) rows)%nat) rows.
Proof.
  unfold Sheets.dupes, Sheets.duplicated.
  generalize (fun r => (2 <=? occ (key r) rows)%nat). intros f.
  induction rows as [|r rows IH]; simpl; [reflexivity |].
  destruct (f r); simpl; rewrite IH; reflexivity.
Qed.

Lemma filter_length_le (p q : R -> bool) (l : list R) :
  (forall r, In r l -> p r = true -> q r = true) ->
  (List.length (List.filter p l) <= List.length (List.filter q l))%nat.
Proof.
  induction l as [|r l IH]; intros H; simpl; [lia |].
  assert (IH' := IH (fun x Hx => H x (or_intror Hx))).
  destruct (p r) eqn:Hp.
  - rewrite (H r (or_introl eq_refl) Hp). simpl. lia.
  - destruct (q r); simpl; lia.
Qed.

(** X6.  The report of duplicates marks row [i] exactly when another row
    has the same (season, club) key, so it is empty exactly when the keys
    of the table are pairwise different, it holds every row of a repeated
    key, and it never holds just one row. *)
Theorem dupes_rows_of_repeated_keys (rows : list R) :
  (forall i r, rows !! i = Some r ->
     (Sheets.duplicated key rows !! i = Some true
      <-> exists j r', j <> i /\ rows !! j = Some r' /\ key r' = key r))
  /\ (forall r, In r (Sheets.dupes key rows)
                <-> In r rows /\ (2 <= occ (key r) rows)%nat)
  /\ (Sheets.dupes key rows = [] <-> List.NoDup (List.map key rows))
  /\ List.length (Sheets.dupes key rows) <> 1%nat.
Proof.
  assert (Hin : forall r, In r (Sheets.dupes key rows)
                          <-> In r rows /\ (2 <= occ (key r) rows)%nat).
  { intros r. rewrite dupes_filter, filter_In, Nat.leb_le. reflexivity. }
  split; [|split; [exact Hin | split]].
  - intros i r Hi. rewrite <- (occ_twice rows i r Hi).
    unfold Sheets.duplicated.
    change (List.map ?f rows) with (f <$> rows).
    rewrite list_lookup_fmap, Hi.
    transitivity ((2 <=? occ (key r) rows)%nat = true); [|apply Nat.leb_le].
    cbn [fmap option_fmap option_map]. split.
    + intros [= H]. exact H.
    + intros ->. reflexivity.
  - rewrite <- NoDup_ListNoDup, NoDup_alt.
    change (List.map key rows) with (key <$> rows). split.
    + intros Hnil i j k Hi Hj.
      destruct (decide (i = j)) as [|Hne]; [assumption | exfalso].
      rewrite list_lookup_fmap in Hi, Hj.
      destruct (rows !! i) as [r|] eqn:Hr; [|discriminate].
      destruct (rows !! j) as [r'|] eqn:Hr'; [|discriminate].
      injection Hi as Hi. injection Hj as Hj.
      assert (Hd : In r (Sheets.dupes key rows)).
      { apply Hin. split.
        - apply list_elem_of_In, list_elem_of_lookup. eauto.
        - apply (occ_twice rows i r Hr). exists j, r'.
          split; [auto |]. split; [exact Hr' | congruence]. }
      rewrite Hnil in Hd. destruct Hd.
    + intros Hnd. destruct (Sheets.dupes key rows) as [|r rest] eqn:Hd;
        [reflexivity | exfalso].
      destruct (proj1 (Hin r) (or_introl eq_refl)) as [Hr H2].
      apply list_elem_of_In, list_elem_of_lookup in Hr as [i Hi].
      apply (occ_twice rows i r Hi) in H2 as (j & r' & Hne & Hj & Hk).
      apply Hne. symmetry. apply (Hnd i j (key r)).
      * rewrite list_lookup_fmap, Hi. reflexivity.
      * rewrite list_lookup_fmap, Hj. simpl. congruence.
  - intros Hone.
    destruct (Sheets.dupes key rows) as [|r [|r2 rest]] eqn:Hd;
      try discriminate.
    destruct (proj1 (Hin r) (or_introl eq_refl)) as [_ H2].
    assert (Hle : (occ (key r) rows <= List.length (Sheets.dupes key rows))%nat).
    { rewrite dupes_filter. unfold Sheets.occurrences.
      apply filter_length_le. intros x _ Hx.
      apply bool_decide_eq_true_1 in Hx. rewrite Hx. apply Nat.leb_le, H2. }
    rewrite Hd in Hle. simpl in Hle. lia.
Qed.

End DuplicateFacts.

Lemma dupes_rows_of_repeated_keys_witness :
  Sheets.duplicated fst [(1, 10); (2, 20); (1, 30)]%nat !! 0%nat = Some true.
Proof.
  apply (proj2 (proj1 (dupes_rows_of_repeated_keys fst
                         [(1, 10); (2, 20); (1, 30)]%nat)
                  0%nat (1, 10)%nat eq_refl)).
  exists 2%nat, (1, 30)%nat. split; [discriminate |]. split; reflexivity.
Defined.

(** ** The season label of a sheet, for every sheet name *)

(** A sheet name of the two-digit form: once stripped it is two digits, a
    hyphen or an en dash, and two digits. *)
Definition two_digit_label (s g1 g2 : pystr) : Prop :=
  List.length g1 = 2%nat /\ all_digits g1
  /\ List.length g2 = 2%nat /\ all_digits g2
  /\ exists d, (d = hyphen \/ d = en_dash) /\ strip s = g1 ++ d :: g2.

Definition dash (c : N) : N := if (c =? en_dash)%N then hyphen else c.

Lemma replace_dash (s : pystr) : replace en_dash [hyphen] s = List.map dash s.
Proof.
  unfold replace, dash. induction s as [|c s IH]; simpl; [reflexivity |].
  rewrite IH. destruct (c =? en_dash)%N; reflexivity.
Qed.

Lemma dash_digit (c : N) : is_digit c = true -> dash c = c.
Proof.
  unfold dash. destruct (N.eqb_spec c en_dash) as [->|]; [|reflexivity].
  intros H. vm_compute in H. discriminate.
Qed.

Lemma dash_digit_inv (c : N) : is_digit (dash c) = true -> dash c = c.
Proof.
  unfold dash. destruct (N.eqb_spec c en_dash) as [->|]; [|reflexivity].
  intros H. vm_compute in H. discriminate.
Qed.

Lemma dash_hyphen (c : N) : dash c = hyphen <-> c = hyphen \/ c = en_dash.
Proof.
  unfold dash. destruct (N.eqb_spec c en_dash) as [->|Hc].
  - split; [right; reflexivity | reflexivity].
  - split; [left; assumption | intros [H|H]; [assumption | contradiction]].
Qed.

Lemma dash_newline (c : N) : dash c = newline -> c = newline.
Proof.
  unfold dash. destruct (N.eqb_spec c en_dash) as [->|]; [|tauto].
  intros H. vm_compute in H. discriminate.
Qed.

Lemma two_digits (g : pystr) :
  List.length g = 2%nat -> all_digits g ->
  exists a b, g = [a; b] /\ is_digit a = true /\ is_digit b = true.
Proof.
  destruct g as [|a [|b [|c g]]]; try discriminate. intros _ H.
  inversion H as [|? ? Ha H']; subst. inversion H' as [|? ? Hb _]; subst.
  exists a, b. auto.
Qed.

(** The text the pattern is tried on matches it exactly when the sheet
    name is of the two-digit form, with the same two groups. *)
Lemma label_text_two_digit (s g1 g2 : pystr) :
  two_groups_match 2 2 (label_text s) g1 g2 <-> two_digit_label s g1 g2.
Proof.
  unfold two_groups_match, two_digit_label, label_text.
  rewrite replace_dash. split.
  - intros (Hl1 & Hd1 & Hl2 & Hd2 & Hs).
    destruct (two_digits g1 Hl1 Hd1) as (a & b & -> & Ha & Hb).
    destruct (two_digits g2 Hl2 Hd2) as (c & e & -> & Hc & He).
    repeat (split; [assumption |]).
    destruct Hs as [Hs | Hs]; simpl in Hs.
    + destruct (strip s) as [|a' [|b' [|d [|c' [|e' [|x t]]]]]]; try discriminate.
      injection Hs as Ea Eb Ed Ec Ee.
      rewrite <- Ea in Ha. rewrite <- Eb in Hb.
      rewrite <- Ec in Hc. rewrite <- Ee in He.
      apply dash_digit_inv in Ha, Hb, Hc, He.
      exists d. split; [apply dash_hyphen, Ed |]. simpl. congruence.
    + exfalso.
      destruct (strip s) as [|a' [|b' [|d [|c' [|e' [|x [|y t]]]]]]] eqn:Hst;
        try discriminate.
      injection Hs as _ _ _ _ _ Ex. apply dash_newline in Ex. subst x.
      apply (strip_no_final_newline s [a'; b'; d; c'; e']). exact Hst.
  - intros (Hl1 & Hd1 & Hl2 & Hd2 & d & Hd & Hs).
    repeat (split; [assumption |]). left.
    destruct (two_digits g1 Hl1 Hd1) as (a & b & -> & Ha & Hb).
    destruct (two_digits g2 Hl2 Hd2) as (c & e & -> & Hc & He).
    rewrite Hs. simpl.
    rewrite (dash_digit a Ha), (dash_digit b Hb), (dash_digit c Hc),
      (dash_digit e He), (proj2 (dash_hyphen d) Hd).
    reflexivity.
Qed.

(** A label of the four-digit form is not of the two-digit form. *)
Lemma century_label_other (g1 g2 : pystr) :
  List.length g1 = 2%nat -> all_digits g1 ->
  List.length g2 = 2%nat -> all_digits g2 ->
  Prep.normalise_season_value (str "20" ++ g1 ++ hyphen :: g2) = str "20nan-nan".
Proof.
  intros Hl1 Hd1 Hl2 Hd2.
  destruct (two_digits g1 Hl1 Hd1) as (a & b & -> & Ha & Hb).
  destruct (two_digits g2 Hl2 Hd2) as (c & e & -> & Hc & He).
  apply normalise_season_value_other. intros (h1 & h2 & H).
  apply label_text_two_digit in H as (Hh1 & _ & Hh2 & _ & d & _ & Hs).
  assert (Hst : strip (str "20" ++ [a; b] ++ hyphen :: [c; e])
                = str "20" ++ [a; b] ++ hyphen :: [c; e]).
  { unfold strip, rstrip. simpl.
    rewrite (digit_not_space e He). reflexivity. }
  rewrite Hst in Hs. apply (f_equal (@List.length N)) in Hs.
  rewrite (length_app h1) in Hs. cbn [List.length] in Hs.
  rewrite Hh1, Hh2 in Hs. vm_compute in Hs. discriminate.
Qed.

(** X13.  Whatever the sheet name, the season label is the text "20nan-nan"
    unless the stripped name is two digits, a hyphen or en dash and two
    digits, in which case it is "20", the first two digits, a hyphen and
    the last two; a second application gives "20nan-nan" for every name,
    so the function is idempotent exactly on the names it does not
    understand. *)
Theorem normalise_season_value_cases (s : pystr) :
  ((Prep.normalise_season_value s = str "20nan-nan"
    /\ ~ (exists g1 g2, two_digit_label s g1 g2))
   \/ (exists g1 g2, two_digit_label s g1 g2
         /\ Prep.normalise_season_value s = str "20" ++ g1 ++ hyphen :: g2))
  /\ Prep.normalise_season_value (Prep.normalise_season_value s)
     = str "20nan-nan"
  /\ (Prep.normalise_season_value (Prep.normalise_season_value s)
      = Prep.normalise_season_value s
      <-> ~ (exists g1 g2, two_digit_label s g1 g2)).
Proof.
  destruct (Re.two_groups 2 2 (label_text s)) as [[g1 g2]|] eqn:Hm.
  - apply two_groups_spec in Hm.
    pose proof (normalise_season_value_two_digit s g1 g2 Hm) as Hv.
    pose proof (proj1 (label_text_two_digit s g1 g2) Hm) as Hl.
    assert (H2 : Prep.normalise_season_value (Prep.normalise_season_value s)
                 = str "20nan-nan").
    { rewrite Hv. destruct Hl as (Hl1 & Hd1 & Hl2 & Hd2 & _).
      apply century_label_other; assumption. }
    split; [right; exists g1, g2; auto |]. split; [exact H2 |].
    rewrite H2, Hv. split.
    + intros H. apply (f_equal (@List.length N)) in H.
      destruct Hl as (Hl1 & _ & Hl2 & _).
      rewrite !length_app in H. simpl in H. rewrite Hl1, Hl2 in H.
      vm_compute in H. discriminate.
    + intros H. exfalso. apply H. exists g1, g2. exact Hl.
  - assert (Hno : ~ (exists g1 g2, two_digit_label s g1 g2)).
    { intros (g1 & g2 & H). apply label_text_two_digit, two_groups_spec in H.
      congruence. }
    assert (Hv : Prep.normalise_season_value s = str "20nan-nan").
    { apply normalise_season_value_other. intros (g1 & g2 & H).
      apply two_groups_spec in H. congruence. }
    split; [left; auto |]. rewrite Hv. split; [reflexivity |].
    split; [intros _; exact Hno | reflexivity].
Qed.

(** ** The columns the analysis script needs *)

Lemma eqb_sym (a b : pystr) : eqb a b = eqb b a.
Proof.
  destruct (eqb b a) eqn:H.
  - apply eqb_eq in H. subst. apply eqb_refl.
  - apply eqb_neq. apply eqb_neq in H. congruence.
Qed.

Lemma count_cons (n c : pystr) (l : list pystr) :
  Analysis.count n (c :: l)
  = ((if eqb n c then 1 else 0) + Analysis.count n l)%nat.
Proof. unfold Analysis.count. simpl. destruct (eqb n c); reflexivity. Qed.

Lemma count_In (n : pystr) (l : list pystr) :
  In n l <-> (1 <= Analysis.count n l)%nat.
Proof.
  induction l as [|c l IH]; [simpl; unfold Analysis.count; simpl; lia |].
  rewrite count_cons. simpl. rewrite IH.
  destruct (eqb n c) eqn:H.
  - apply eqb_eq in H. split; [lia | auto].
  - apply eqb_neq in H. split; [intros [E|E]; [congruence | lia] | simpl; auto].
Qed.

(** The number of columns that bear a name after a rename of the columns
    and the drop of the columns named [dropped]. *)
Lemma count_renamed_dropped (f : pystr -> pystr) (dropped n : pystr)
    (l : list pystr) :
  n <> dropped ->
  Analysis.count n
    (List.filter (fun c => negb (eqb c dropped)) (List.map f l))
  = Analysis.count n (List.map f l).
Proof.
  intros Hn. induction (List.map f l) as [|c m IH]; [reflexivity |].
  simpl. destruct (eqb c dropped) eqn:Hc; simpl.
  - rewrite IH, count_cons. apply eqb_eq in Hc. subst c.
    apply eqb_neq in Hn. rewrite Hn. reflexivity.
  - rewrite !count_cons, IH. reflexivity.
Qed.

Lemma count_normalise_names (n : pystr) (cols : list pystr) :
  n <> str "season_excel" ->
  Analysis.count n (Analysis.normalise_names cols)
  = Analysis.count n (List.map Analysis.rename_map cols).
Proof.
  intros Hn. unfold Analysis.normalise_names.
  destruct (Prep.has_column _ _); [|reflexivity].
  apply count_renamed_dropped, Hn.
Qed.

(** A name the rename neither takes nor gives. *)
Definition untouched (n : pystr) : Prop :=
  ~ In n [str "Season"; str "season_excel"; str "League position";
          str "league_position"; str "Points total"; str "points_total"].

Lemma rename_map_cases (c : pystr) :
  (c = str "Season" /\ Analysis.rename_map c = str "season_excel")
  \/ (c = str "League position"
      /\ Analysis.rename_map c = str "league_position")
  \/ (c = str "Points total" /\ Analysis.rename_map c = str "points_total")
  \/ (c <> str "Season" /\ c <> str "League position"
      /\ c <> str "Points total" /\ Analysis.rename_map c = c).
Proof.
  unfold Analysis.rename_map.
  destruct (eqb c (str "Season")) eqn:H1;
    [apply eqb_eq in H1; auto |].
  destruct (eqb c (str "League position")) eqn:H2;
    [apply eqb_eq in H2; auto |].
  destruct (eqb c (str "Points total")) eqn:H3;
    [apply eqb_eq in H3; auto 6 |].
  apply eqb_neq in H1, H2, H3. auto 10.
Qed.

Lemma count_rename_map_untouched (n : pystr) (cols : list pystr) :
  untouched n ->
  Analysis.count n (List.map Analysis.rename_map cols) = Analysis.count n cols.
Proof.
  unfold untouched. simpl. intros Hn.
  induction cols as [|c cols IH]; [reflexivity |].
  simpl. rewrite !count_cons, IH. f_equal.
  destruct (rename_map_cases c)
    as [[-> ->] | [[-> ->] | [[-> ->] | (_ & _ & _ & ->)]]];
    try reflexivity;
    repeat match goal with
    | |- context [eqb n ?x] =>
        let E := fresh in
        destruct (eqb n x) eqn:E;
          [apply eqb_eq in E; exfalso; apply Hn; rewrite E; auto 10 |]
    end; reflexivity.
Qed.

Lemma count_rename_map_renamed (old new : pystr) (cols : list pystr) :
  In (old, new) [(str "Season", str "season_excel");
                 (str "League position", str "league_position");
                 (str "Points total", str "points_total")] ->
  Analysis.count new (List.map Analysis.rename_map cols)
  = (Analysis.count old cols + Analysis.count new cols)%nat.
Proof.
  intros Hp. induction cols as [|c cols IH]; [reflexivity |].
  simpl. rewrite !count_cons, IH.
  enough (E : (if eqb new (Analysis.rename_map c) then 1 else 0)%nat
              = ((if eqb old c then 1 else 0)
                 + (if eqb new c then 1 else 0))%nat) by lia.
  destruct (rename_map_cases c)
    as [[-> ->] | [[-> ->] | [[-> ->] | (N1 & N2 & N3 & ->)]]];
    try (simpl in Hp;
         destruct Hp as [[= <- <-] | [[= <- <-] | [[= <- <-] | []]]];
         reflexivity).
  destruct (eqb old c) eqn:E; [|reflexivity].
  apply eqb_eq in E. subst c. exfalso. simpl in Hp.
  destruct Hp as [[= <- <-] | [[= <- <-] | [[= <- <-] | []]]]; congruence.
Qed.

Lemma missing_labels_nil (labels cols : list pystr) :
  Analysis.missing_labels labels cols = []
  <-> Forall (fun l => In l cols) labels.
Proof.
  unfold Analysis.missing_labels. rewrite filter_nil_Forall.
  apply Forall_iff. intros l.
  rewrite negb_false_iff. apply has_column_In.
Qed.

(** The two selections and the loop of conversions go through exactly
    when the names hold the two labels of part 2 and each key column once. *)
Lemma selections_pass (df : Analysis.table) :
  (Analysis.selecting [str "season"; str "club"] df = inr tt
   /\ Analysis.selecting Analysis.key_cols df = inr tt
   /\ Analysis.to_numeric_loop df = inr tt)
  <-> Forall (fun l => In l (Analysis.names df)) [str "season"; str "club"]
      /\ Forall (fun k => Analysis.count k (Analysis.names df) = 1%nat)
           Analysis.key_cols.
Proof.
  unfold Analysis.selecting, Analysis.to_numeric_loop.
  set (cs := Analysis.names df).
  rewrite <- (missing_labels_nil [str "season"; str "club"] cs).
  pose proof (missing_labels_nil Analysis.key_cols cs) as Hk.
  pose proof (filter_nil_Forall
                (fun c => (2 <=? Analysis.count c cs)%nat) Analysis.key_cols)
    as Hf.
  destruct (Analysis.missing_labels [str "season"; str "club"] cs) as [|m0 ms0];
    [|split; [intros [H _]; discriminate | intros [H _]; discriminate]].
  destruct (Analysis.missing_labels Analysis.key_cols cs) as [|m1 ms1].
  - pose proof (proj1 Hk eq_refl) as Hin.
    destruct (List.filter _ Analysis.key_cols) as [|c r].
    + pose proof (proj1 Hf eq_refl) as Hle. split; [|auto].
      intros _. split; [reflexivity |].
      rewrite List.Forall_forall in Hin, Hle. apply List.Forall_forall.
      intros k Hkin. specialize (Hin k Hkin). specialize (Hle k Hkin).
      apply count_In in Hin. apply Nat.leb_gt in Hle. lia.
    + split; [intros (_ & _ & H); discriminate |]. intros [_ H1]. exfalso.
      assert (Hc : Forall (fun c => (2 <=? Analysis.count c cs)%nat = false)
                     Analysis.key_cols).
      { rewrite List.Forall_forall in H1. apply List.Forall_forall.
        intros k Hkin. rewrite (H1 k Hkin). reflexivity. }
      apply Hf in Hc. discriminate.
  - split; [intros (_ & H & _); discriminate |]. intros [_ H1]. exfalso.
    assert (Hc : Forall (fun l => In l cs) Analysis.key_cols).
    { rewrite List.Forall_forall in H1. apply List.Forall_forall.
      intros k Hkin. apply count_In. rewrite (H1 k Hkin). lia. }
    apply Hk in Hc. discriminate.
Qed.

Lemma names_normalise (df : Analysis.table) :
  Analysis.names (Analysis.normalise df)
  = Analysis.normalise_names (Analysis.names df).
Proof.
  unfold Analysis.normalise, Analysis.normalise_names, Analysis.names.
  cbv zeta.
  assert (E : List.map fst
                (List.map (fun c : pystr * list cell =>
                             (Analysis.rename_map (fst c), snd c)) df)
              = List.map Analysis.rename_map (List.map fst df))
    by (rewrite !map_map; reflexivity).
  rewrite E. destruct (Prep.has_column _ _); [|exact E].
  clear E. induction df as [|[n col] df IH]; [reflexivity |]. simpl.
  destruct (eqb (Analysis.rename_map n) (str "season_excel")); simpl;
    rewrite IH; reflexivity.
Qed.

(** The column of a name that the renaming neither takes nor gives is the
    column of that name in the table as it was read. *)
Lemma column_normalise (n : pystr) (df : Analysis.table) :
  untouched n ->
  Analysis.column n (Analysis.normalise df) = Analysis.column n df.
Proof.
  intros Hn. unfold Analysis.column, Analysis.normalise.
  assert (Hmap : forall l : Analysis.table,
             List.find (fun c => eqb n (fst c))
               (List.map (fun c => (Analysis.rename_map (fst c), snd c)) l)
             = option_map (fun c => (Analysis.rename_map (fst c), snd c))
                 (List.find (fun c => eqb n (fst c)) l)).
  { induction l as [|[c col] l IH]; [reflexivity |]. simpl.
    assert (E : eqb n (Analysis.rename_map c) = eqb n c).
    { unfold untouched in Hn. simpl in Hn.
      destruct (rename_map_cases c)
        as [[-> ->] | [[-> ->] | [[-> ->] | (_ & _ & _ & ->)]]];
        try reflexivity;
        repeat match goal with
        | |- context [eqb n ?x] =>
            let E := fresh in
            destruct (eqb n x) eqn:E;
              [apply eqb_eq in E; exfalso; apply Hn; rewrite E; auto 10 |]
        end; reflexivity. }
    rewrite E. destruct (eqb n c); [reflexivity | exact IH]. }
  assert (Hfil : forall l : Analysis.table,
             List.find (fun c => eqb n (fst c))
               (List.filter
                  (fun c => negb (eqb (fst c) (str "season_excel"))) l)
             = List.find (fun c => eqb n (fst c)) l).
  { induction l as [|[c col] l IH]; [reflexivity |]. simpl.
    destruct (eqb c (str "season_excel")) eqn:Hc; simpl.
    - rewrite IH. destruct (eqb n c) eqn:E; [|reflexivity].
      apply eqb_eq in E, Hc. subst. exfalso. apply Hn. simpl. auto.
    - rewrite IH. reflexivity. }
  destruct (Prep.has_column _ _); rewrite ?Hfil, Hmap;
    destruct (List.find _ df) as [[c col]|]; reflexivity.
Qed.

Lemma and_then_inr {A B : Type} (x : Analysis.failure + A)
    (k : A -> Analysis.failure + B) (b : B) :
  Analysis.and_then x k = inr b <-> exists a, x = inr a /\ k a = inr b.
Proof.
  destruct x as [f|a]; simpl.
  - split; [discriminate | intros (a & H & _); discriminate].
  - split; [eauto | intros (a' & [= <-] & H); exact H].
Qed.

Lemma printing_inr (print_error : nat -> Analysis.table -> option exn)
    (line : nat) (df : Analysis.table) (u : unit) :
  Analysis.printing print_error line df = inr u <-> print_error line df = None.
Proof.
  unfold Analysis.printing. destruct (print_error line df), u;
    split; congruence.
Qed.

(** The cast of line 53 goes through exactly when no cell of the column
    reads as an infinity. *)
Lemma coerce_promoted_returns (text_to_number : pystr -> option Float64.float)
    (col : list cell) :
  (exists flags, coerce_promoted text_to_number col = Ok flags)
  <-> Forall (fun c => ~ infinite text_to_number c) col.
Proof.
  split; [|apply coerce_promoted_total].
  intros [flags H]. apply coerce_promoted_lookup in H as [_ H].
  apply Forall_lookup. intros i c Hc [sg Hs].
  destruct (H i c Hc) as (p & _ & Hp).
  rewrite Hs in Hp. discriminate Hp.
Qed.

(** X10.  The analysis script gets through its parts 1 to 4 (lines 15 to
    53) exactly when its six calls of [print] go through, the table read
    from the stacked file has columns [season] and [club], one column each
    for the wage bill, the transfer spend and the promotion flag, one column
    named either "League position" or [league_position] and one named
    either "Points total" or [points_total], and the cast of the promotion
    column goes through, which it does exactly when none of its cells reads
    as an infinity.  After part 1 no column is named "Season",
    [season_excel], "League position" or "Points total".  With both
    spellings of the league position present the script always stops. *)
Theorem parts_1_to_4_accepts
  (text_to_number : pystr -> option Float64.float)
  (print_error : nat -> Analysis.table -> option exn) (df : Analysis.table) :
  let cols := Analysis.names df in
  (forall flags,
     Analysis.parts_1_to_4 text_to_number print_error df = inr flags
     <-> Forall (fun line => print_error line (Analysis.normalise df) = None)
           [25; 26; 28; 29; 42; 43]%nat
         /\ In (str "season") cols /\ In (str "club") cols
         /\ Analysis.count (str "total_wage_bill_gbp_m") cols = 1%nat
         /\ (Analysis.count (str "League position") cols
             + Analysis.count (str "league_position") cols = 1)%nat
         /\ (Analysis.count (str "Points total") cols
             + Analysis.count (str "points_total") cols = 1)%nat
         /\ Analysis.count (str "gross_transfer_spend_gbp_m") cols = 1%nat
         /\ Analysis.count (str "promoted") cols = 1%nat
         /\ coerce_promoted text_to_number
              (Analysis.column (str "promoted") df) = Ok flags)
  /\ ((exists flags,
         coerce_promoted text_to_number (Analysis.column (str "promoted") df)
         = Ok flags)
      <-> Forall (fun c => ~ infinite text_to_number c)
            (Analysis.column (str "promoted") df))
  /\ Forall (fun n =>
               Analysis.count n (Analysis.names (Analysis.normalise df)) = 0%nat)
       [str "Season"; str "season_excel"; str "League position";
        str "Points total"]
  /\ (In (str "League position") cols /\ In (str "league_position") cols ->
      exists f, Analysis.parts_1_to_4 text_to_number print_error df = inl f).
Proof.
  intros cols.
  assert (Hu : forall n, untouched n ->
             Analysis.count n (Analysis.normalise_names cols)
             = Analysis.count n cols).
  { intros n Hn. rewrite count_normalise_names.
    - apply count_rename_map_untouched, Hn.
    - intros ->. apply Hn. simpl. auto. }
  assert (Hr : forall old new,
             In (old, new) [(str "League position", str "league_position");
                            (str "Points total", str "points_total")] ->
             Analysis.count new (Analysis.normalise_names cols)
             = (Analysis.count old cols + Analysis.count new cols)%nat).
  { intros old new Hp. rewrite count_normalise_names.
    - apply count_rename_map_renamed. simpl in *. tauto.
    - simpl in Hp. destruct Hp as [[= <- <-] | [[= <- <-] | []]]; discriminate. }
  assert (Hun : Forall untouched
                  [str "season"; str "club"; str "total_wage_bill_gbp_m";
                   str "gross_transfer_spend_gbp_m"; str "promoted"]).
  { repeat constructor; unfold untouched; simpl; intros H;
      repeat destruct H as [H|H]; try discriminate; exact H. }
  rewrite List.Forall_forall in Hun.
  assert (Hacc : forall flags,
     Analysis.parts_1_to_4 text_to_number print_error df = inr flags
     <-> Forall (fun line => print_error line (Analysis.normalise df) = None)
           [25; 26; 28; 29; 42; 43]%nat
         /\ In (str "season") cols /\ In (str "club") cols
         /\ Analysis.count (str "total_wage_bill_gbp_m") cols = 1%nat
         /\ (Analysis.count (str "League position") cols
             + Analysis.count (str "league_position") cols = 1)%nat
         /\ (Analysis.count (str "Points total") cols
             + Analysis.count (str "points_total") cols = 1)%nat
         /\ Analysis.count (str "gross_transfer_spend_gbp_m") cols = 1%nat
         /\ Analysis.count (str "promoted") cols = 1%nat
         /\ coerce_promoted text_to_number
              (Analysis.column (str "promoted") df) = Ok flags).
  { intros flags.
    pose proof (selections_pass (Analysis.normalise df)) as Hsel.
    rewrite names_normalise in Hsel. fold cols in Hsel.
    unfold Analysis.key_cols in Hsel.
    rewrite !Forall_cons, !Forall_nil in Hsel.
    rewrite !count_In in Hsel.
    rewrite (Hu (str "season")), (Hu (str "club")),
      (Hu (str "total_wage_bill_gbp_m")),
      (Hu (str "gross_transfer_spend_gbp_m")), (Hu (str "promoted")) in Hsel
      by (apply Hun; simpl; auto 10).
    rewrite (Hr (str "League position") (str "league_position")) in Hsel
      by (simpl; auto).
    rewrite (Hr (str "Points total") (str "points_total")) in Hsel
      by (simpl; auto).
    rewrite !count_In.
    unfold Analysis.parts_1_to_4. cbv zeta.
    assert (Hcast : Analysis.cast_promoted text_to_number (Analysis.normalise df)
                    = inr flags
                    <-> coerce_promoted text_to_number
                          (Analysis.column (str "promoted") df) = Ok flags).
    { unfold Analysis.cast_promoted.
      rewrite (column_normalise (str "promoted") df)
        by (apply Hun; simpl; auto 10).
      destruct (coerce_promoted _ _); split; congruence. }
    rewrite !Forall_cons, Forall_nil.
    rewrite <- Hcast. clear Hcast.
    split.
    - intros H.
      apply and_then_inr in H as ([] & P25 & H).
      apply and_then_inr in H as ([] & P26 & H).
      apply and_then_inr in H as ([] & P28 & H).
      apply and_then_inr in H as ([] & S1 & H).
      apply and_then_inr in H as ([] & P29 & H).
      apply and_then_inr in H as ([] & P42 & H).
      apply and_then_inr in H as ([] & S2 & H).
      apply and_then_inr in H as ([] & P43 & H).
      apply and_then_inr in H as ([] & L & C).
      apply printing_inr in P25, P26, P28, P29, P42, P43.
      destruct (proj1 Hsel (conj S1 (conj S2 L)))
        as [(A1 & A2 & _) (B1 & B2 & B3 & B4 & B5 & _)].
      tauto.
    - intros ((P25 & P26 & P28 & P29 & P42 & P43 & _) & A1 & A2 & B1 & B2
              & B3 & B4 & B5 & C).
      destruct (proj2 Hsel) as (S1 & S2 & L); [tauto |].
      apply (printing_inr _ _ _ tt) in P25, P26, P28, P29, P42, P43.
      repeat (apply and_then_inr; exists tt; split; [assumption |]).
      exact C. }
  split; [exact Hacc |].
  split; [apply coerce_promoted_returns |]. split.
  - rewrite names_normalise. fold cols.
    assert (Hdrop : Analysis.count (str "season_excel")
                      (Analysis.normalise_names cols) = 0%nat).
    { unfold Analysis.normalise_names.
      destruct (Prep.has_column _ _) eqn:Hh.
      - generalize (List.map Analysis.rename_map cols). intros l.
        induction l as [|c l IH]; [reflexivity |]. simpl.
        destruct (eqb c (str "season_excel")) eqn:Hc; simpl; [exact IH |].
        rewrite count_cons, IH, eqb_sym, Hc. reflexivity.
      - destruct (Nat.eq_dec
                    (Analysis.count (str "season_excel")
                       (List.map Analysis.rename_map cols)) 0%nat) as [E|E];
          [exact E | exfalso].
        assert (Hin : In (str "season_excel")
                        (List.map Analysis.rename_map cols))
          by (apply count_In; lia).
        apply has_column_In in Hin. congruence. }
    assert (Hgone : forall old,
               In old [str "Season"; str "League position"; str "Points total"] ->
               Analysis.count old (Analysis.normalise_names cols) = 0%nat).
    { intros old Ho. rewrite count_normalise_names
        by (simpl in Ho; intros ->;
            repeat destruct Ho as [Ho|Ho]; try discriminate; exact Ho).
      destruct (Nat.eq_dec
                  (Analysis.count old (List.map Analysis.rename_map cols)) 0%nat)
        as [E|E]; [exact E | exfalso].
      assert (Hin : In old (List.map Analysis.rename_map cols))
        by (apply count_In; lia).
      apply in_map_iff in Hin as (c & Hc & _).
      simpl in Ho.
      destruct (rename_map_cases c)
        as [[-> E1] | [[-> E1] | [[-> E1] | (N1 & N2 & N3 & E1)]]];
        rewrite E1 in Hc;
        repeat destruct Ho as [Ho|Ho]; subst; try discriminate;
        try contradiction; congruence. }
    repeat constructor; try exact Hdrop; apply Hgone; simpl; auto.
  - intros [H1 H2].
    destruct (Analysis.parts_1_to_4 text_to_number print_error df)
      as [f|flags] eqn:Hc; [eauto |].
    exfalso.
    destruct (proj1 (Hacc flags) eq_refl) as (_ & _ & _ & _ & Hl & _).
    apply count_In in H1, H2. lia.
Qed.

Lemma parts_1_to_4_accepts_witness :
  exists f,
    Analysis.parts_1_to_4 (fun _ => None) (fun _ _ => None)
      [(str "season", []); (str "club", []); (str "League position", []);
       (str "league_position", [])]
    = inl f.
Proof.
  apply (proj2 (proj2 (proj2 (parts_1_to_4_accepts (fun _ => None)
           (fun _ _ => None)
           [(str "season", []); (str "club", []); (str "League position", []);
            (str "league_position", [])])))).
  split; simpl; auto.
Defined.
